(** * Conversation session manager and history reconstructor

    A shallow embedding of the chat and history pages of the
    algerie-poste-dashboard frontends, and the properties their
    specification states about them.

    The pieces of the repository that are embedded:

    - [History]: the history page (src/unnamed/part_004, lines 25-92 and
      153): [fetchConversations], which groups flat history records by
      conversation and orders the conversations, [toggleConversation],
      [filteredConversations] and the link of a conversation;
    - [RagChat]: the file-bound chat page (src/unnamed/part_001, lines
      210-413 and 532-551): [handleFileChange], [handleSendMessage],
      [loadExistingConversation], [initializeConversation], [fetchFiles],
      [handleEmbeddingProviderChange] and the effects that call them;
    - [NextChat]: the conversation-list chat page
      (src/projet/projet/project/src/components/layout/Sidebar.tsx, lines
      86-262): [handleSubmit], [handleConversationChange],
      [startNewConversation], [fetchConversations];
    - [ProcessingQueue]: the queue page (src/unnamed/part_001, lines
      21-183);
    - [ApiRoute]: the route handlers under src/front/app/api.

    React state is a record; an [async] handler is split at each [await]
    into the part that runs synchronously and the continuation that runs
    when the awaited request settles.  A continuation reads the variables
    of the render in which its handler was called (they are stored with
    the pending request) and updates the state that is current when it
    runs, exactly as the functional [setMessages (prev => ...)] updates of
    the source do.  Every handler runs against the committed state: React
    re-renders between two user events.

    The built-ins of JavaScript whose result depends on the Unicode
    tables or on the implementation ([trim], [toLowerCase], [sort]) are
    parameters of the embedding, [Js.Engine]; the theorems hold for every
    engine, where needed for every engine with the properties
    [Js.Conforms] that ECMAScript gives these built-ins. *)

From Stdlib Require Import ZArith Lia Sorted Permutation Ascii String.
From stdpp Require Import base option list gmap strings.

Local Open Scope string_scope.
Local Open Scope Z_scope.
Local Open Scope list_scope.

(** ** Shared JavaScript pieces *)

Module Js.

(** A [string] stands for a JavaScript string, character by character.
    Concatenation, equality, emptiness and the search for a substring
    compare characters and count positions, whatever the characters are,
    and are modelled here; the strings of the examples are ASCII.  The
    built-ins whose result depends on what the characters are
    ([String.prototype.trim], [String.prototype.toLowerCase]: the Unicode
    white space and case tables) and the one whose result ECMAScript
    leaves in part to the implementation ([Array.prototype.sort]) are
    taken from the engine that runs the page: see [Engine]. *)

(** Truthiness of a string: only the empty string is falsy. *)
Definition truthy (s : string) : bool :=
  match s with EmptyString => false | String _ _ => true end.

(** The value a comparator returns: a number, [None] standing for NaN. *)
Definition Number := option Z.

(** The built-ins taken from the engine.  [Array_sort] is
    [Array.prototype.sort (compareFn)] on an array of any element type. *)
Class Engine := mkEngine {
  trim : string → string;
  toLowerCase : string → string;
  Array_sort : ∀ A : Type, (A → A → Number) → list A → list A
}.
Arguments Array_sort {_ A} compareFn l.

(** A comparator that orders the elements of [l] by decreasing [key], as
    [(a, b) => key (b) - key (a)] does when no key is NaN. *)
Definition descending {A : Type} (compareFn : A → A → Number) (key : A → Z)
    (l : list A) : Prop :=
  ∀ a b, a ∈ l → b ∈ l → compareFn a b = Some (key b - key a).

(** What ECMAScript says of these built-ins, as far as the page relies
    on it: trimming the empty string gives the empty string; lower-casing
    gives the empty string for the empty string only; a sort permutes the
    array, and for a comparator that is a consistent ordering the sort is
    the stable one (for any other comparator, one that returns NaN for
    instance, the order is implementation-defined). *)
Class Conforms (engine : Engine) : Prop := mkConforms {
  trim_empty : trim "" = "";
  toLowerCase_truthy : ∀ s, truthy (toLowerCase s) = truthy s;
  Array_sort_perm :
    ∀ (A : Type) (compareFn : A → A → Number) (l : list A),
      Array_sort compareFn l ≡ₚ l;
  Array_sort_sorted :
    ∀ (A : Type) (compareFn : A → A → Number) (key : A → Z) (l : list A),
      descending compareFn key l →
      StronglySorted (λ a b, key b ≤ key a) (Array_sort compareFn l);
  Array_sort_stable :
    ∀ (A : Type) (compareFn : A → A → Number) (key : A → Z) (l : list A) (t : Z),
      descending compareFn key l →
      filter (λ a, key a = t) (Array_sort compareFn l) = filter (λ a, key a = t) l
}.

(** [!s.trim()]: the string is empty once trimmed. *)
Definition blank {engine : Engine} (s : string) : bool := negb (truthy (trim s)).

(** [String.prototype.includes]: [sub] occurs in [s] at some position. *)
Fixpoint includes (s sub : string) : bool :=
  String.prefix sub s
  || match s with
     | EmptyString => false
     | String _ rest => includes rest sub
     end.

(** [Array.prototype.filter] with a predicate that can throw ([None]):
    the predicate is called on the elements in order, and the first
    throw ends the call. *)
Fixpoint Array_filter {A : Type} (predicate : A → option bool) (l : list A)
    : option (list A) :=
  match l with
  | [] => Some []
  | x :: rest =>
      match predicate x with
      | Some keep =>
          match Array_filter predicate rest with
          | Some kept => Some (if keep then x :: kept else kept)
          | None => None
          end
      | None => None
      end
  end.

(** The names of the properties that every object created by [{}]
    inherits from [Object.prototype].  All of them are functions, but
    [__proto__], which reads as [Object.prototype] itself: each is truthy,
    none has a [push] or a [some], and none has an element [0]. *)
Definition Object_prototype : list string :=
  ["constructor"; "__defineGetter__"; "__defineSetter__"; "hasOwnProperty";
   "__lookupGetter__"; "__lookupSetter__"; "isPrototypeOf";
   "propertyIsEnumerable"; "toString"; "valueOf"; "__proto__";
   "toLocaleString"].

Definition inherited (key : string) : bool :=
  existsb (String.eqb key) Object_prototype.

(** *** An engine for the examples

    The examples below are run on this engine.  Its [trim] and
    [toLowerCase] are those of ECMAScript on strings of ASCII characters,
    which the strings of the examples are; its sort is a stable insertion
    sort, which reads a NaN of the comparator as [+0], as [SortCompare]
    does. *)

Definition ascii_white_space (c : ascii) : bool :=
  let n := nat_of_ascii c in
  ((9 <=? n)%nat && (n <=? 13)%nat) || (n =? 32)%nat.

Fixpoint ascii_trimStart (s : string) : string :=
  match s with
  | EmptyString => EmptyString
  | String c rest => if ascii_white_space c then ascii_trimStart rest else s
  end.

(** The trailing white space is dropped: a character is kept when it is
    not white space or when something is kept after it. *)
Fixpoint ascii_trimEnd (s : string) : string :=
  match s with
  | EmptyString => EmptyString
  | String c rest =>
      match ascii_trimEnd rest with
      | EmptyString => if ascii_white_space c then EmptyString else String c EmptyString
      | kept => String c kept
      end
  end.

Definition ascii_trim (s : string) : string := ascii_trimEnd (ascii_trimStart s).

Definition ascii_lower (c : ascii) : ascii :=
  let n := nat_of_ascii c in
  if ((65 <=? n)%nat && (n <=? 90)%nat)%bool then ascii_of_nat (n + 32) else c.

Fixpoint ascii_toLowerCase (s : string) : string :=
  match s with
  | EmptyString => EmptyString
  | String c rest => String (ascii_lower c) (ascii_toLowerCase rest)
  end.

Section Sort.
Context {A : Type} (compareFn : A → A → Z).

(** An element is placed before the first element it does not compare
    greater than. *)
Fixpoint sort_insert (x : A) (sorted : list A) : list A :=
  match sorted with
  | [] => [x]
  | y :: rest =>
      if (compareFn x y <=? 0)%Z then x :: sorted else y :: sort_insert x rest
  end.

Definition insertion_sort (l : list A) : list A := foldr sort_insert [] l.

End Sort.

Definition ascii_engine : Engine :=
  {| trim := ascii_trim;
     toLowerCase := ascii_toLowerCase;
     Array_sort := λ A compareFn, insertion_sort (λ a b, default 0 (compareFn a b)) |}.

End Js.

(** ** The history page: [HistoryPage] of src/unnamed/part_004 *)

Module History.

(** [interface HistoryItem] *)
Record HistoryItem := mkHistoryItem {
  question : string;
  response : string;
  timestamp : string;
  conversation_id : string;
  file_id : string
}.

(** An element of [conversationsData] (typed [any] in the source): the
    two fields the page reads. *)
Record ConversationData := mkConversationData {
  data_conversation_id : string;
  data_started_at : string
}.

(** What reading a key of [conversationsMap] can give besides
    [undefined], and so what [messages] of a conversation can hold: an
    array of records, or a member that the object inherits from
    [Object.prototype]. *)
Inductive Messages :=
  | Items (items : list HistoryItem)
  | Member (name : string).

(** [interface Conversation] *)
Record Conversation := mkConversation {
  c_conversation_id : string;
  c_started_at : string;
  messages : Messages;
  expanded : bool
}.

(** [conversationsMap[key]].  The object is created by [{}]: its own
    properties are the map from conversation id to array that
    [forEach] builds, and behind them stand the members of
    [Object.prototype].  [None] is [undefined]. *)
Definition read (conversationsMap : gmap string (list HistoryItem)) (key : string)
    : option Messages :=
  match conversationsMap !! key with
  | Some items => Some (Items items)
  | None => if Js.inherited key then Some (Member key) else None
  end.

(** One turn of [historyData.forEach] (lines 51-54).  [undefined] is
    falsy, an array and an inherited member are truthy; [push] on an
    inherited member is a call of [undefined], which throws a
    [TypeError]: [None].  (After the first statement the key reads
    something, so the last case does not occur.) *)
Definition forEach_body (conversationsMap : gmap string (list HistoryItem))
    (item : HistoryItem) : option (gmap string (list HistoryItem)) :=
  let initialised :=
    match read conversationsMap (conversation_id item) with
    | None => <[conversation_id item := []]> conversationsMap
    | Some _ => conversationsMap
    end in
  match read initialised (conversation_id item) with
  | Some (Items items) =>
      Some (<[conversation_id item := items ++ [item]]> initialised)
  | Some (Member _) => None
  | None => None
  end.

(** [forEach_body] on a record whose id does not name an inherited
    member (see [forEach_body_ordinary]): the record is appended to the
    array of its id. *)
Definition add_item (conversationsMap : gmap string (list HistoryItem))
    (item : HistoryItem) : gmap string (list HistoryItem) :=
  <[conversation_id item :=
      default [] (conversationsMap !! conversation_id item) ++ [item]]> conversationsMap.

(** No own property of the map has the name of an inherited member. *)
Definition own_ordinary (conversationsMap : gmap string (list HistoryItem)) : Prop :=
  ∀ key, Js.inherited key = true → conversationsMap !! key = None.

(** [historyData.forEach]: a throw ends it. *)
Definition group_by_conversation (historyData : list HistoryItem)
    : option (gmap string (list HistoryItem)) :=
  foldl (λ acc item, acc ≫= λ conversationsMap, forEach_body conversationsMap item)
    (Some ∅) historyData.

(** [conversationsData.map (conv => ...)] (lines 58-63):
    [messages: conversationsMap[conv.conversation_id] || []]. *)
Definition with_messages (conversationsMap : gmap string (list HistoryItem))
    (conv : ConversationData) : Conversation :=
  {| c_conversation_id := data_conversation_id conv;
     c_started_at := data_started_at conv;
     messages := default (Items []) (read conversationsMap (data_conversation_id conv));
     expanded := false |}.

Section Page.
Context {engine : Js.Engine}.
(** [new Date (s).getTime ()]: the milliseconds of a date string, NaN
    ([None]) for a string that is not a date. *)
Variable getTime : string → Js.Number.

(** The comparator of the source (line 66):
    [new Date(b.started_at).getTime() - new Date(a.started_at).getTime()],
    NaN when one of the two is. *)
Definition by_most_recent (a b : Conversation) : Js.Number :=
  match getTime (c_started_at b), getTime (c_started_at a) with
  | Some tb, Some ta => Some (tb - ta)
  | _, _ => None
  end.

(** The body of the [try] of [fetchConversations] after the two awaited
    calls: from the two fetched arrays to the array given to
    [setConversations], or a throw ([None]). *)
Definition reconstruct (conversationsData : list ConversationData)
    (historyData : list HistoryItem) : option (list Conversation) :=
  match group_by_conversation historyData with
  | Some conversationsMap =>
      let conversationsWithMessages :=
        map (with_messages conversationsMap) conversationsData in
      Some (Js.Array_sort by_most_recent conversationsWithMessages)
  | None => None
  end.

End Page.

(** The state of [HistoryPage] and the toasts it has shown. *)
Record State := mkState {
  conversations : list Conversation;
  isLoading : bool;
  searchQuery : string;
  toasts : list (string * string)
}.

(** What the two awaited service calls settle with: [getUserConversations]
    and, when that one is fulfilled, [getUserHistory].  Both throw on a
    response that is not ok. *)
Inductive Fetched :=
  | Both (conversationsData : list ConversationData) (historyData : list HistoryItem)
  | ConversationsFailed
  | HistoryFailed (conversationsData : list ConversationData).

(** [fetchConversations] up to its first [await]:
    [if (!user?.user_id) return; setIsLoading(true)].  The result tells
    whether the requests were issued. *)
Definition fetchConversations_begin (user_id : option string) (s : State)
    : State * bool :=
  match user_id with
  | Some uid =>
      if Js.truthy uid
      then ({| conversations := conversations s; isLoading := true;
               searchQuery := searchQuery s; toasts := toasts s |}, true)
      else (s, false)
  | None => (s, false)
  end.

(** The [catch] and the [finally] of [fetchConversations]. *)
Definition fetchConversations_caught (s : State) : State :=
  {| conversations := conversations s;
     isLoading := false;
     searchQuery := searchQuery s;
     toasts := toasts s ++ [("Failed to load history", "error")] |}.

(** [fetchConversations] from the awaited calls on: the [try] body, the
    [catch], which a rejected call and a throw of the body both reach,
    and the [finally]. *)
Definition fetchConversations_settled {engine : Js.Engine}
    (getTime : string → Js.Number) (r : Fetched) (s : State) : State :=
  match r with
  | Both conversationsData historyData =>
      match reconstruct getTime conversationsData historyData with
      | Some conversationsWithMessages =>
          {| conversations := conversationsWithMessages;
             isLoading := false;
             searchQuery := searchQuery s;
             toasts := toasts s |}
      | None => fetchConversations_caught s
      end
  | ConversationsFailed | HistoryFailed _ => fetchConversations_caught s
  end.

(** The conversation the specification describes for a header: the
    header's id and start, with the records of [historyData] that carry
    its id, in the order of [historyData].  [reconstruct] is compared
    with it below. *)
Definition grouped (historyData : list HistoryItem) (conv : ConversationData)
    : Conversation :=
  {| c_conversation_id := data_conversation_id conv;
     c_started_at := data_started_at conv;
     messages :=
       Items (filter (λ i, conversation_id i = data_conversation_id conv) historyData);
     expanded := false |}.

(** The record is one of the messages of the conversation. *)
Definition holds (c : Conversation) (item : HistoryItem) : Prop :=
  match messages c with
  | Items items => item ∈ items
  | Member _ => False
  end.

(** The time value of a conversation whose start is a date. *)
Definition started (getTime : string → Js.Number) (c : Conversation) : Z :=
  default 0 (getTime (c_started_at c)).

(** The time values of the two timestamps used in the examples; the
    other strings of the examples are not read as dates. *)
Definition example_getTime (s : string) : Js.Number :=
  if String.eqb s "2024-01-01T00:00:00Z" then Some 1704067200000
  else if String.eqb s "2024-01-02T00:00:00Z" then Some 1704153600000
  else None.

(** A record of a conversation [c9] that no header names. *)
Definition orphan : HistoryItem :=
  mkHistoryItem "lost?" "yes" "2024-01-03T00:00:00Z" "c9" "f".

Definition example_headers : list ConversationData :=
  [mkConversationData "c1" "2024-01-01T00:00:00Z";
   mkConversationData "c2" "2024-01-02T00:00:00Z"].

Definition example_records : list HistoryItem :=
  [mkHistoryItem "q1" "a1" "2024-01-01T00:00:05Z" "c1" "f";
   orphan;
   mkHistoryItem "q2" "a2" "2024-01-02T00:00:05Z" "c2" "f"].

Definition three_records : list HistoryItem :=
  [mkHistoryItem "q1" "a1" "2024-01-01T00:00:05Z" "c1" "f";
   mkHistoryItem "q2" "a2" "2024-01-02T00:00:05Z" "c2" "f";
   mkHistoryItem "q3" "a3" "2024-01-02T00:00:09Z" "c2" "f"].

(** The example of the specification with [constructor] as the id of
    its second conversation, and a record of a conversation [toString]
    that no header names. *)
Definition constructor_headers : list ConversationData :=
  [mkConversationData "c1" "2024-01-01T00:00:00Z";
   mkConversationData "constructor" "2024-01-02T00:00:00Z"].

Definition constructor_records : list HistoryItem :=
  [mkHistoryItem "q1" "a1" "2024-01-01T00:00:05Z" "c1" "f";
   mkHistoryItem "q2" "a2" "2024-01-02T00:00:05Z" "constructor" "f";
   mkHistoryItem "q3" "a3" "2024-01-02T00:00:09Z" "constructor" "f"].

Definition toString_orphan : HistoryItem :=
  mkHistoryItem "lost?" "yes" "2024-01-03T00:00:00Z" "toString" "f".

(** *** The rest of the history page *)

Definition setConversations (f : list Conversation → list Conversation) (s : State)
    : State :=
  mkState (f (conversations s)) (isLoading s) (searchQuery s) (toasts s).


(** [toggleConversation] (lines 76-82). *)
Definition toggled (conversationId : string) (conv : Conversation) : Conversation :=
  if decide (c_conversation_id conv = conversationId)
  then {| c_conversation_id := c_conversation_id conv;
          c_started_at := c_started_at conv;
          messages := messages conv;
          expanded := negb (expanded conv) |}
  else conv.

Definition toggleConversation (conversationId : string) (s : State) : State :=
  setConversations (λ prevConversations, map (toggled conversationId) prevConversations) s.

Section Search.
Context {engine : Js.Engine}.

(** The predicate of [conv.messages.some] (lines 87-89). *)
Definition message_matches (searchQuery : string) (msg : HistoryItem) : bool :=
  Js.includes (Js.toLowerCase (question msg)) (Js.toLowerCase searchQuery)
  || Js.includes (Js.toLowerCase (response msg)) (Js.toLowerCase searchQuery).

(** [conv.messages.some (...)]: an inherited member has no [some], and
    the call throws. *)
Definition some_matches (searchQuery : string) (conv : Conversation) : option bool :=
  match messages conv with
  | Items items => Some (existsb (message_matches searchQuery) items)
  | Member _ => None
  end.

(** [filteredConversations] (lines 84-92), computed by each render;
    [None] when the render throws. *)
Definition filteredConversations (s : State) : option (list Conversation) :=
  if Js.truthy (searchQuery s)
  then Js.Array_filter (some_matches (searchQuery s)) (conversations s)
  else Some (conversations s).

(** The text [text] contains the query, both in lower case. *)
Definition contains_ignoring_case (text searchQuery : string) : Prop :=
  ∃ a b, Js.toLowerCase text
         = String.append a (String.append (Js.toLowerCase searchQuery) b).

End Search.

(** The target of the link of an expanded conversation (line 153):
    [`/chat/${conversation.messages[0]?.file_id}?conversationId=${conversation.conversation_id}`].
    An absent first message gives [undefined], which the template prints
    as the word; so does an inherited member, which has no element [0]. *)
Definition continue_link (conversation : Conversation) : string :=
  String.append "/chat/"
    (String.append
       (match messages conversation with
        | Items (first :: _) => file_id first
        | Items [] | Member _ => "undefined"
        end)
       (String.append "?conversationId=" (c_conversation_id conversation))).

End History.

(** ** The file-bound chat page: [ChatPage] of src/unnamed/part_001 *)

Module RagChat.

Inductive Role := user | assistant.

(** A [Date] object: [new Date ()] at a reading of the clock, or
    [new Date (s)] of a timestamp string. *)
Inductive Date :=
  | DateAt (ms : Z)
  | DateOf (s : string).

(** The message ids the page builds, by the template that builds them:
    [Date.now().toString()], [`response-${Date.now()}`],
    [`user-${Date.now()}-${Math.random()}`],
    [`assistant-${Date.now()}-${Math.random()}`], ["welcome"] and
    ["welcome-back"]. *)
Inductive Id :=
  | IdNow (ms : Z)
  | IdResponse (ms : Z)
  | IdUser (ms : Z) (draw : Z)
  | IdAssistant (ms : Z) (draw : Z)
  | IdWelcome
  | IdWelcomeBack.

(** [interface Message] *)
Record Message := mkMessage {
  id : Id;
  role : Role;
  content : string;
  timestamp : Date
}.

(** [interface FileItem] *)
Record FileItem := mkFileItem {
  file_id : string;
  filename : string
}.

(** The argument of [sendChatMessage] ([interface ChatRequest]). *)
Record ChatRequest := mkChatRequest {
  req_question : string;
  req_file_id : string;
  req_conversation_id : string;
  req_embedding_provider : string
}.

(** The fields read from the body of a chat response. *)
Record ChatResponse := mkChatResponse {
  res_response : string;
  res_embedding_provider : option string
}.

(** An element of the array [getConversationMessages] resolves with. *)
Record HistoryRecord := mkHistoryRecord {
  item_question : string;
  item_response : string;
  item_timestamp : string
}.

(** The [useState] cells of the component, and the toasts shown. *)
Record State := mkState {
  files : list FileItem;
  selectedFile : option string;
  selectedFileName : string;
  messages : list Message;
  input : string;
  isLoading : bool;
  conversationId : option string;
  embeddingProvider : string;
  showSettings : bool;
  toasts : list (string * string)
}.

(** Truthiness of a [string | null]. *)
Definition truthy (v : option string) : bool :=
  match v with Some s => Js.truthy s | None => false end.

(** The readings of [Date.now ()] / [new Date ()] and the draws of
    [Math.random ()] during one synchronous run, in call order. *)
Record Env := mkEnv {
  now : nat → Z;
  random : nat → Z
}.

(** The state setters. *)
Definition setFiles (v : list FileItem) (s : State) : State :=
  mkState v (selectedFile s) (selectedFileName s) (messages s) (input s)
    (isLoading s) (conversationId s) (embeddingProvider s) (showSettings s) (toasts s).

Definition setSelectedFile (v : option string) (s : State) : State :=
  mkState (files s) v (selectedFileName s) (messages s) (input s)
    (isLoading s) (conversationId s) (embeddingProvider s) (showSettings s) (toasts s).

Definition setSelectedFileName (v : string) (s : State) : State :=
  mkState (files s) (selectedFile s) v (messages s) (input s)
    (isLoading s) (conversationId s) (embeddingProvider s) (showSettings s) (toasts s).

(** [setMessages] takes the updater [prev => ...]; [setMessages (v)] is
    [setMessages (λ _, v)]. *)
Definition setMessages (f : list Message → list Message) (s : State) : State :=
  mkState (files s) (selectedFile s) (selectedFileName s) (f (messages s)) (input s)
    (isLoading s) (conversationId s) (embeddingProvider s) (showSettings s) (toasts s).

Definition setInput (v : string) (s : State) : State :=
  mkState (files s) (selectedFile s) (selectedFileName s) (messages s) v
    (isLoading s) (conversationId s) (embeddingProvider s) (showSettings s) (toasts s).

Definition setIsLoading (v : bool) (s : State) : State :=
  mkState (files s) (selectedFile s) (selectedFileName s) (messages s) (input s)
    v (conversationId s) (embeddingProvider s) (showSettings s) (toasts s).

Definition setConversationId (v : option string) (s : State) : State :=
  mkState (files s) (selectedFile s) (selectedFileName s) (messages s) (input s)
    (isLoading s) v (embeddingProvider s) (showSettings s) (toasts s).

Definition setEmbeddingProvider (v : string) (s : State) : State :=
  mkState (files s) (selectedFile s) (selectedFileName s) (messages s) (input s)
    (isLoading s) (conversationId s) v (showSettings s) (toasts s).

Definition setShowSettings (v : bool) (s : State) : State :=
  mkState (files s) (selectedFile s) (selectedFileName s) (messages s) (input s)
    (isLoading s) (conversationId s) (embeddingProvider s) v (toasts s).

Definition showToast (message kind : string) (s : State) : State :=
  mkState (files s) (selectedFile s) (selectedFileName s) (messages s) (input s)
    (isLoading s) (conversationId s) (embeddingProvider s) (showSettings s)
    (toasts s ++ [(message, kind)]).

(** A request that has been issued and not settled yet, with what its
    continuation reads from the render that issued it. *)
Inductive Pending :=
  | SendChatMessage (data : ChatRequest)
  | StartConversation (fileName : string)
  | GetConversationMessages (convId : string) (fileName : string)
  | GetUserFiles (selected : option string).

(** What a request settles with: the value its service function resolves
    with, or a rejection (the service functions throw on a response that
    is not ok, and [fetch] rejects on a network error). *)
Inductive Reply :=
  | ChatReply (response : ChatResponse)
  | StartReply (conversation_id : string)
  | MessagesReply (history : list HistoryRecord)
  | FilesReply (filesData : list FileItem)
  | Failure.

Definition dquote : string := String (ascii_of_nat 34) EmptyString.

(** [`Hello! I'm ready to help you analyze the data in
    "${selectedFileName}". What would you like to know?`] *)
Definition welcome_text (fileName : string) : string :=
  String.append "Hello! I'm ready to help you analyze the data in "
    (String.append dquote (String.append fileName
      (String.append dquote ". What would you like to know?"))).

(** [`Welcome back to our conversation about "${selectedFileName}". How
    can I help you?`] *)
Definition welcome_back_text (fileName : string) : string :=
  String.append "Welcome back to our conversation about "
    (String.append dquote (String.append fileName
      (String.append dquote ". How can I help you?"))).

(** *** [handleFileChange] (lines 347-354)

    [navigate] moves to [/chat/newFileId]: the route parameter becomes
    the file just selected, and the new location has no [conversationId]
    query, so the effects on [fileId] and [location], which run after the
    render that follows, change nothing. *)
Definition handleFileChange (newFileId : string) (s : State) : State :=
  setMessages (λ _, []) (setConversationId None (setSelectedFile (Some newFileId) s)).

(** *** [handleSendMessage] (lines 356-396) *)

Section Page.
Context {engine : Js.Engine}.

(** Its guard: [!input.trim() || !selectedFile || !conversationId]. *)
Definition send_guard (s : State) : bool :=
  negb (Js.truthy (Js.trim (input s)))
  || negb (truthy (selectedFile s))
  || negb (truthy (conversationId s)).

Definition userMessage (env : Env) (s : State) : Message :=
  {| id := IdNow (now env 0); role := user; content := input s;
     timestamp := DateAt (now env 1) |}.

(** Up to the [await]: the state after the three setters and the request
    issued, if any. *)
Definition handleSendMessage (env : Env) (s : State) : State * list Pending :=
  if send_guard s then (s, [])
  else
    match selectedFile s, conversationId s with
    | Some file, Some conv =>
        (setIsLoading true
           (setInput "" (setMessages (λ prev, prev ++ [userMessage env s]) s)),
         [SendChatMessage
            {| req_question := input s; req_file_id := file;
               req_conversation_id := conv;
               req_embedding_provider := embeddingProvider s |}])
    | _, _ => (s, [])
    end.

Definition assistantMessage (env : Env) (response : ChatResponse) : Message :=
  {| id := IdResponse (now env 0); role := assistant;
     content := res_response response; timestamp := DateAt (now env 1) |}.

(** After the [await], when [sendChatMessage] resolved. *)
Definition send_fulfilled (env : Env) (response : ChatResponse) (s : State) : State :=
  let s1 := setMessages (λ prev, prev ++ [assistantMessage env response]) s in
  let s2 := if truthy (res_embedding_provider response)
            then setEmbeddingProvider (default "" (res_embedding_provider response)) s1
            else s1 in
  setIsLoading false s2.

(** After the [await], when [sendChatMessage] threw: [catch], [finally]. *)
Definition send_rejected (s : State) : State :=
  setIsLoading false (showToast "Failed to send message" "error" s).

(** *** [initializeConversation] (lines 326-345) *)

(** Up to the [await]: [if (!selectedFile) return], then the request. *)
Definition initializeConversation (s : State) : list Pending :=
  if truthy (selectedFile s) then [StartConversation (selectedFileName s)] else [].

Definition welcomeMessage (env : Env) (fileName : string) : Message :=
  {| id := IdWelcome; role := assistant; content := welcome_text fileName;
     timestamp := DateAt (now env 0) |}.

Definition start_fulfilled (env : Env) (fileName conversation_id : string)
    (s : State) : State :=
  setMessages (λ _, [welcomeMessage env fileName])
    (setConversationId (Some conversation_id) s).

Definition start_rejected (s : State) : State :=
  showToast "Failed to start conversation" "error" s.

(** *** [loadExistingConversation] (lines 278-324) *)

(** Up to the [await]: [if (!selectedFile) return; setIsLoading(true)]. *)
Definition loadExistingConversation (convId : string) (s : State)
    : State * list Pending :=
  if truthy (selectedFile s)
  then (setIsLoading true s, [GetConversationMessages convId (selectedFileName s)])
  else (s, []).

(** [history.forEach]: the two pushes of each item, the [k]-th item
    taking the clock readings and draws [2k] and [2k+1]. *)
Fixpoint forEach_push (env : Env) (k : nat) (history : list HistoryRecord)
    : list Message :=
  match history with
  | [] => []
  | item :: rest =>
      {| id := IdUser (now env (2 * k)) (random env (2 * k));
         role := user;
         content := item_question item;
         timestamp := DateOf (item_timestamp item) |}
      :: {| id := IdAssistant (now env (2 * k + 1)) (random env (2 * k + 1));
            role := assistant;
            content := item_response item;
            timestamp := DateOf (item_timestamp item) |}
      :: forEach_push env (S k) rest
  end.

Definition welcomeBackMessage (env : Env) (n : nat) (fileName : string) : Message :=
  {| id := IdWelcomeBack; role := assistant;
     content := welcome_back_text fileName;
     timestamp := DateAt (now env n) |}.

(** After the [await], when [getConversationMessages] resolved. *)
Definition load_fulfilled (env : Env) (fileName : string)
    (history : list HistoryRecord) (s : State) : State :=
  let loadedMessages := forEach_push env 0 history in
  let s1 := setMessages (λ _, loadedMessages) s in
  let s2 := if (length loadedMessages =? 0)%nat
            then setMessages
                   (λ _, [welcomeBackMessage env (2 * length history) fileName]) s1
            else s1 in
  setIsLoading false s2.

(** After the [await], when it threw: the toast, the fall back to
    [initializeConversation ()] of the same render (whose [selectedFile]
    passed the guard of [loadExistingConversation], so the request is
    issued), and the [finally]. *)
Definition load_rejected (fileName : string) (s : State) : State * list Pending :=
  (setIsLoading false (showToast "Failed to load conversation history" "error" s),
   [StartConversation fileName]).

(** *** [fetchFiles] (lines 265-276), after its [await] *)
Definition files_fulfilled (selected : option string) (filesData : list FileItem)
    (s : State) : State :=
  let s1 := setFiles filesData s in
  match filesData with
  | first :: _ =>
      if truthy selected then s1 else setSelectedFile (Some (file_id first)) s1
  | [] => s1
  end.

Definition files_rejected (s : State) : State :=
  showToast "Failed to load files" "error" s.

(** *** [handleEmbeddingProviderChange] (lines 409-413) *)
Definition handleEmbeddingProviderChange (provider : string) (s : State) : State :=
  setShowSettings false
    (showToast (String.append "Embedding provider changed to " provider) "info"
       (setEmbeddingProvider provider s)).

(** *** The effect on [selectedFile, files, conversationId] (lines 248-259)

    It runs after a render in which one of the three changed, and calls
    [initializeConversation] of that render. *)
Definition selection_effect (s : State) : State * list Pending :=
  match selectedFile s with
  | Some sel =>
      if Js.truthy sel then
        match List.find (λ f, String.eqb (file_id f) sel) (files s) with
        | Some file =>
            (setSelectedFileName (filename file) s,
             if truthy (conversationId s) then [] else initializeConversation s)
        | None => (s, [])
        end
      else (s, [])
  | None => (s, [])
  end.

Definition same (a b : option string) : bool := bool_decide (a = b).

(** [files_changed] tells that [setFiles] was called: the array it was
    given is a new object. *)
Definition commit (files_changed : bool) (before after : State)
    : State * list Pending :=
  if files_changed
     || negb (same (selectedFile before) (selectedFile after))
     || negb (same (conversationId before) (conversationId after))
  then selection_effect after
  else (after, []).

(** *** The effect on [location] (lines 229-236)

    A location whose query carries [conversationId]:
    [setConversationId (convId); loadExistingConversation (convId)]. *)
Definition location_effect (convId : string) (s : State) : State * list Pending :=
  if Js.truthy convId then
    let (s1, issued) := loadExistingConversation convId s in
    (setConversationId (Some convId) s1, issued)
  else (s, []).

(** *** The effect on [fileId] (lines 242-246)

    It runs after a render in which the route parameter changed:
    [if (fileId && fileId !== selectedFile) setSelectedFile (fileId)],
    where [selectedFile] is the one of that render, [rendered]. *)
Definition route_effect (fileId : string) (rendered s : State) : State :=
  if Js.truthy fileId && negb (same (Some fileId) (selectedFile rendered))
  then setSelectedFile (Some fileId) s
  else s.

(** *** The controls (lines 532-551) *)

(** [disabled] of the textarea and of the send button. *)
Definition textarea_disabled (s : State) : bool :=
  isLoading s || negb (truthy (selectedFile s)).

Definition button_disabled (s : State) : bool :=
  isLoading s || negb (Js.truthy (Js.trim (input s))) || negb (truthy (selectedFile s)).

(** *** The page as a transition system *)

Record World := mkWorld {
  state : State;
  pending : list Pending
}.

Inductive Event :=
  | FileChange (newFileId : string)       (* the file select's onChange *)
  | InputChange (value : string)          (* the textarea's onChange *)
  | ClickSend                             (* the button's onClick *)
  | PressEnter                            (* Enter without Shift in the textarea *)
  | ProviderChange (provider : string)    (* a button of the settings menu *)
  | Location (convId : string)            (* a location with a conversationId query *)
  | Route (fileId : string) (convId : option string)
                                          (* a route to /chat/fileId, with that query or none *)
  | Settle (k : nat) (reply : Reply).     (* the k-th pending request settles *)

(** The continuation of a pending request on a reply; a reply of the
    wrong shape for the request is not a transition. *)
Definition settle (env : Env) (p : Pending) (reply : Reply) (s : State)
    : option (bool * State * list Pending) :=
  match p, reply with
  | SendChatMessage _, ChatReply response =>
      Some (false, send_fulfilled env response s, [])
  | SendChatMessage _, Failure => Some (false, send_rejected s, [])
  | StartConversation fileName, StartReply conversation_id =>
      Some (false, start_fulfilled env fileName conversation_id s, [])
  | StartConversation _, Failure => Some (false, start_rejected s, [])
  | GetConversationMessages _ fileName, MessagesReply history =>
      Some (false, load_fulfilled env fileName history s, [])
  | GetConversationMessages _ fileName, Failure =>
      let (s', issued) := load_rejected fileName s in Some (false, s', issued)
  | GetUserFiles selected, FilesReply filesData =>
      Some (true, files_fulfilled selected filesData s, [])
  | GetUserFiles _, Failure => Some (false, files_rejected s, [])
  | _, _ => None
  end.

(** One event: the handler, then the effect of the render that follows.
    An event on a disabled control, and a settlement that names no
    pending request, leave the world as it is.  A route change runs the
    effect on [location] and the effect on [fileId] after the same
    render, in the order of the source. *)
Definition step (env : Env) (e : Event) (w : World) : World :=
  let s := state w in
  let finish (files_changed : bool) (s' : State) (kept issued : list Pending) :=
    mkWorld (commit files_changed s s').1
      (kept ++ issued ++ (commit files_changed s s').2) in
  match e with
  | FileChange newFileId => finish false (handleFileChange newFileId s) (pending w) []
  | InputChange value =>
      if textarea_disabled s then w
      else finish false (setInput value s) (pending w) []
  | ClickSend =>
      if button_disabled s then w
      else let (s', issued) := handleSendMessage env s in
           finish false s' (pending w) issued
  | PressEnter =>
      if textarea_disabled s then w
      else let (s', issued) := handleSendMessage env s in
           finish false s' (pending w) issued
  | ProviderChange provider =>
      finish false (handleEmbeddingProviderChange provider s) (pending w) []
  | Location convId =>
      let (s', issued) := location_effect convId s in
      finish false s' (pending w) issued
  | Route fileId convId =>
      let (s', issued) :=
        match convId with
        | Some convId => location_effect convId s
        | None => (s, [])
        end in
      finish false (route_effect fileId s s') (pending w) issued
  | Settle k reply =>
      match pending w !! k with
      | Some p =>
          match settle env p reply s with
          | Some (files_changed, s', issued) =>
              finish files_changed s' (delete k (pending w)) issued
          | None => w
          end
      | None => w
      end
  end.

Fixpoint run (events : list (Env * Event)) (w : World) : World :=
  match events with
  | [] => w
  | (env, e) :: rest => run rest (step env e w)
  end.

(** An event that lands no answer of the backend and follows no deep
    link: a user action, a route change without a [conversationId]
    query, a failed request, or the list of files. *)
Definition quiet (e : Event) : Prop :=
  match e with
  | Settle _ (ChatReply _) | Settle _ (StartReply _) | Settle _ (MessagesReply _)
  | Location _ | Route _ (Some _) => False
  | _ => True
  end.

(** The same without the exclusion of chat and history answers: every
    event but the start of a conversation and a deep link. *)
Definition unresolved (e : Event) : Prop :=
  match e with
  | Settle _ (StartReply _) | Location _ | Route _ (Some _) => False
  | _ => True
  end.

(** No conversation yet. *)
Definition unbound_state (s : State) : Prop := conversationId s = None.

(** No conversation and nothing shown. *)
Definition cleared (s : State) : Prop := messages s = [] ∧ conversationId s = None.

(** What the transcript shows of a message: its role, content and time. *)
Definition shown (m : Message) : Role * string * Date :=
  (role m, content m, timestamp m).

(** The two transcript entries the specification gives a fetched record:
    the question as the user's, then the response as the assistant's,
    both at the record's timestamp. *)
Definition pair_of (item : HistoryRecord) : list (Role * string * Date) :=
  [(user, item_question item, DateOf (item_timestamp item));
   (assistant, item_response item, DateOf (item_timestamp item))].

(** *** Requests in flight *)

Definition is_send (p : Pending) : bool :=
  match p with SendChatMessage _ => true | _ => false end.

Definition is_load (p : Pending) : bool :=
  match p with GetConversationMessages _ _ => true | _ => false end.

(** The number of chat requests that have not settled. *)
Definition sends_in_flight (w : World) : nat :=
  length (List.filter is_send (pending w)).

(** An event that is not a location with a [conversationId] query. *)
Definition no_deep_link (e : Event) : Prop :=
  match e with Location _ | Route _ (Some _) => False | _ => True end.

(** No history load is pending, at most one chat request is in flight,
    and none is while the loading flag is lowered. *)
Definition single_flight (w : World) : Prop :=
  Forall (λ p, is_load p = false) (pending w)
  ∧ (sends_in_flight w ≤ 1)%nat
  ∧ (isLoading (state w) = false → sends_in_flight w = 0%nat).

End Page.

End RagChat.

(** ** The conversation-list chat page: [ChatPage] of Sidebar.tsx *)

Module NextChat.

Inductive Role := user | assistant.

(** The message ids of this page: [Date.now().toString()], and the same
    string with [1] or [2] appended ([Date.now().toString() + 1]). *)
Inductive Id :=
  | IdNow (ms : Z)
  | IdNowThen (ms : Z) (digit : Z).

(** [type Message]; the timestamp is [new Date ()] at a clock reading. *)
Record Message := mkMessage {
  id : Id;
  role : Role;
  content : string;
  timestamp : Z
}.

(** An element of the array [/api/conversations] answers with. *)
Record ConversationData := mkConversationData {
  conversation_id : string;
  started_at : string
}.

Record State := mkState {
  message : string;
  messages : list Message;
  isLoading : bool;
  conversations : list ConversationData;
  currentConversationId : option string
}.

(** What the page reads from [localStorage]: the token, and the [id] of
    the parsed user object. *)
Record LocalStorage := mkLocalStorage {
  token : option string;
  user_id : option string
}.

Definition truthy (v : option string) : bool :=
  match v with Some s => Js.truthy s | None => false end.

(** The readings of [Date.now ()] / [new Date ()] of one synchronous run. *)
Definition Clock := nat → Z.

Definition setMessage (v : string) (s : State) : State :=
  mkState v (messages s) (isLoading s) (conversations s) (currentConversationId s).

Definition setMessages (f : list Message → list Message) (s : State) : State :=
  mkState (message s) (f (messages s)) (isLoading s) (conversations s)
    (currentConversationId s).

Definition setIsLoading (v : bool) (s : State) : State :=
  mkState (message s) (messages s) v (conversations s) (currentConversationId s).

Definition setConversations (v : list ConversationData) (s : State) : State :=
  mkState (message s) (messages s) (isLoading s) v (currentConversationId s).

Definition setCurrentConversationId (v : option string) (s : State) : State :=
  mkState (message s) (messages s) (isLoading s) (conversations s) v.

(** The body of the POST to [/api/chat]. *)
Record ChatBody := mkChatBody {
  body_question : string;
  body_conversation_id : string
}.

(** A [fetch] that has not settled, with what the code after its [await]
    reads from the render that issued it: the [message] and the
    [currentConversationId] of that render. *)
Inductive Pending :=
  | SubmitStart (message : string) (current : option string)
  | SubmitChat (body : ChatBody) (current : option string)
  | FetchConversations (current : option string)
  | NewConversation (current : option string).

(** How a [fetch] settles: a response that is ok, with the fields read
    from its JSON body; a response that is not ok; or a rejection. *)
Inductive Http (A : Type) :=
  | Ok (data : A)
  | NotOk
  | NetworkError.
Arguments Ok {A} data.
Arguments NotOk {A}.
Arguments NetworkError {A}.

Definition apology : string := "Sorry, I encountered an error. Please try again.".

Definition userMessage (clock : Clock) (s : State) : Message :=
  {| id := IdNow (clock 0%nat); role := user; content := message s;
     timestamp := clock 1%nat |}.

Definition botMessage (clock : Clock) (response : string) : Message :=
  {| id := IdNowThen (clock 0%nat) 1; role := assistant; content := response;
     timestamp := clock 1%nat |}.

Definition errorMessage (clock : Clock) (k : nat) : Message :=
  {| id := IdNowThen (clock k) 2; role := assistant; content := apology;
     timestamp := clock (S k) |}.

(** *** [fetchConversations] (lines 107-137)

    Up to the [await].  The early [return] is inside the [try], so the
    [finally] runs on it. *)
Definition fetchConversations (ls : LocalStorage) (current : option string)
    (s : State) : State * list Pending :=
  if negb (truthy (token ls)) || negb (truthy (user_id ls))
  then (setIsLoading false s, [])
  else (setIsLoading true s, [FetchConversations current]).

Definition conversations_settled (current : option string)
    (reply : Http (list ConversationData)) (s : State) : State :=
  match reply with
  | Ok data =>
      let s1 := setConversations data s in
      let s2 := match data with
                | first :: _ =>
                    if truthy current then s1
                    else setCurrentConversationId (Some (conversation_id first)) s1
                | [] => s1
                end in
      setIsLoading false s2
  | NotOk | NetworkError => setIsLoading false s
  end.

(** *** [startNewConversation] (lines 139-166) *)
Definition startNewConversation (ls : LocalStorage) (s : State)
    : State * list Pending :=
  if negb (truthy (token ls)) then (setIsLoading false s, [])
  else (setIsLoading true s, [NewConversation (currentConversationId s)]).

Definition new_conversation_settled (ls : LocalStorage) (current : option string)
    (reply : Http string) (s : State) : State * list Pending :=
  match reply with
  | Ok id' =>
      let s1 := setMessages (λ _, []) (setCurrentConversationId (Some id') s) in
      let (s2, issued) := fetchConversations ls current s1 in
      (setIsLoading false s2, issued)
  | NotOk | NetworkError => (setIsLoading false s, [])
  end.

(** *** [handleSubmit] (lines 168-255) *)

Section Page.
Context {engine : Js.Engine}.

(** Its guard: [!message.trim() || isLoading]. *)
Definition submit_guard (s : State) : bool :=
  negb (Js.truthy (Js.trim (message s))) || isLoading s.

(** The [catch] and the [finally]; [k] is the number of clock readings
    the run made before. *)
Definition submit_failed (clock : Clock) (k : nat) (s : State) : State :=
  setIsLoading false (setMessages (λ prev, prev ++ [errorMessage clock k]) s).

(** Up to the first [await]. *)
Definition handleSubmit (clock : Clock) (ls : LocalStorage) (s : State)
    : State * list Pending :=
  if submit_guard s then (s, [])
  else
    let s1 := setMessage ""
                (setIsLoading true
                   (setMessages (λ prev, prev ++ [userMessage clock s]) s)) in
    if negb (truthy (token ls)) then (submit_failed clock 2 s1, [])
    else
      match currentConversationId s with
      | Some conv =>
          if Js.truthy conv
          then (s1, [SubmitChat {| body_question := message s;
                                   body_conversation_id := conv |}
                       (currentConversationId s)])
          else (s1, [SubmitStart (message s) (currentConversationId s)])
      | None => (s1, [SubmitStart (message s) (currentConversationId s)])
      end.

(** After the [await] of [/api/start-conversation]: the id of the new
    conversation is stored and used in the body of the chat request. *)
Definition submit_start_settled (clock : Clock) (msg : string)
    (current : option string) (reply : Http string) (s : State)
    : State * list Pending :=
  match reply with
  | Ok conversationId =>
      (setCurrentConversationId (Some conversationId) s,
       [SubmitChat {| body_question := msg;
                      body_conversation_id := conversationId |} current])
  | NotOk | NetworkError => (submit_failed clock 0 s, [])
  end.

(** After the [await] of [/api/chat]. *)
Definition submit_chat_settled (clock : Clock) (ls : LocalStorage)
    (current : option string) (reply : Http string) (s : State)
    : State * list Pending :=
  match reply with
  | Ok response =>
      let s1 := setMessages (λ prev, prev ++ [botMessage clock response]) s in
      let (s2, issued) :=
        if truthy current then (s1, []) else fetchConversations ls current s1 in
      (setIsLoading false s2, issued)
  | NotOk | NetworkError => (submit_failed clock 0 s, [])
  end.

(** The state a submit that passes the guard leaves before any request
    settles: the user's message appended, the flag raised, the input
    emptied. *)
Definition submitted (clock : Clock) (s : State) : State :=
  setMessage "" (setIsLoading true (setMessages (λ prev, prev ++ [userMessage clock s]) s)).

(** *** [handleConversationChange] (lines 257-262) *)
Definition handleConversationChange (value : string) (s : State) : State :=
  setMessages (λ _, []) (setCurrentConversationId (Some value) s).

(** *** Settlements *)

(** The fields read from the JSON body of an ok response: a string (the
    [conversation_id] of a start, the [response] of a chat) or the array
    of conversations. *)
Inductive Reply :=
  | Answer (reply : Http string)
  | Listing (reply : Http (list ConversationData)).

(** A response that is not ok, or no response: the [try] block throws. *)
Definition failed {A : Type} (reply : Http A) : bool :=
  match reply with Ok _ => false | NotOk | NetworkError => true end.

(** The continuation of a pending [fetch] on its reply; a reply of the
    wrong shape for the request is not a transition. *)
Definition settle (clock : Clock) (ls : LocalStorage) (p : Pending) (r : Reply)
    (s : State) : option (State * list Pending) :=
  match p, r with
  | SubmitStart msg current, Answer reply =>
      Some (submit_start_settled clock msg current reply s)
  | SubmitChat _ current, Answer reply =>
      Some (submit_chat_settled clock ls current reply s)
  | NewConversation current, Answer reply =>
      Some (new_conversation_settled ls current reply s)
  | FetchConversations current, Listing reply =>
      Some (conversations_settled current reply s, [])
  | _, _ => None
  end.

End Page.

End NextChat.

(** ** The processing queue: [ProcessingQueue] of src/unnamed/part_001 *)

Module ProcessingQueue.

(** [interface Job] *)
Record Job := mkJob {
  id : string;
  original_filename : string;
  status : string;
  created_at : Z;
  message : string
}.

Record State := mkState {
  jobs : list Job;
  loading : bool;
  searchTerm : string;
  refreshing : bool
}.

(** The state of the first render (lines 22-25). *)
Definition initial : State := mkState [] true "" false.

(** The filter of [fetchJobs] (lines 33-35). *)
Definition queued (job : Job) : bool :=
  String.eqb (status job) "uploaded" || String.eqb (status job) "processing".

(** [fetchJobs] after [axios.get] settled: [Some allJobs] is the data of
    a fulfilled request, [None] a rejection (line 39 logs it); the
    [finally] lowers both flags. *)
Definition fetchJobs_settled (reply : option (list Job)) (s : State) : State :=
  match reply with
  | Some allJobs => mkState (List.filter queued allJobs) false (searchTerm s) false
  | None => mkState (jobs s) false (searchTerm s) false
  end.

(** [handleRefresh] (lines 57-60), up to the request of [fetchJobs]. *)
Definition handleRefresh (s : State) : State :=
  mkState (jobs s) (loading s) (searchTerm s) true.

Definition setSearchTerm (v : string) (s : State) : State :=
  mkState (jobs s) (loading s) v (refreshing s).

Section Page.
Context {engine : Js.Engine}.

(** [filteredJobs] (lines 62-64). *)
Definition filteredJobs (s : State) : list Job :=
  List.filter
    (λ job, Js.includes (Js.toLowerCase (original_filename job))
              (Js.toLowerCase (searchTerm s)))
    (jobs s).

(** [statusIcon] (lines 66-75). *)
Inductive Icon := Clock | Loader2 | FileSpreadsheet.

Definition statusIcon (status : string) : Icon :=
  if String.eqb status "uploaded" then Clock
  else if String.eqb status "processing" then Loader2
  else FileSpreadsheet.

(** What the card shows (lines 110-179): the spinner, the table of
    [filteredJobs], or the empty notice with its second line. *)
Inductive View :=
  | Spinner
  | Table (rows : list Job)
  | Empty (notice : string).

Definition view (s : State) : View :=
  if loading s then Spinner
  else match filteredJobs s with
       | [] => Empty (if Js.truthy (searchTerm s) then "No results match your search"
                      else "All files have been processed")
       | rows => Table rows
       end.

(** The events of the page: a request of [fetchJobs] (from the mount,
    the 5 second poll or a refresh) settles, the search box changes, the
    refresh button is clicked. *)
Inductive Event :=
  | Settled (reply : option (list Job))
  | Search (value : string)
  | Refresh.

(** An event that settles a request of [fetchJobs]. *)
Definition is_settlement (e : Event) : Prop :=
  match e with Settled _ => True | _ => False end.

Definition step (e : Event) (s : State) : State :=
  match e with
  | Settled reply => fetchJobs_settled reply s
  | Search value => setSearchTerm value s
  | Refresh => handleRefresh s
  end.

Definition run (events : list Event) (s : State) : State :=
  foldl (λ s e, step e s) s events.

End Page.

End ProcessingQueue.

(** ** The route handlers of the Next.js frontend

    [front/app/api/chat/route.ts], [start-conversation/route.ts],
    [conversations/[userId]/route.ts] and [auth/login/route.ts]: the
    endpoints that [handleSubmit], [startNewConversation] and
    [fetchConversations] of the conversation-list page call.  Each relays
    one request to the backend. *)

Module ApiRoute.

Section Relay.
(** The parsed JSON body of a backend response (an object), and its
    [error] member. *)
Variable Body : Type.
Variable error_of : Body → option string.

(** What [NextResponse.json] is given: the backend's data, or an
    [{ error }] object. *)
Inductive Payload :=
  | Data (data : Body)
  | Error (message : string).

Record Response := mkResponse {
  status : Z;
  payload : Payload
}.

(** How the [fetch] of the backend and the [response.json ()] that
    follows end: a response with its status and parsed body, or an
    exception (no connection, a body that is not JSON). *)
Inductive Upstream :=
  | Replied (status : Z) (data : Body)
  | Threw.

(** A request made to the backend: the path after the API root, the
    [Authorization] header and the JSON body, if any. *)
Record Forwarded (B : Type) := mkForwarded {
  path : string;
  authorization : option string;
  body : option B
}.
Arguments mkForwarded {B} path authorization body.

(** [response.ok]: the status is in the range 200-299. *)
Definition ok (status : Z) : bool := (200 <=? status) && (status <=? 299).

(** [data.error || fallback] *)
Definition error_or (data : Body) (fallback : string) : string :=
  match error_of data with
  | Some e => if Js.truthy e then e else fallback
  | None => fallback
  end.

Definition unauthorized : Response :=
  mkResponse 401 (Error "Authorization token is missing").

Definition internal_error : Response :=
  mkResponse 500 (Error "Internal server error").

(** From the backend's answer to the route's: the error with the
    backend's status, the data with status 200, or the [catch]. *)
Definition relay (fallback : string) (upstream : Upstream) : Response :=
  match upstream with
  | Replied st data =>
      if ok st then mkResponse 200 (Data data)
      else mkResponse st (Error (error_or data fallback))
  | Threw => internal_error
  end.

(** The part the four token routes share: the token test, the call, the
    relay. *)
Definition with_token {B : Type} (fallback path : string) (token : option string)
    (body : option B) (upstream : Upstream) : Response * list (Forwarded B) :=
  match token with
  | Some t =>
      if Js.truthy t
      then (relay fallback upstream, [mkForwarded path token body])
      else (unauthorized, [])
  | None => (unauthorized, [])
  end.

(** [POST /api/start-conversation] *)
Definition start_conversation_POST (token : option string) (upstream : Upstream)
    : Response * list (Forwarded unit) :=
  with_token "Failed to start conversation" "/start_conversation" token None upstream.

(** [GET /api/conversations/[userId]] *)
Definition conversations_GET (userId : string) (token : option string)
    (upstream : Upstream) : Response * list (Forwarded unit) :=
  with_token "Failed to fetch conversations"
    (String.append "/conversations/" userId) token None upstream.

(** [POST /api/chat]: the request body is parsed first ([None] when
    [request.json ()] throws); only [question] and [conversation_id] are
    passed on. *)
Record ChatJson := mkChatJson {
  question : option string;
  conversation_id : option string
}.

Definition chat_POST (request_json : option ChatJson) (token : option string)
    (upstream : Upstream) : Response * list (Forwarded ChatJson) :=
  match request_json with
  | Some json => with_token "Failed to process request" "/chat" token (Some json) upstream
  | None => (internal_error, [])
  end.

(** [POST /api/auth/login] *)
Record Credentials := mkCredentials {
  email : option string;
  password : option string
}.

Definition truthy (v : option string) : bool :=
  match v with Some s => Js.truthy s | None => false end.

Definition login_POST (request_json : option Credentials) (upstream : Upstream)
    : Response * list (Forwarded Credentials) :=
  match request_json with
  | Some json =>
      if negb (truthy (email json)) || negb (truthy (password json))
      then (mkResponse 400 (Error "Email and password required"), [])
      else
        (match upstream with
         | Replied st data =>
             if ok st then mkResponse 200 (Data data)
             else mkResponse st (Error (error_or data "Invalid credentials"))
         | Threw => internal_error
         end,
         [mkForwarded "/login" None (Some json)])
  | None => (internal_error, [])
  end.

End Relay.

Arguments mkForwarded {B} path authorization body.

End ApiRoute.

(** ** Concrete sessions used in the examples below *)

Module Examples.

(** The examples run on the engine for the examples. *)
#[local] Existing Instance Js.ascii_engine.

Definition env0 : RagChat.Env := RagChat.mkEnv (λ k, 1700000000000 + Z.of_nat k) (λ _, 0).

Definition clock0 : NextChat.Clock := λ k, 1700000000000 + Z.of_nat k.

Definition files0 : list RagChat.FileItem :=
  [RagChat.mkFileItem "fileA" "a.csv"; RagChat.mkFileItem "fileB" "b.csv"].

Definition welcome0 : RagChat.Message :=
  RagChat.welcomeMessage env0 "a.csv".

(** File A selected, conversation [conv-1] started, a question typed. *)
Definition ready : RagChat.State :=
  RagChat.mkState files0 (Some "fileA") "a.csv" [welcome0] "total revenue?"
    false (Some "conv-1") "local" false [].

(** The same before any conversation exists. *)
Definition unbound : RagChat.State :=
  RagChat.mkState files0 (Some "fileA") "a.csv" [] "total revenue?"
    false None "local" false [].

Definition answer : RagChat.ChatResponse :=
  RagChat.mkChatResponse "42" None.

Definition record1 : RagChat.HistoryRecord :=
  RagChat.mkHistoryRecord "total revenue?" "42" "2024-01-01T00:00:05Z".

Definition storage : NextChat.LocalStorage :=
  NextChat.mkLocalStorage (Some "token-1") (Some "user-1").

(** A question typed in the conversation-list page, no conversation yet. *)
Definition fresh : NextChat.State :=
  NextChat.mkState "where is my parcel?" [] false [] None.

(** A send under file A, a switch to file B while it is pending, then
    the answer of the send. *)
Definition stale_session : RagChat.World :=
  RagChat.run
    [(env0, RagChat.ClickSend);
     (env0, RagChat.FileChange "fileB");
     (env0, RagChat.Settle 0 (RagChat.ChatReply answer))]
    (RagChat.mkWorld ready []).

(** A send whose request fails. *)
Definition failed_session : RagChat.World :=
  RagChat.run
    [(env0, RagChat.ClickSend); (env0, RagChat.Settle 0 RagChat.Failure)]
    (RagChat.mkWorld ready []).

(** A deep link to conversation [conv-1] whose history is empty, and one
    whose history has one record. *)
Definition resumed_empty : RagChat.World :=
  RagChat.run
    [(env0, RagChat.Location "conv-1");
     (env0, RagChat.Settle 0 (RagChat.MessagesReply []))]
    (RagChat.mkWorld unbound []).

Definition resumed_one : RagChat.World :=
  RagChat.run
    [(env0, RagChat.Location "conv-1");
     (env0, RagChat.Settle 0 (RagChat.MessagesReply [record1]))]
    (RagChat.mkWorld unbound []).





(** A send that is answered. *)
Definition answered_session : RagChat.World :=
  RagChat.run
    [(env0, RagChat.ClickSend); (env0, RagChat.Settle 0 (RagChat.ChatReply answer))]
    (RagChat.mkWorld ready []).

End Examples.

(** * Properties *)

(** ** The engine for the examples *)

Section SortFacts.
Context {A : Type} (compareFn : A → A → Z) (key : A → Z).

Lemma sort_insert_perm x l : Js.sort_insert compareFn x l ≡ₚ x :: l.
Proof.
  induction l as [|y l IH]; simpl; [done|].
  destruct (compareFn x y <=? 0); [done|].
  rewrite IH. apply perm_swap.
Qed.

Lemma insertion_sort_perm l : Js.insertion_sort compareFn l ≡ₚ l.
Proof.
  induction l as [|x l IH]; simpl; [done|].
  by rewrite sort_insert_perm, IH.
Qed.

(** [x] is compared with the elements of [l] by decreasing key. *)
Lemma sort_insert_sorted x l :
  (∀ y, y ∈ l → compareFn x y = key y - key x) →
  StronglySorted (λ a b, key b ≤ key a) l →
  StronglySorted (λ a b, key b ≤ key a) (Js.sort_insert compareFn x l).
Proof.
  intros Hcmp Hsorted. induction Hsorted as [|y l Hl IH Hy]; simpl.
  - repeat constructor.
  - assert (Hxy := Hcmp y (list_elem_of_here y l)).
    destruct (Z.leb_spec (compareFn x y) 0) as [Hle|Hgt]; rewrite Hxy in *.
    + constructor; [by constructor|].
      constructor; [lia|].
      eapply Forall_impl; [exact Hy|]. simpl. intros z Hz. lia.
    + constructor.
      * apply IH. intros z Hz. apply Hcmp. by right.
      * rewrite (sort_insert_perm x l). constructor; [lia | exact Hy].
Qed.

Lemma insertion_sort_sorted l :
  (∀ a b, a ∈ l → b ∈ l → compareFn a b = key b - key a) →
  StronglySorted (λ a b, key b ≤ key a) (Js.insertion_sort compareFn l).
Proof.
  induction l as [|x l IH]; intros Hcmp; simpl; [constructor|].
  apply sort_insert_sorted.
  - intros y Hy. rewrite insertion_sort_perm in Hy.
    apply Hcmp; [left | by right].
  - apply IH. intros a b Ha Hb. apply Hcmp; by right.
Qed.

(** Stability: the elements of one key keep their order. *)
Lemma sort_insert_stable t x l :
  (∀ y, y ∈ l → compareFn x y = key y - key x) →
  filter (λ a, key a = t) (Js.sort_insert compareFn x l)
  = filter (λ a, key a = t) (x :: l).
Proof.
  induction l as [|y l IH]; intros Hcmp; simpl; [done|].
  assert (Hxy := Hcmp y (list_elem_of_here y l)).
  destruct (Z.leb_spec (compareFn x y) 0) as [Hle|Hgt]; [done|].
  rewrite Hxy in Hgt.
  rewrite (filter_cons _ y), IH, !filter_cons by (intros z Hz; apply Hcmp; by right).
  repeat case_decide; try done; lia.
Qed.

Lemma insertion_sort_stable t l :
  (∀ a b, a ∈ l → b ∈ l → compareFn a b = key b - key a) →
  filter (λ a, key a = t) (Js.insertion_sort compareFn l)
  = filter (λ a, key a = t) l.
Proof.
  induction l as [|x l IH]; intros Hcmp; simpl; [done|].
  rewrite sort_insert_stable, !filter_cons, IH; [done| |].
  - intros a b Ha Hb. apply Hcmp; by right.
  - intros y Hy. rewrite insertion_sort_perm in Hy.
    apply Hcmp; [left | by right].
Qed.

End SortFacts.

(** The engine for the examples has the properties the proofs use. *)
#[global] Instance ascii_conforms : Js.Conforms Js.ascii_engine.
Proof.
  split.
  - reflexivity.
  - by intros [|c s].
  - intros A compareFn l. apply insertion_sort_perm.
  - intros A compareFn key l Hcmp. apply insertion_sort_sorted.
    intros a b Ha Hb. by rewrite (Hcmp a b Ha Hb).
  - intros A compareFn key l t Hcmp. apply insertion_sort_stable.
    intros a b Ha Hb. by rewrite (Hcmp a b Ha Hb).
Qed.

(** ** The grouping *)

Section GroupFacts.
Import History.

Lemma foldl_thrown historyData :
  foldl (λ acc item, acc ≫= λ conversationsMap, forEach_body conversationsMap item)
    None historyData = None.
Proof. by induction historyData. Qed.

Lemma forEach_body_ordinary m item :
  Js.inherited (conversation_id item) = false →
  forEach_body m item = Some (add_item m item).
Proof.
  intros Hk. unfold forEach_body, add_item, read.
  destruct (m !! conversation_id item) as [items|] eqn:Hm.
  - by rewrite Hm.
  - rewrite Hk, lookup_insert_eq. simpl. by rewrite insert_insert_eq.
Qed.

Lemma forEach_body_inherited m item :
  Js.inherited (conversation_id item) = true →
  m !! conversation_id item = None →
  forEach_body m item = None.
Proof.
  intros Hk Hm. unfold forEach_body, read. rewrite Hm, Hk. by rewrite Hm.
Qed.

Lemma add_item_own_ordinary m item :
  Js.inherited (conversation_id item) = false →
  own_ordinary m → own_ordinary (add_item m item).
Proof.
  intros Hk Hm key Hkey. unfold add_item.
  rewrite lookup_insert_ne; [by apply Hm | congruence].
Qed.

(** The grouping throws exactly when a record carries the name of an
    inherited member; otherwise every record is appended to the array of
    its id. *)
Lemma group_from historyData m :
  own_ordinary m →
  foldl (λ acc item, acc ≫= λ conversationsMap, forEach_body conversationsMap item)
    (Some m) historyData
  = if forallb (λ i, negb (Js.inherited (conversation_id i))) historyData
    then Some (foldl add_item m historyData)
    else None.
Proof.
  revert m. induction historyData as [|item rest IH]; intros m Hm; simpl; [done|].
  destruct (Js.inherited (conversation_id item)) eqn:Hk; simpl.
  - rewrite forEach_body_inherited by auto. apply foldl_thrown.
  - rewrite forEach_body_ordinary by done. apply IH. by apply add_item_own_ordinary.
Qed.

Lemma group_by_conversation_eq historyData :
  group_by_conversation historyData
  = if forallb (λ i, negb (Js.inherited (conversation_id i))) historyData
    then Some (foldl add_item ∅ historyData)
    else None.
Proof. apply group_from. intros key _. apply lookup_empty. Qed.

Lemma forallb_ordinary historyData :
  forallb (λ i, negb (Js.inherited (conversation_id i))) historyData = true
  ↔ ∀ item, item ∈ historyData → Js.inherited (conversation_id item) = false.
Proof.
  rewrite forallb_forall. split; intros H item Hin.
  - apply negb_true_iff, H. by apply list_elem_of_In.
  - apply negb_true_iff, H. by apply list_elem_of_In.
Qed.

Lemma group_by_conversation_thrown historyData :
  group_by_conversation historyData = None
  ↔ ∃ item, item ∈ historyData ∧ Js.inherited (conversation_id item) = true.
Proof.
  rewrite group_by_conversation_eq.
  destruct (forallb _ historyData) eqn:Hall.
  - split; [done|]. intros (item & Hin & Hk).
    pose proof (proj1 (forallb_ordinary historyData) Hall item Hin) as Hk'.
    congruence.
  - split; [intros _|done].
    induction historyData as [|item rest IH]; [done|]. simpl in Hall.
    destruct (Js.inherited (conversation_id item)) eqn:Hk.
    + exists item. split; [left | done].
    + destruct (IH Hall) as (item' & Hin & Hk'). exists item'. split; [by right | done].
Qed.

Lemma add_item_lookup m item c :
  default [] (add_item m item !! c)
  = default [] (m !! c) ++ filter (λ i, conversation_id i = c) [item].
Proof.
  unfold add_item.
  rewrite filter_cons, filter_nil.
  case_decide as Hc.
  - subst c. by rewrite lookup_insert_eq.
  - rewrite lookup_insert_ne by done. by rewrite app_nil_r.
Qed.

Lemma foldl_add_item_lookup historyData m c :
  default [] (foldl add_item m historyData !! c)
  = default [] (m !! c) ++ filter (λ i, conversation_id i = c) historyData.
Proof.
  revert m. induction historyData as [|item rest IH]; intros m; simpl.
  - by rewrite app_nil_r.
  - rewrite IH, add_item_lookup, <- app_assoc. f_equal.
    rewrite !filter_cons, filter_nil. by case_decide.
Qed.

Lemma add_item_nonempty m item :
  (∀ c l, m !! c = Some l → l ≠ []) →
  ∀ c l, add_item m item !! c = Some l → l ≠ [].
Proof.
  intros Hm c l. unfold add_item.
  destruct (decide (conversation_id item = c)) as [<-|Hne].
  - rewrite lookup_insert_eq. intros [= <-]. by destruct (default [] _).
  - rewrite lookup_insert_ne by done. apply Hm.
Qed.

Lemma foldl_add_item_nonempty historyData m :
  (∀ c l, m !! c = Some l → l ≠ []) →
  ∀ c l, foldl add_item m historyData !! c = Some l → l ≠ [].
Proof.
  revert m. induction historyData as [|item rest IH]; intros m Hm; simpl; [done|].
  apply IH. by apply add_item_nonempty.
Qed.

(** The array of a conversation id is the sub-list of the records that
    carry it, in the order of [historyData]; an id that no record
    carries is no key. *)
Lemma grouping_lookup historyData c :
  foldl add_item ∅ historyData !! c
  = match filter (λ i, conversation_id i = c) historyData with
    | [] => None
    | group => Some group
    end.
Proof.
  assert (Hd := foldl_add_item_lookup historyData ∅ c).
  rewrite lookup_empty in Hd. simpl in Hd.
  assert (Hne : ∀ l, foldl add_item ∅ historyData !! c = Some l → l ≠ []).
  { apply (foldl_add_item_nonempty historyData ∅). intros c' l.
    by rewrite lookup_empty. }
  destruct (foldl add_item ∅ historyData !! c) as [l|] eqn:Hl; simpl in Hd.
  - rewrite <- Hd. specialize (Hne l eq_refl). by destruct l.
  - by rewrite <- Hd.
Qed.

Lemma filter_none {A} (P : A → Prop) `{∀ x, Decision (P x)} (l : list A) :
  (∀ x, x ∈ l → ¬ P x) → filter P l = [].
Proof.
  induction l as [|x l IH]; intros Hl; [done|].
  rewrite filter_cons. case_decide as HP.
  - exfalso. apply (Hl x); [left | done].
  - apply IH. intros y Hy. apply Hl. by right.
Qed.

Lemma filter_some {A} (P : A → Prop) `{∀ x, Decision (P x)} (l : list A) x :
  x ∈ l → P x → filter P l ≠ [].
Proof.
  intros Hin HP Hnil.
  assert (Hx : x ∈ filter P l) by (by apply list_elem_of_filter).
  rewrite Hnil in Hx. by apply elem_of_nil in Hx.
Qed.

(** What a header is given as its messages. *)
Lemma with_messages_spec historyData conv :
  with_messages (foldl add_item ∅ historyData) conv
  = {| c_conversation_id := data_conversation_id conv;
       c_started_at := data_started_at conv;
       messages :=
         match filter (λ i, conversation_id i = data_conversation_id conv)
                 historyData with
         | [] => if Js.inherited (data_conversation_id conv)
                 then Member (data_conversation_id conv)
                 else Items []
         | group => Items group
         end;
       expanded := false |}.
Proof.
  unfold with_messages, read. rewrite grouping_lookup. f_equal.
  destruct (filter _ historyData); [|done].
  by destruct (Js.inherited _).
Qed.

Lemma with_messages_grouped historyData conv :
  Js.inherited (data_conversation_id conv) = false →
  with_messages (foldl add_item ∅ historyData) conv = grouped historyData conv.
Proof.
  intros Hk. rewrite with_messages_spec, Hk. unfold grouped. f_equal.
  by destruct (filter _ historyData).
Qed.

Section Sorted.
Context {engine : Js.Engine} {conforms : Js.Conforms engine}.
Variable getTime : string → Js.Number.

(** What [reconstruct] returns when it returns. *)
Lemma reconstruct_returned conversationsData historyData out :
  reconstruct getTime conversationsData historyData = Some out →
  (∀ item, item ∈ historyData → Js.inherited (conversation_id item) = false)
  ∧ out = Js.Array_sort (by_most_recent getTime)
            (map (with_messages (foldl add_item ∅ historyData)) conversationsData)
  ∧ out ≡ₚ map (with_messages (foldl add_item ∅ historyData)) conversationsData
  ∧ length out = length conversationsData.
Proof.
  unfold reconstruct. rewrite group_by_conversation_eq.
  destruct (forallb _ historyData) eqn:Hall; [|done].
  intros [= <-]. split; [by apply forallb_ordinary|]. split; [done|].
  assert (Hperm := Js.Array_sort_perm _ (by_most_recent getTime)
                     (map (with_messages (foldl add_item ∅ historyData))
                        conversationsData)).
  split; [exact Hperm|]. by rewrite Hperm, length_map.
Qed.

Lemma reconstruct_returns conversationsData historyData :
  (∀ item, item ∈ historyData → Js.inherited (conversation_id item) = false) →
  reconstruct getTime conversationsData historyData
  = Some (Js.Array_sort (by_most_recent getTime)
            (map (with_messages (foldl add_item ∅ historyData)) conversationsData)).
Proof.
  intros Hall. unfold reconstruct. rewrite group_by_conversation_eq.
  by rewrite (proj2 (forallb_ordinary historyData) Hall).
Qed.

Lemma reconstruct_throws conversationsData historyData item :
  item ∈ historyData → Js.inherited (conversation_id item) = true →
  reconstruct getTime conversationsData historyData = None.
Proof.
  intros Hin Hk. unfold reconstruct.
  assert (Hg : group_by_conversation historyData = None)
    by (apply group_by_conversation_thrown; eauto).
  by rewrite Hg.
Qed.

(** When every start is a date, the comparator orders by decreasing
    time value. *)
Lemma by_most_recent_descending (l : list Conversation) :
  (∀ c, c ∈ l → is_Some (getTime (c_started_at c))) →
  Js.descending (by_most_recent getTime) (started getTime) l.
Proof.
  intros Hdates a b Ha Hb. unfold by_most_recent, started.
  destruct (Hdates a Ha) as [ta ->], (Hdates b Hb) as [tb ->]. done.
Qed.

End Sorted.

End GroupFacts.

(** ** The history reconstructor *)

Section HistoryClaims.
Import History.
Context {engine : Js.Engine}.
Variable getTime : string → Js.Number.

(** C4, where the code departs from it.  [conversationsMap] is an
    object created by [{}]; when a record carries a conversation id that
    is the name of a member every such object inherits ([constructor],
    [toString], ...), the grouping reads that member instead of
    [undefined], creates no array and calls [push] on the member, which
    throws.  [reconstruct] then returns no list at all, whatever the
    headers are: no conversation per header, no grouping and no order;
    so for the headers and records of the specification's example when
    the id of the second conversation is [constructor]. *)
Theorem C4_reconstruct_throws_on_inherited_id
    (conversationsData : list ConversationData) (historyData : list HistoryItem)
    (item : HistoryItem) :
  item ∈ historyData →
  Js.inherited (conversation_id item) = true →
  reconstruct getTime conversationsData historyData = None
  ∧ (∀ c1 t1 t2 r1 r2 r3,
       conversation_id r2 = "constructor" →
       reconstruct getTime
         [mkConversationData c1 t1; mkConversationData "constructor" t2] [r1; r2; r3]
       = None).
Proof.
  intros Hin Hk. split; [by apply (reconstruct_throws getTime _ _ item)|].
  intros c1 t1 t2 r1 r2 r3 H2.
  apply (reconstruct_throws getTime _ _ r2); [right; left|].
  by rewrite H2.
Qed.

(** C8, where the code departs from it.  When the id of an orphan record
    is the name of an inherited member, the grouping throws on that
    record: [fetchConversations] reaches its [catch], reports
    [Failed to load history] and stores nothing, so the conversations
    shown are those of before the fetch and not the reconstructed ones. *)
Theorem C8_orphan_record_raises_on_inherited_id
    (conversationsData : list ConversationData) (historyData : list HistoryItem)
    (s : State) (item : HistoryItem) :
  item ∈ historyData →
  conversation_id item ∉ map data_conversation_id conversationsData →
  Js.inherited (conversation_id item) = true →
  let s' := fetchConversations_settled getTime (Both conversationsData historyData) s in
  reconstruct getTime conversationsData historyData = None
  ∧ conversations s' = conversations s
  ∧ toasts s' = toasts s ++ [("Failed to load history", "error")]
  ∧ isLoading s' = false.
Proof.
  intros Hin _ Hk s'. subst s'. unfold fetchConversations_settled.
  by rewrite (reconstruct_throws getTime _ _ item Hin Hk).
Qed.

End HistoryClaims.

Section HistoryWitnesses.
Import History.
#[local] Existing Instance Js.ascii_engine.

(** C4 on the example of the specification with [constructor] as the id
    of the second conversation. *)
Lemma C4_reconstruct_witness :
  reconstruct example_getTime constructor_headers constructor_records = None.
Proof.
  refine (proj1 (C4_reconstruct_throws_on_inherited_id example_getTime
                   constructor_headers constructor_records
                   (mkHistoryItem "q2" "a2" "2024-01-02T00:00:05Z" "constructor" "f")
                   _ eq_refl)).
  right; left.
Defined.

(** C8 on a history whose orphan record names [toString]. *)
Lemma C8_orphan_record_witness :
  toString_orphan ∈ example_records ++ [toString_orphan]
  ∧ (conversation_id toString_orphan ∉ map data_conversation_id example_headers)
  ∧ conversations (fetchConversations_settled example_getTime
                     (Both example_headers (example_records ++ [toString_orphan]))
                     (mkState [] true "" []))
    = []
  ∧ toasts (fetchConversations_settled example_getTime
              (Both example_headers (example_records ++ [toString_orphan]))
              (mkState [] true "" []))
    = [("Failed to load history", "error")].
Proof.
  assert (Hin : toString_orphan ∈ example_records ++ [toString_orphan])
    by (apply list_elem_of_In; simpl; tauto).
  assert (Hno : conversation_id toString_orphan
                ∉ map data_conversation_id example_headers).
  { intros H. apply list_elem_of_In in H. simpl in H.
    destruct H as [H | [H | []]]; discriminate H. }
  split; [exact Hin|]. split; [exact Hno|].
  destruct (C8_orphan_record_raises_on_inherited_id example_getTime example_headers
              (example_records ++ [toString_orphan]) (mkState [] true "" [])
              toString_orphan Hin Hno eq_refl)
    as (_ & Hc & Ht & _).
  split; [exact Hc | exact Ht].
Defined.

End HistoryWitnesses.

(** ** The file-bound chat page *)

Section RagChatFacts.
Import RagChat.
Context {engine : Js.Engine} {conforms : Js.Conforms engine}.

(** The effect that follows a render changes [selectedFileName] only. *)
Lemma commit_frame files_changed before after :
  let s := (commit files_changed before after).1 in
  messages s = messages after ∧ conversationId s = conversationId after
  ∧ selectedFile s = selectedFile after ∧ isLoading s = isLoading after
  ∧ input s = input after ∧ embeddingProvider s = embeddingProvider after
  ∧ files s = files after ∧ toasts s = toasts after.
Proof.
  unfold commit, selection_effect.
  repeat case_match; simpl; repeat split; congruence.
Qed.

Lemma commit_unchanged before after :
  selectedFile after = selectedFile before →
  conversationId after = conversationId before →
  commit false before after = (after, []).
Proof.
  intros Hf Hc. unfold commit, same. rewrite Hf, Hc.
  by rewrite !bool_decide_eq_true_2.
Qed.

(** The guard of [handleSendMessage] passes exactly on a non-blank input
    with a file and a conversation. *)
Lemma send_guard_false s :
  send_guard s = false →
  Js.truthy (Js.trim (input s)) = true
  ∧ (∃ file, selectedFile s = Some file ∧ Js.truthy file = true)
  ∧ (∃ conv, conversationId s = Some conv ∧ Js.truthy conv = true).
Proof.
  unfold send_guard, truthy. intros H.
  apply orb_false_elim in H as [H Hc]. apply orb_false_elim in H as [Hi Hf].
  apply negb_false_iff in Hi, Hf, Hc.
  split; [done|].
  destruct (selectedFile s) as [file|]; [|done].
  destruct (conversationId s) as [conv|]; [|done].
  split; eauto.
Qed.

Lemma handleSendMessage_accepted env s :
  send_guard s = false →
  ∃ data,
    handleSendMessage env s
    = (setIsLoading true
         (setInput "" (setMessages (λ prev, prev ++ [userMessage env s]) s)),
       [SendChatMessage data])
    ∧ req_question data = input s
    ∧ selectedFile s = Some (req_file_id data)
    ∧ conversationId s = Some (req_conversation_id data)
    ∧ req_embedding_provider data = embeddingProvider s.
Proof.
  intros Hg. unfold handleSendMessage. rewrite Hg.
  destruct (send_guard_false s Hg) as (_ & (file & -> & _) & (conv & -> & _)).
  eexists. split; [reflexivity|]. simpl. done.
Qed.

Lemma handleSendMessage_rejected env s :
  send_guard s = true → handleSendMessage env s = (s, []).
Proof. intros Hg. unfold handleSendMessage. by rewrite Hg. Qed.

(** A send through an enabled control: the world after it. *)
Lemma step_send_accepted env w e :
  e = ClickSend ∨ e = PressEnter →
  isLoading (state w) = false →
  send_guard (state w) = false →
  ∃ data,
    step env e w
    = mkWorld
        (setIsLoading true
           (setInput ""
              (setMessages (λ prev, prev ++ [userMessage env (state w)]) (state w))))
        (pending w ++ [SendChatMessage data])
    ∧ req_question data = input (state w)
    ∧ selectedFile (state w) = Some (req_file_id data)
    ∧ conversationId (state w) = Some (req_conversation_id data)
    ∧ req_embedding_provider data = embeddingProvider (state w).
Proof.
  intros He Hl Hg.
  destruct (handleSendMessage_accepted env (state w) Hg) as (data & Hs & Hd).
  destruct (send_guard_false _ Hg) as (Hi & (file & Hf & Hft) & _).
  exists data. split; [|exact Hd].
  assert (Hb : button_disabled (state w) = false).
  { unfold button_disabled, truthy. by rewrite Hl, Hi, Hf, Hft. }
  assert (Ht : textarea_disabled (state w) = false).
  { unfold textarea_disabled, truthy. by rewrite Hl, Hf, Hft. }
  destruct He as [-> | ->]; unfold step; rewrite ?Hb, ?Ht, Hs;
    rewrite commit_unchanged by done; by rewrite app_nil_r.
Qed.

(** What the continuation of a fulfilled send changes. *)
Lemma send_fulfilled_frame env response s :
  let s' := send_fulfilled env response s in
  messages s' = messages s ++ [assistantMessage env response]
  ∧ selectedFile s' = selectedFile s
  ∧ conversationId s' = conversationId s
  ∧ isLoading s' = false
  ∧ embeddingProvider s'
    = (if truthy (res_embedding_provider response)
       then default "" (res_embedding_provider response)
       else embeddingProvider s)
  ∧ files s' = files s ∧ selectedFileName s' = selectedFileName s
  ∧ input s' = input s ∧ showSettings s' = showSettings s ∧ toasts s' = toasts s.
Proof. unfold send_fulfilled. by case_match. Qed.

(** The world after a file change and after a settlement. *)
Lemma step_FileChange env newFileId w :
  step env (FileChange newFileId) w
  = mkWorld (commit false (state w) (handleFileChange newFileId (state w))).1
      (pending w ++ (commit false (state w) (handleFileChange newFileId (state w))).2).
Proof. reflexivity. Qed.

Lemma step_Settle env k reply w p files_changed s' issued :
  pending w !! k = Some p →
  settle env p reply (state w) = Some (files_changed, s', issued) →
  step env (Settle k reply) w
  = mkWorld (commit files_changed (state w) s').1
      (delete k (pending w) ++ issued ++ (commit files_changed (state w) s').2).
Proof. intros Hp Hs. unfold step. by rewrite Hp, Hs. Qed.

(** The answer of a pending send is appended to the transcript that is
    current when it lands, whichever file the request was issued for. *)
Lemma step_settle_send env w k data response :
  pending w !! k = Some (SendChatMessage data) →
  let w' := step env (Settle k (ChatReply response)) w in
  messages (state w') = messages (state w) ++ [assistantMessage env response]
  ∧ selectedFile (state w') = selectedFile (state w)
  ∧ conversationId (state w') = conversationId (state w).
Proof.
  intros Hp w'. subst w'.
  rewrite (step_Settle env k (ChatReply response) w _ _ _ _ Hp eq_refl).
  cbn [state].
  destruct (commit_frame false (state w) (send_fulfilled env response (state w)))
    as (Hm & Hc & Hf & _).
  destruct (send_fulfilled_frame env response (state w)) as (Hm' & Hf' & Hc' & _).
  by rewrite Hm, Hc, Hf, Hm', Hf', Hc'.
Qed.

End RagChatFacts.

(** *** What a session keeps between a file change and the resolution *)

Section Resolution.
Import RagChat.
Context {engine : Js.Engine} {conforms : Js.Conforms engine}.

Lemma commit_cleared files_changed before after :
  cleared after → cleared (commit files_changed before after).1.
Proof.
  intros [Hm Hc].
  destruct (commit_frame files_changed before after) as (Hm' & Hc' & _).
  split; congruence.
Qed.

Lemma commit_unbound files_changed before after :
  unbound_state after → unbound_state (commit files_changed before after).1.
Proof.
  unfold unbound_state. intros Hc.
  destruct (commit_frame files_changed before after) as (_ & Hc' & _).
  congruence.
Qed.

Lemma unbound_send_is_rejected env s :
  conversationId s = None → handleSendMessage env s = (s, []).
Proof.
  intros Hc. apply handleSendMessage_rejected.
  unfold send_guard. rewrite Hc. simpl. apply orb_true_r.
Qed.

(** A quiet event keeps a cleared session cleared. *)
Lemma step_cleared env e w :
  quiet e → cleared (state w) → cleared (state (step env e w)).
Proof.
  intros Hq Hw. pose proof Hw as [Hm Hc].
  destruct e as [f|v| | |p|c|rf [rc|]|k reply]; simpl in Hq; try done; unfold step.
  - by apply commit_cleared.
  - case_match; [done|]. by apply commit_cleared.
  - case_match; [done|]. rewrite (unbound_send_is_rejected _ _ Hc).
    by apply commit_cleared.
  - case_match; [done|]. rewrite (unbound_send_is_rejected _ _ Hc).
    by apply commit_cleared.
  - by apply commit_cleared.
  - apply commit_cleared. unfold route_effect. by case_match.
  - destruct (pending w !! k) as [q|]; [|done].
    destruct q, reply; simpl in *; try done; apply commit_cleared;
      unfold cleared; try done.
    unfold files_fulfilled. by repeat case_match.
Qed.

(** An event that resolves nothing keeps an unbound session unbound. *)
Lemma step_unbound env e w :
  unresolved e → unbound_state (state w) → unbound_state (state (step env e w)).
Proof.
  intros Hq Hc. unfold unbound_state in Hc.
  destruct e as [f|v| | |p|c|rf [rc|]|k reply]; simpl in Hq; try done; unfold step.
  - by apply commit_unbound.
  - case_match; [done|]. by apply commit_unbound.
  - case_match; [done|]. rewrite (unbound_send_is_rejected _ _ Hc).
    by apply commit_unbound.
  - case_match; [done|]. rewrite (unbound_send_is_rejected _ _ Hc).
    by apply commit_unbound.
  - by apply commit_unbound.
  - apply commit_unbound. unfold route_effect, unbound_state. by case_match.
  - destruct (pending w !! k) as [q|]; [|done].
    destruct q, reply; simpl in *; try done; apply commit_unbound;
      unfold unbound_state; try done.
    + by destruct (send_fulfilled_frame env response (state w)) as (_ & _ & -> & _).
    + unfold load_fulfilled. by case_match.
    + unfold files_fulfilled. by repeat case_match.
Qed.

Lemma run_cleared events w :
  Forall (λ ee, quiet ee.2) events → cleared (state w) →
  cleared (state (run events w)).
Proof.
  revert w. induction events as [|[env e] rest IH]; intros w Hq Hw; simpl; [done|].
  inversion Hq; subst. apply IH; [done|]. by apply step_cleared.
Qed.

Lemma run_unbound events w :
  Forall (λ ee, unresolved ee.2) events → unbound_state (state w) →
  unbound_state (state (run events w)).
Proof.
  revert w. induction events as [|[env e] rest IH]; intros w Hq Hw; simpl; [done|].
  inversion Hq; subst. apply IH; [done|]. by apply step_unbound.
Qed.

End Resolution.

(** *** Resuming a conversation *)

Section Resume.
Import RagChat.
Context {engine : Js.Engine} {conforms : Js.Conforms engine}.

Lemma forEach_push_shown env k history :
  map shown (forEach_push env k history) = flat_map pair_of history.
Proof.
  revert k. induction history as [|item rest IH]; intros k; simpl; [done|].
  by rewrite IH.
Qed.

Lemma forEach_push_length env k history :
  length (forEach_push env k history) = (2 * length history)%nat.
Proof.
  revert k. induction history as [|item rest IH]; intros k; simpl; [done|].
  rewrite IH. lia.
Qed.

(** The transcript after a fulfilled load: the pushed messages, or the
    welcome back when nothing was pushed. *)
Lemma load_fulfilled_messages env fileName history s :
  messages (load_fulfilled env fileName history s)
  = match history with
    | [] => [welcomeBackMessage env 0 fileName]
    | _ :: _ => forEach_push env 0 history
    end.
Proof. unfold load_fulfilled. by destruct history. Qed.

Lemma load_fulfilled_frame env fileName history s :
  let s' := load_fulfilled env fileName history s in
  isLoading s' = false ∧ conversationId s' = conversationId s
  ∧ selectedFile s' = selectedFile s ∧ toasts s' = toasts s.
Proof. unfold load_fulfilled. by case_match. Qed.

Lemma commit_started files_changed before after :
  truthy (conversationId after) = true →
  (commit files_changed before after).2 = [].
Proof.
  intros Hc. unfold commit, selection_effect.
  repeat case_match; simpl; try done; congruence.
Qed.

(** A location that names a conversation, then the answer to the request
    it issued. *)
Lemma resume_world env1 env2 w convId history :
  truthy (selectedFile (state w)) = true →
  Js.truthy convId = true →
  let k := length (pending w) in
  let w1 := step env1 (Location convId) w in
  let w2 := step env2 (Settle k (MessagesReply history)) w1 in
  pending w1 = pending w ++ [GetConversationMessages convId (selectedFileName (state w))]
  ∧ conversationId (state w2) = Some convId
  ∧ messages (state w2)
    = messages (load_fulfilled env2 (selectedFileName (state w)) history (state w1))
  ∧ isLoading (state w2) = false
  ∧ pending w2 = pending w.
Proof.
  intros Hf Hc k w1 w2.
  set (s1 := setConversationId (Some convId) (setIsLoading true (state w))).
  assert (Hw1 : w1 = mkWorld (commit false (state w) s1).1
                       (pending w ++ [GetConversationMessages convId
                                        (selectedFileName (state w))])).
  { subst w1. unfold step, location_effect, loadExistingConversation.
    rewrite Hc, Hf. cbv beta iota zeta. fold s1. f_equal.
    rewrite (commit_started false (state w) s1) by (simpl; exact Hc). done. }
  destruct (commit_frame false (state w) s1) as (_ & Hc1 & _).
  assert (Hp1 : pending w1 !! k
                = Some (GetConversationMessages convId (selectedFileName (state w)))).
  { rewrite Hw1. simpl. by rewrite lookup_app_r, Nat.sub_diag by done. }
  assert (Hw2 := step_Settle env2 k (MessagesReply history) w1 _ _ _ _ Hp1 eq_refl).
  fold w2 in Hw2.
  set (s2 := load_fulfilled env2 (selectedFileName (state w)) history (state w1)) in *.
  destruct (commit_frame false (state w1) s2) as (Hm2 & Hc2 & _ & Hl2 & _).
  destruct (load_fulfilled_frame env2 (selectedFileName (state w)) history (state w1))
    as (Hl & Hcc & _).
  assert (Hconv : conversationId (state w1) = Some convId) by (by rewrite Hw1).
  split; [by rewrite Hw1|].
  rewrite Hw2. cbn [state pending].
  split; [by rewrite Hc2; unfold s2; rewrite Hcc|].
  split; [done|]. split; [by rewrite Hl2|].
  rewrite (commit_started false (state w1) s2)
    by (unfold s2; rewrite Hcc, Hconv; exact Hc).
  rewrite Hw1. cbn [pending]. unfold k. rewrite delete_middle. by rewrite !app_nil_r.
Qed.

End Resume.

(** ** The conversation-list chat page *)

Section NextChatFacts.
Import NextChat.
Context {engine : Js.Engine} {conforms : Js.Conforms engine}.

Lemma handleSubmit_rejected clock ls s :
  submit_guard s = true → handleSubmit clock ls s = (s, []).
Proof. intros Hg. unfold handleSubmit. by rewrite Hg. Qed.

Lemma submit_guard_loading s : isLoading s = true → submit_guard s = true.
Proof. intros Hl. unfold submit_guard. rewrite Hl. apply orb_true_r. Qed.

(** With a conversation, the chat request is issued at once. *)
Lemma handleSubmit_bound clock ls s :
  submit_guard s = false → truthy (token ls) = true →
  truthy (currentConversationId s) = true →
  ∃ conv, currentConversationId s = Some conv
    ∧ handleSubmit clock ls s
      = (submitted clock s,
         [SubmitChat {| body_question := message s; body_conversation_id := conv |}
            (currentConversationId s)]).
Proof.
  intros Hg Ht Hc. unfold handleSubmit. rewrite Hg, Ht. simpl.
  unfold truthy in Hc. destruct (currentConversationId s) as [conv|]; [|done].
  rewrite Hc. by exists conv.
Qed.

(** Without one, the start request is issued first. *)
Lemma handleSubmit_unbound clock ls s :
  submit_guard s = false → truthy (token ls) = true →
  truthy (currentConversationId s) = false →
  handleSubmit clock ls s
  = (submitted clock s, [SubmitStart (message s) (currentConversationId s)]).
Proof.
  intros Hg Ht Hc. unfold handleSubmit. rewrite Hg, Ht. simpl.
  unfold truthy in Hc. destruct (currentConversationId s) as [conv|]; [|done].
  by rewrite Hc.
Qed.

(** Either way exactly one request is issued. *)
Lemma handleSubmit_accepted clock ls s :
  submit_guard s = false → truthy (token ls) = true →
  ∃ p, handleSubmit clock ls s = (submitted clock s, [p]).
Proof.
  intros Hg Ht. destruct (truthy (currentConversationId s)) eqn:Hc.
  - destruct (handleSubmit_bound clock ls s Hg Ht Hc) as (conv & _ & ->). eauto.
  - rewrite (handleSubmit_unbound clock ls s Hg Ht Hc). eauto.
Qed.

End NextChatFacts.

(** *** A send and its settlement *)

Section SendFacts.
Import RagChat.
Context {engine : Js.Engine} {conforms : Js.Conforms engine}.

(** While the flag is raised both send controls are disabled. *)
Lemma step_send_disabled env w e :
  e = ClickSend ∨ e = PressEnter →
  isLoading (state w) = true → step env e w = w.
Proof.
  intros [-> | ->] Hl; unfold step, button_disabled, textarea_disabled;
    by rewrite Hl.
Qed.


(** The settlement of the request a send has just appended. *)
Lemma step_settle_last env w p reply files_changed s' :
  settle env p reply (state w) = Some (files_changed, s', []) →
  selectedFile s' = selectedFile (state w) →
  conversationId s' = conversationId (state w) →
  files_changed = false →
  ∀ kept, pending w = kept ++ [p] →
  step env (Settle (length kept) reply) w = mkWorld s' kept.
Proof.
  intros Hs Hf Hc -> kept Hp.
  assert (Hk : pending w !! length kept = Some p).
  { rewrite Hp. by rewrite lookup_app_r, Nat.sub_diag by done. }
  rewrite (step_Settle env _ reply w p false s' [] Hk Hs).
  rewrite commit_unchanged by done. cbn [fst snd].
  rewrite Hp, delete_middle. by rewrite !app_nil_r.
Qed.

End SendFacts.

Section RagChatClaims.
Import RagChat.
Context {engine : Js.Engine} {conforms : Js.Conforms engine}.

(** C1, as the code has it.  The page keeps no generation counter: when
    a file change happens while a send is pending and the send then
    resolves, the assistant message built from the answer is appended to
    the transcript of the file now selected, which the change had
    emptied.  In general the answer of a pending send is appended to
    whatever transcript is current when it lands. *)
Theorem C1_stale_answer_is_appended
    (env1 env2 env3 : Env) (w : World) (B : string) (response : ChatResponse) :
  isLoading (state w) = false →
  send_guard (state w) = false →
  let k := length (pending w) in
  let w1 := step env1 ClickSend w in
  let w2 := step env2 (FileChange B) w1 in
  let w3 := step env3 (Settle k (ChatReply response)) w2 in
  (∃ data, pending w2 !! k = Some (SendChatMessage data)
           ∧ selectedFile (state w) = Some (req_file_id data))
  ∧ selectedFile (state w2) = Some B
  ∧ messages (state w2) = []
  ∧ selectedFile (state w3) = Some B
  ∧ messages (state w3) = [assistantMessage env3 response]
  ∧ (∀ env w' j data',
       pending w' !! j = Some (SendChatMessage data') →
       messages (state (step env (Settle j (ChatReply response)) w'))
       = messages (state w') ++ [assistantMessage env response]
       ∧ selectedFile (state (step env (Settle j (ChatReply response)) w'))
         = selectedFile (state w')).
Proof.
  intros Hl Hg k w1 w2 w3.
  assert (Hany : ∀ env w' j data',
            pending w' !! j = Some (SendChatMessage data') →
            messages (state (step env (Settle j (ChatReply response)) w'))
            = messages (state w') ++ [assistantMessage env response]
            ∧ selectedFile (state (step env (Settle j (ChatReply response)) w'))
              = selectedFile (state w')).
  { intros env w' j data' Hp.
    destruct (step_settle_send env w' j data' response Hp) as (Hm & Hf & _).
    by split. }
  destruct (step_send_accepted env1 w ClickSend (or_introl eq_refl) Hl Hg)
    as (data & Hw1 & _ & Hfile & _).
  fold w1 in Hw1.
  assert (Hp1 : pending w1 !! k = Some (SendChatMessage data)).
  { rewrite Hw1. simpl. by rewrite lookup_app_r, Nat.sub_diag by done. }
  pose proof (commit_frame false (state w1) (handleFileChange B (state w1))) as Hc2.
  assert (Hw2 := step_FileChange env2 B w1). fold w2 in Hw2.
  cbv zeta in Hc2. destruct Hc2 as (Hm2 & _ & Hf2 & _).
  assert (Hp2 : pending w2 !! k = Some (SendChatMessage data)).
  { rewrite Hw2. simpl. apply lookup_app_l_Some, Hp1. }
  assert (Hs2 : selectedFile (state w2) = Some B) by (by rewrite Hw2).
  assert (Hm2' : messages (state w2) = []) by (by rewrite Hw2).
  split; [eauto|]. split; [done|]. split; [done|].
  pose proof (commit_frame false (state w2) (send_fulfilled env3 response (state w2)))
    as Hc3.
  assert (Hw3 := step_Settle env3 k (ChatReply response) w2 _ _ _ _ Hp2 eq_refl).
  fold w3 in Hw3.
  cbv zeta in Hc3. destruct Hc3 as (Hm3 & _ & Hf3 & _).
  destruct (send_fulfilled_frame env3 response (state w2)) as (Hm & Hf & _).
  rewrite Hw3. cbn [state]. by rewrite Hm3, Hf3, Hm, Hf, Hs2, Hm2'.
Qed.

(** C5, as the code has it.  Immediately after a change of the file
    select the transcript is empty and there is no conversation id,
    whatever the session was before (so also after each change of a
    sequence of changes); both stay so through every later event that
    lands no answer of the backend and follows no deep link (further file
    changes, typing, send attempts, failed requests), and the
    conversation id stays null through every event but the answer of a
    start request and a deep link.  An answer that lands is not
    discarded, whichever request it answers: the answer of a send that
    was pending at the change is appended to the emptied transcript while
    the conversation id is still null. *)
Theorem C5_file_change_clears_until_resolution
    (env : Env) (w : World) (newFileId : string) (events : list (Env * Event)) :
  let w1 := step env (FileChange newFileId) w in
  selectedFile (state w1) = Some newFileId
  ∧ messages (state w1) = []
  ∧ conversationId (state w1) = None
  ∧ (Forall (λ ee, quiet ee.2) events →
       messages (state (run events w1)) = []
       ∧ conversationId (state (run events w1)) = None)
  ∧ (Forall (λ ee, unresolved ee.2) events →
       conversationId (state (run events w1)) = None)
  ∧ (∀ env' k data response,
       pending w1 !! k = Some (SendChatMessage data) →
       messages (state (step env' (Settle k (ChatReply response)) w1))
       = [assistantMessage env' response]
       ∧ conversationId (state (step env' (Settle k (ChatReply response)) w1)) = None).
Proof.
  intros w1.
  destruct (commit_frame false (state w) (handleFileChange newFileId (state w)))
    as (Hm & Hc & Hf & _).
  assert (Hcl : cleared (state w1)).
  { subst w1. rewrite step_FileChange. cbn [state].
    split; [by rewrite Hm | by rewrite Hc]. }
  split; [subst w1; rewrite step_FileChange; cbn [state]; by rewrite Hf|].
  split; [apply Hcl|]. split; [apply Hcl|].
  split; [intros Hq; by apply (run_cleared events w1 Hq)|].
  split; [intros Hq; apply (run_unbound events w1 Hq), Hcl|].
  intros env' k data response Hp.
  destruct (step_settle_send env' w1 k data response Hp) as (Hm' & _ & Hc').
  destruct Hcl as [Hm1 Hc1]. by rewrite Hm', Hc', Hm1, Hc1.
Qed.

(** C6, as the code has it.  After a successful resume of an explicit
    conversation whose fetched list is not empty, the conversation id is
    the one resumed and the transcript is the fetched records in order,
    each as two consecutive messages, the question as the user's and the
    response as the assistant's, both at the record's timestamp: [2n]
    messages for [n] records. *)
Theorem C6_resume_flattens_records
    (env1 env2 : Env) (w : World) (convId : string) (history : list HistoryRecord) :
  truthy (selectedFile (state w)) = true →
  Js.truthy convId = true →
  history ≠ [] →
  let k := length (pending w) in
  let w1 := step env1 (Location convId) w in
  let w2 := step env2 (Settle k (MessagesReply history)) w1 in
  conversationId (state w2) = Some convId
  ∧ map shown (messages (state w2)) = flat_map pair_of history
  ∧ length (messages (state w2)) = (2 * length history)%nat.
Proof.
  intros Hf Hc Hne k w1 w2.
  destruct (resume_world env1 env2 w convId history Hf Hc) as (_ & Hconv & Hm & _).
  fold k w1 w2 in Hconv, Hm.
  split; [done|]. rewrite Hm, load_fulfilled_messages.
  destruct history as [|item rest]; [done|].
  split; [apply forEach_push_shown | apply forEach_push_length].
Qed.

(** C10.  After a successful resume of an explicit conversation whose
    fetched list is empty, the transcript is not empty: it is exactly one
    assistant message, the welcome back, built by the page; no request
    is issued for it. *)
Theorem C10_empty_resume_shows_welcome_back
    (env1 env2 : Env) (w : World) (convId : string) :
  truthy (selectedFile (state w)) = true →
  Js.truthy convId = true →
  let k := length (pending w) in
  let w1 := step env1 (Location convId) w in
  let w2 := step env2 (Settle k (MessagesReply [])) w1 in
  messages (state w2) = [welcomeBackMessage env2 0 (selectedFileName (state w))]
  ∧ messages (state w2) ≠ []
  ∧ (∀ m, m ∈ messages (state w2) →
       role m = assistant ∧ id m = IdWelcomeBack
       ∧ content m = welcome_back_text (selectedFileName (state w)))
  ∧ conversationId (state w2) = Some convId
  ∧ pending w2 = pending w.
Proof.
  intros Hf Hc k w1 w2.
  destruct (resume_world env1 env2 w convId [] Hf Hc) as (_ & Hconv & Hm & _ & Hp).
  fold k w1 w2 in Hconv, Hm, Hp.
  rewrite load_fulfilled_messages in Hm. rewrite Hm.
  split; [done|]. split; [done|]. split; [|done].
  intros m Hin. apply list_elem_of_singleton in Hin. by subst m.
Qed.

End RagChatClaims.

Section RagChatExamples.
Import RagChat Examples.
#[local] Existing Instance Js.ascii_engine.

(** C1 on a concrete session. *)
Lemma C1_stale_answer_witness :
  selectedFile (state stale_session) = Some "fileB"
  ∧ messages (state stale_session) = [assistantMessage env0 answer].
Proof.
  destruct (C1_stale_answer_is_appended (engine := Js.ascii_engine)
              env0 env0 env0 (mkWorld ready []) "fileB"
              answer eq_refl eq_refl) as (_ & _ & _ & Hf & Hm & _).
  split; [exact Hf | exact Hm].
Defined.

(** C1 as stated fails: the send was issued under file A, the session is
    on file B when its answer lands, and the transcript of file B then
    holds the assistant message with that answer. *)
Lemma C1_stale_answer_counterexample :
  selectedFile (state stale_session) = Some "fileB"
  ∧ map shown (messages (state stale_session))
    = [(assistant, "42", DateAt 1700000000001)]
  ∧ messages (state stale_session) ≠ [].
Proof. vm_compute. repeat split; discriminate. Qed.

(** C5 on a concrete session: a change to file B, then a change back
    to file A, a start request that fails, typing, and a send attempt. *)
Lemma C5_file_change_witness :
  let later := [(env0, FileChange "fileA"); (env0, Settle 0 Failure);
                (env0, InputChange "again?"); (env0, ClickSend)] in
  let w1 := step env0 (FileChange "fileB") (mkWorld ready []) in
  Forall (λ ee, quiet ee.2) later
  ∧ messages (state (run later w1)) = []
  ∧ conversationId (state (run later w1)) = None.
Proof.
  assert (Hq : Forall (λ ee : Env * Event, quiet ee.2)
                 [(env0, FileChange "fileA"); (env0, Settle 0 Failure);
                  (env0, InputChange "again?"); (env0, ClickSend)])
    by (repeat constructor).
  split; [exact Hq|].
  apply (C5_file_change_clears_until_resolution env0 (mkWorld ready []) "fileB"), Hq.
Defined.

(** C5 as stated fails: file B was selected while a send was pending;
    the answer of the send has landed, the start request of the
    conversation of file B has not been answered, and the transcript is
    not empty. *)
Lemma C5_file_change_counterexample :
  pending stale_session = [StartConversation "a.csv"]
  ∧ conversationId (state stale_session) = None
  ∧ map shown (messages (state stale_session))
    = [(assistant, "42", DateAt 1700000000001)]
  ∧ messages (state stale_session) ≠ [].
Proof. vm_compute. repeat split; discriminate. Qed.

(** C6 on a history of one record. *)
Lemma C6_resume_witness :
  map shown (messages (state resumed_one))
  = [(user, "total revenue?", DateOf "2024-01-01T00:00:05Z");
     (assistant, "42", DateOf "2024-01-01T00:00:05Z")]
  ∧ length (messages (state resumed_one)) = 2%nat.
Proof.
  apply (C6_resume_flattens_records env0 env0 (mkWorld unbound []) "conv-1" [record1]);
    [reflexivity | reflexivity | discriminate].
Defined.

(** C6 as stated fails on the empty history: [n = 0] records do not
    give [2n = 0] messages but one. *)
Lemma C6_resume_counterexample :
  length (messages (state resumed_empty)) = 1%nat
  ∧ length (messages (state resumed_empty))
    ≠ (2 * length ([] : list HistoryRecord))%nat.
Proof. vm_compute. split; [reflexivity | discriminate]. Qed.

(** C10 on a concrete session. *)
Lemma C10_empty_resume_witness :
  messages (state resumed_empty) = [welcomeBackMessage env0 0 "a.csv"]
  ∧ pending resumed_empty = [].
Proof.
  split;
    apply (C10_empty_resume_shows_welcome_back env0 env0 (mkWorld unbound []) "conv-1");
    reflexivity.
Defined.

End RagChatExamples.

(** ** Sending, on both pages *)

Section SendClaims.
Context {engine : Js.Engine} {conforms : Js.Conforms engine}.


(** C3, as the code has it.  When the request of a send fails, the
    user's message stays in the transcript and the loading flag is
    lowered.  The conversation-list page also appends one assistant
    message with the fixed apology, whichever request of the send failed
    (no token, the start of the conversation, or the chat call), so its
    transcript gains exactly the two messages.  The file-bound page
    appends nothing: it shows a toast, and its transcript gains the
    user's message only. *)
Theorem C3_failed_send_keeps_user_message :
  (∀ clock ls s,
     NextChat.submit_guard s = false →
     NextChat.truthy (NextChat.token ls) = false →
     ∃ s2, NextChat.handleSubmit clock ls s = (s2, [])
       ∧ NextChat.messages s2
         = NextChat.messages s
           ++ [NextChat.userMessage clock s; NextChat.errorMessage clock 2]
       ∧ NextChat.isLoading s2 = false)
  ∧ (∀ clock1 clock2 ls s p reply,
       NextChat.submit_guard s = false →
       NextChat.truthy (NextChat.token ls) = true →
       (NextChat.handleSubmit clock1 ls s).2 = [p] →
       NextChat.failed reply = true →
       ∃ s2, NextChat.settle clock2 ls p (NextChat.Answer reply)
               (NextChat.handleSubmit clock1 ls s).1 = Some (s2, [])
         ∧ NextChat.messages s2
           = NextChat.messages s
             ++ [NextChat.userMessage clock1 s; NextChat.errorMessage clock2 0]
         ∧ NextChat.isLoading s2 = false)
  ∧ (∀ clock1 clock2 clock3 ls s conversationId reply,
       NextChat.submit_guard s = false →
       NextChat.truthy (NextChat.token ls) = true →
       NextChat.truthy (NextChat.currentConversationId s) = false →
       NextChat.failed reply = true →
       ∃ s1 p s2,
         NextChat.settle clock2 ls
           (NextChat.SubmitStart (NextChat.message s) (NextChat.currentConversationId s))
           (NextChat.Answer (NextChat.Ok conversationId))
           (NextChat.handleSubmit clock1 ls s).1 = Some (s1, [p])
         ∧ NextChat.settle clock3 ls p (NextChat.Answer reply) s1 = Some (s2, [])
         ∧ NextChat.messages s2
           = NextChat.messages s
             ++ [NextChat.userMessage clock1 s; NextChat.errorMessage clock3 0]
         ∧ NextChat.isLoading s2 = false)
  ∧ NextChat.apology = "Sorry, I encountered an error. Please try again."
  ∧ (∀ clock k, NextChat.role (NextChat.errorMessage clock k) = NextChat.assistant
                ∧ NextChat.content (NextChat.errorMessage clock k) = NextChat.apology)
  ∧ (∀ env1 env2 w e,
       e = RagChat.ClickSend ∨ e = RagChat.PressEnter →
       RagChat.isLoading (RagChat.state w) = false →
       RagChat.send_guard (RagChat.state w) = false →
       let w1 := RagChat.step env1 e w in
       let w2 := RagChat.step env2
                   (RagChat.Settle (length (RagChat.pending w)) RagChat.Failure) w1 in
       RagChat.messages (RagChat.state w2)
       = RagChat.messages (RagChat.state w)
         ++ [RagChat.userMessage env1 (RagChat.state w)]
       ∧ RagChat.isLoading (RagChat.state w2) = false
       ∧ RagChat.toasts (RagChat.state w2)
         = RagChat.toasts (RagChat.state w) ++ [("Failed to send message", "error")]
       ∧ RagChat.pending w2 = RagChat.pending w).
Proof.
  split; [|split; [|split; [|split; [|split]]]].
  - intros clock ls s Hg Ht. unfold NextChat.handleSubmit. rewrite Hg, Ht. simpl.
    eexists. split; [reflexivity|]. simpl. by rewrite <- app_assoc.
  - intros clock1 clock2 ls s p reply Hg Ht Hp Hf.
    destruct (handleSubmit_accepted clock1 ls s Hg Ht) as (q & Hq).
    rewrite Hq in *. simpl in Hp. injection Hp as ->.
    assert (Hq' := Hq). unfold NextChat.handleSubmit in Hq'.
    rewrite Hg, Ht in Hq'. simpl in Hq'.
    destruct reply; [done| |];
      repeat case_match; simplify_eq; simpl;
      (eexists; split; [reflexivity|]; simpl; by rewrite <- app_assoc).
  - intros clock1 clock2 clock3 ls s conversationId reply Hg Ht Hc Hf.
    rewrite (handleSubmit_unbound clock1 ls s Hg Ht Hc). simpl.
    do 3 eexists. split; [reflexivity|].
    destruct reply; [done| |]; simpl;
      (split; [reflexivity|]; simpl; by rewrite <- app_assoc).
  - reflexivity.
  - done.
  - intros env1 env2 w e He Hl Hg w1 w2.
    destruct (step_send_accepted env1 w e He Hl Hg) as (data & Hw1 & _).
    fold w1 in Hw1.
    assert (Hw2 : w2 = RagChat.mkWorld (RagChat.send_rejected (RagChat.state w1))
                         (RagChat.pending w)).
    { subst w2.
      apply (step_settle_last env2 w1 (RagChat.SendChatMessage data)
               RagChat.Failure false); try done.
      by rewrite Hw1. }
    rewrite Hw2, Hw1. done.
Qed.

(** C7, as the code has it.  A send while there is no conversation id
    (text not blank): the conversation-list page first starts a
    conversation and, when the start answers, stores the new id and
    issues the chat request with it; the file-bound page does nothing,
    its guard returns before any message is appended or request issued
    (its conversation is started by the file selection, not by a send). *)
Theorem C7_send_without_conversation :
  (∀ clock1 clock2 ls s conversationId,
     NextChat.submit_guard s = false →
     NextChat.truthy (NextChat.token ls) = true →
     NextChat.truthy (NextChat.currentConversationId s) = false →
     NextChat.handleSubmit clock1 ls s
     = (NextChat.submitted clock1 s,
        [NextChat.SubmitStart (NextChat.message s) (NextChat.currentConversationId s)])
     ∧ NextChat.settle clock2 ls
         (NextChat.SubmitStart (NextChat.message s) (NextChat.currentConversationId s))
         (NextChat.Answer (NextChat.Ok conversationId)) (NextChat.submitted clock1 s)
       = Some (NextChat.setCurrentConversationId (Some conversationId)
                 (NextChat.submitted clock1 s),
               [NextChat.SubmitChat
                  {| NextChat.body_question := NextChat.message s;
                     NextChat.body_conversation_id := conversationId |}
                  (NextChat.currentConversationId s)]))
  ∧ (∀ env s,
       RagChat.truthy (RagChat.conversationId s) = false →
       RagChat.handleSendMessage env s = (s, []))
  ∧ (∀ env w e,
       e = RagChat.ClickSend ∨ e = RagChat.PressEnter →
       RagChat.truthy (RagChat.conversationId (RagChat.state w)) = false →
       RagChat.step env e w = w).
Proof.
  split; [|split].
  - intros clock1 clock2 ls s conversationId Hg Ht Hc.
    by rewrite (handleSubmit_unbound clock1 ls s Hg Ht Hc).
  - intros env s Hc. apply handleSendMessage_rejected.
    unfold RagChat.send_guard. rewrite Hc. apply orb_true_r.
  - intros env w e He Hc.
    assert (Hs : RagChat.handleSendMessage env (RagChat.state w) = (RagChat.state w, [])).
    { apply handleSendMessage_rejected.
      unfold RagChat.send_guard. rewrite Hc. apply orb_true_r. }
    destruct w as [s ps]. simpl in *.
    destruct He as [-> | ->]; unfold RagChat.step; simpl; rewrite Hs;
      case_match; try done;
      rewrite commit_unchanged by done; simpl; by rewrite app_nil_r.
Qed.

(** C9.  A successful send made while a conversation id is set leaves
    the selected file and the conversation id as they were; the
    transcript gains the user's message and the assistant's reply, the
    embedding provider becomes the one the answer names, if it names one;
    the loading flag is lowered again, the text box is emptied, and no
    other cell of the page and no pending request changes. *)
Theorem C9_successful_send_frame :
  (∀ env1 env2 w e response,
     e = RagChat.ClickSend ∨ e = RagChat.PressEnter →
     RagChat.isLoading (RagChat.state w) = false →
     RagChat.send_guard (RagChat.state w) = false →
     let s := RagChat.state w in
     let w1 := RagChat.step env1 e w in
     let w2 := RagChat.step env2
                 (RagChat.Settle (length (RagChat.pending w))
                    (RagChat.ChatReply response)) w1 in
     let s2 := RagChat.state w2 in
     RagChat.selectedFile s2 = RagChat.selectedFile s
     ∧ RagChat.conversationId s2 = RagChat.conversationId s
     ∧ RagChat.truthy (RagChat.conversationId s) = true
     ∧ RagChat.messages s2
       = RagChat.messages s
         ++ [RagChat.userMessage env1 s; RagChat.assistantMessage env2 response]
     ∧ RagChat.embeddingProvider s2
       = (if RagChat.truthy (RagChat.res_embedding_provider response)
          then default "" (RagChat.res_embedding_provider response)
          else RagChat.embeddingProvider s)
     ∧ RagChat.isLoading s2 = RagChat.isLoading s
     ∧ RagChat.files s2 = RagChat.files s
     ∧ RagChat.selectedFileName s2 = RagChat.selectedFileName s
     ∧ RagChat.showSettings s2 = RagChat.showSettings s
     ∧ RagChat.toasts s2 = RagChat.toasts s
     ∧ RagChat.input s2 = ""
     ∧ RagChat.pending w2 = RagChat.pending w)
  ∧ (∀ clock1 clock2 ls s response,
       NextChat.submit_guard s = false →
       NextChat.truthy (NextChat.token ls) = true →
       NextChat.truthy (NextChat.currentConversationId s) = true →
       ∃ p s2,
         NextChat.handleSubmit clock1 ls s = (NextChat.submitted clock1 s, [p])
         ∧ NextChat.settle clock2 ls p (NextChat.Answer (NextChat.Ok response))
             (NextChat.submitted clock1 s) = Some (s2, [])
         ∧ NextChat.currentConversationId s2 = NextChat.currentConversationId s
         ∧ NextChat.messages s2
           = NextChat.messages s
             ++ [NextChat.userMessage clock1 s; NextChat.botMessage clock2 response]
         ∧ NextChat.isLoading s2 = NextChat.isLoading s
         ∧ NextChat.conversations s2 = NextChat.conversations s
         ∧ NextChat.message s2 = "").
Proof.
  split.
  - intros env1 env2 w e response He Hl Hg s w1 w2 s2.
    destruct (step_send_accepted env1 w e He Hl Hg) as (data & Hw1 & _).
    fold w1 in Hw1.
    destruct (send_guard_false _ Hg) as (_ & _ & (conv & Hconv & Hct)).
    assert (Hw2 : w2 = RagChat.mkWorld
                         (RagChat.send_fulfilled env2 response (RagChat.state w1))
                         (RagChat.pending w)).
    { subst w2.
      destruct (send_fulfilled_frame env2 response (RagChat.state w1))
        as (_ & Hf & Hc & _).
      apply (step_settle_last env2 w1 (RagChat.SendChatMessage data)
               (RagChat.ChatReply response) false); try done.
      by rewrite Hw1. }
    subst s2. rewrite Hw2. cbn [RagChat.state RagChat.pending].
    destruct (send_fulfilled_frame env2 response (RagChat.state w1))
      as (Hm & Hf & Hc & Hl2 & He2 & Hfs & Hn & Hin & Hss & Hts).
    rewrite Hm, Hf, Hc, Hl2, He2, Hfs, Hn, Hin, Hss, Hts, Hw1. subst s. simpl.
    rewrite <- app_assoc, Hl. unfold RagChat.truthy at 1. rewrite Hconv, Hct.
    repeat split; done.
  - intros clock1 clock2 ls s response Hg Ht Hc.
    destruct (handleSubmit_bound clock1 ls s Hg Ht Hc) as (conv & Hconv & Hs).
    rewrite Hs. do 2 eexists. split; [reflexivity|]. simpl. rewrite Hc. simpl.
    split; [reflexivity|]. simpl. rewrite <- app_assoc.
    unfold NextChat.submit_guard in Hg. apply orb_false_elim in Hg as [_ ->].
    done.
Qed.

End SendClaims.

Section SendExamples.
Import Examples.
#[local] Existing Instance Js.ascii_engine.



(** C3 on concrete sessions: a submit without a token, and a send whose
    request fails. *)
Lemma C3_failed_send_witness :
  (∃ s2, NextChat.handleSubmit clock0 (NextChat.mkLocalStorage None None) fresh = (s2, [])
     ∧ NextChat.messages s2
       = [NextChat.userMessage clock0 fresh; NextChat.errorMessage clock0 2]
     ∧ NextChat.isLoading s2 = false)
  ∧ RagChat.messages (RagChat.state failed_session)
    = [welcome0; RagChat.userMessage env0 ready].
Proof.
  split.
  - exact (proj1 C3_failed_send_keeps_user_message clock0
             (NextChat.mkLocalStorage None None) fresh eq_refl eq_refl).
  - exact (proj1 (proj2 (proj2 (proj2 (proj2 (proj2
             C3_failed_send_keeps_user_message)))) env0 env0
             (RagChat.mkWorld ready []) RagChat.ClickSend
             (or_introl eq_refl) eq_refl eq_refl)).
Defined.

(** C3 as stated fails on the file-bound page: after the failed send the
    transcript has gained the user's message and no assistant message;
    the failure is a toast. *)
Lemma C3_failed_send_counterexample :
  RagChat.messages (RagChat.state failed_session)
  = RagChat.messages ready ++ [RagChat.userMessage env0 ready]
  ∧ length (RagChat.messages (RagChat.state failed_session))
    = S (length (RagChat.messages ready))
  ∧ RagChat.role (RagChat.userMessage env0 ready) = RagChat.user
  ∧ RagChat.toasts (RagChat.state failed_session)
    = [("Failed to send message", "error")].
Proof. vm_compute. repeat split. Qed.

(** C7 on a concrete session of the conversation-list page. *)
Lemma C7_send_without_conversation_witness :
  NextChat.handleSubmit clock0 storage fresh
  = (NextChat.submitted clock0 fresh,
     [NextChat.SubmitStart "where is my parcel?" None]).
Proof.
  exact (proj1 (proj1 C7_send_without_conversation clock0 clock0 storage fresh
                 "conv-9" eq_refl eq_refl eq_refl)).
Defined.

(** C7 as stated fails on the file-bound page: with a text, a file and
    no conversation id, the send starts no conversation and issues no
    chat request; nothing changes. *)
Lemma C7_send_without_conversation_counterexample :
  Js.truthy (Js.trim (RagChat.input unbound)) = true
  ∧ RagChat.selectedFile unbound = Some "fileA"
  ∧ RagChat.conversationId unbound = None
  ∧ RagChat.handleSendMessage env0 unbound = (unbound, [])
  ∧ RagChat.step env0 RagChat.ClickSend (RagChat.mkWorld unbound [])
    = RagChat.mkWorld unbound []
  ∧ RagChat.step env0 RagChat.PressEnter (RagChat.mkWorld unbound [])
    = RagChat.mkWorld unbound [].
Proof. vm_compute. repeat split. Qed.

(** C9 on a concrete session. *)
Lemma C9_successful_send_witness :
  RagChat.selectedFile (RagChat.state answered_session) = Some "fileA"
  ∧ RagChat.conversationId (RagChat.state answered_session) = Some "conv-1"
  ∧ RagChat.messages (RagChat.state answered_session)
    = [welcome0; RagChat.userMessage env0 ready; RagChat.assistantMessage env0 answer].
Proof.
  destruct (proj1 (C9_successful_send_frame (engine := Js.ascii_engine)) env0 env0 (RagChat.mkWorld ready [])
              RagChat.ClickSend answer (or_introl eq_refl) eq_refl eq_refl)
    as (Hf & Hc & _ & Hm & _).
  split; [exact Hf|]. split; [exact Hc | exact Hm].
Defined.

End SendExamples.

(** * Further properties of the code *)

(** ** Strings *)

Section StringFacts.
Context {engine : Js.Engine} {conforms : Js.Conforms engine}.

(** The trimmed text is empty exactly for a blank text. *)
Lemma truthy_trim s : Js.truthy (Js.trim s) = negb (Js.blank s).
Proof. unfold Js.blank. by rewrite negb_involutive. Qed.

Lemma append_cons c a b :
  String.append (String c a) b = String c (String.append a b).
Proof. reflexivity. Qed.

Lemma append_nil b : String.append "" b = b.
Proof. reflexivity. Qed.

Lemma prefix_spec sub s :
  String.prefix sub s = true ↔ ∃ b, s = String.append sub b.
Proof.
  revert s. induction sub as [|c sub IH]; intros s.
  - split; [intros _; by exists s | intros _; by destruct s].
  - destruct s as [|d s]; simpl; [split; [done | intros [b Hb]; discriminate]|].
    destruct (ascii_dec c d) as [->|Hne].
    + rewrite IH. split; intros [b Hb]; exists b.
      * by rewrite append_cons, Hb.
      * rewrite append_cons in Hb. congruence.
    + split; [done | intros [b Hb]; rewrite append_cons in Hb; congruence].
Qed.

(** [includes] finds exactly the texts that contain the sought one. *)
Lemma includes_spec s sub :
  Js.includes s sub = true
  ↔ ∃ a b, s = String.append a (String.append sub b).
Proof.
  induction s as [|c s IH].
  - cbn [Js.includes]. rewrite orb_false_r, prefix_spec. split.
    + intros [b Hb]. by exists "", b.
    + intros (a & b & H). destruct a; [by exists b|discriminate].
  - cbn [Js.includes]. rewrite orb_true_iff, prefix_spec, IH. split.
    + intros [[b Hb] | (a & b & Hab)].
      * by exists "", b.
      * exists (String c a), b. by rewrite append_cons, Hab.
    + intros (a & b & H). destruct a as [|d a]; [left; by exists b|].
      right. exists a, b. rewrite append_cons in H. congruence.
Qed.

End StringFacts.

(** ** The history page *)

Section HistoryFacts.
Import History.
Context {engine : Js.Engine} {conforms : Js.Conforms engine}.
Variable getTime : string → Js.Number.

(** X1.  The grouping throws exactly when a record carries a
    conversation id that is the name of a member inherited from
    [Object.prototype].  When it does not throw, the map has a key
    exactly for the conversation ids that occur in the records, the
    value of a key is the list of the records that carry it, in their
    order, and is never empty; reading an id that no record carries
    gives [undefined], or the inherited member when the id names one. *)
Theorem group_by_conversation_lookup_exact (historyData : list HistoryItem) :
  (group_by_conversation historyData = None
   ↔ ∃ item, item ∈ historyData ∧ Js.inherited (conversation_id item) = true)
  ∧ ∀ conversationsMap,
      group_by_conversation historyData = Some conversationsMap →
      ∀ c,
        conversationsMap !! c
        = match filter (λ i, conversation_id i = c) historyData with
          | [] => None
          | group => Some group
          end
        ∧ (is_Some (conversationsMap !! c)
           ↔ ∃ item, item ∈ historyData ∧ conversation_id item = c)
        ∧ read conversationsMap c
          = match filter (λ i, conversation_id i = c) historyData with
            | [] => if Js.inherited c then Some (Member c) else None
            | group => Some (Items group)
            end.
Proof.
  split; [apply group_by_conversation_thrown|].
  intros m Hm c. rewrite group_by_conversation_eq in Hm.
  destruct (forallb _ historyData); [|done]. injection Hm as <-.
  assert (Heq := grouping_lookup historyData c).
  split; [exact Heq|]. split.
  - rewrite Heq. split.
    + intros Hs.
      destruct (filter (λ i, conversation_id i = c) historyData) as [|item l] eqn:Hf.
      * by destruct Hs.
      * exists item.
        assert (Hin : item ∈ filter (λ i, conversation_id i = c) historyData)
          by (rewrite Hf; left).
        apply list_elem_of_filter in Hin as [Hid Hin]. done.
    + intros (item & Hin & Hid).
      pose proof (filter_some (λ i, conversation_id i = c) historyData item Hin Hid).
      by destruct (filter (λ i, conversation_id i = c) historyData).
  - unfold read. rewrite Heq.
    by destruct (filter (λ i, conversation_id i = c) historyData).
Qed.

(** X2.  A header whose id no record carries is not dropped: when the
    reconstruction returns, its result holds the header's conversation,
    with an empty array of messages, or, when the header's id is the
    name of an inherited member, with that member in the place of the
    array; and every conversation of the result is collapsed. *)
Theorem reconstruct_keeps_header_without_records
    (conversationsData : list ConversationData) (historyData : list HistoryItem)
    (conv : ConversationData) (out : list Conversation) :
  conv ∈ conversationsData →
  (∀ item, item ∈ historyData → conversation_id item ≠ data_conversation_id conv) →
  reconstruct getTime conversationsData historyData = Some out →
  mkConversation (data_conversation_id conv) (data_started_at conv)
    (if Js.inherited (data_conversation_id conv)
     then Member (data_conversation_id conv) else Items [])
    false ∈ out
  ∧ ∀ c, c ∈ out → expanded c = false.
Proof.
  intros Hin Hnone Hout.
  destruct (reconstruct_returned getTime _ _ _ Hout) as (_ & _ & Hperm & _).
  split.
  - rewrite Hperm. apply list_elem_of_fmap. exists conv. split; [|done].
    rewrite with_messages_spec.
    by rewrite (filter_none _ historyData Hnone).
  - intros c Hc. rewrite Hperm in Hc.
    by apply list_elem_of_fmap in Hc as (conv' & -> & _).
Qed.

(** Two elements in decreasing order of their keys. *)
Lemma sorted_pair {A} (key : A → Z) (a b : A) (l : list A) :
  l ≡ₚ [a; b] → key a < key b →
  StronglySorted (λ x y, key y ≤ key x) l → l = [b; a].
Proof.
  intros Hperm Hlt Hsorted.
  apply Permutation_sym, Permutation_length_2_inv in Hperm as [-> | ->]; [|done].
  inversion Hsorted as [|x l' _ Hall]; subst.
  inversion Hall as [|y l'' Hle _]; subst. lia.
Qed.

(** X25.  When no conversation id of a record or of a header is the
    name of an inherited member, the reconstruction returns one
    conversation per header: a permutation of the headers, each with the
    records that carry its id, in the order the backend returned them.
    When moreover every [started_at] is a date, the conversations are
    ordered by [started_at] descending, conversations of equal start
    keeping the order of the headers; so headers [c1 at t1; c2 at t2]
    with [t2] later than [t1] and records of [c1; c2; c2] give
    [c2 with its 2 records; c1 with its 1 record]. *)
Theorem reconstruct_groups_and_orders
    (conversationsData : list ConversationData) (historyData : list HistoryItem) :
  (∀ item, item ∈ historyData → Js.inherited (conversation_id item) = false) →
  (∀ conv, conv ∈ conversationsData →
     Js.inherited (data_conversation_id conv) = false) →
  (∃ out,
     reconstruct getTime conversationsData historyData = Some out
     ∧ out ≡ₚ map (grouped historyData) conversationsData
     ∧ length out = length conversationsData
     ∧ (∀ c, c ∈ out →
          messages c
          = Items (filter (λ i, conversation_id i = c_conversation_id c) historyData))
     ∧ ((∀ conv, conv ∈ conversationsData →
           is_Some (getTime (data_started_at conv))) →
        StronglySorted (λ a b, started getTime b ≤ started getTime a) out
        ∧ ∀ t, filter (λ c, started getTime c = t) out
               = filter (λ c, started getTime c = t)
                   (map (grouped historyData) conversationsData)))
  ∧ (∀ c1 t1 x1 c2 t2 x2 r1 r2 r3,
       c1 ≠ c2 → Js.inherited c1 = false → Js.inherited c2 = false →
       getTime t1 = Some x1 → getTime t2 = Some x2 → x1 < x2 →
       conversation_id r1 = c1 → conversation_id r2 = c2 → conversation_id r3 = c2 →
       reconstruct getTime
         [mkConversationData c1 t1; mkConversationData c2 t2] [r1; r2; r3]
       = Some [mkConversation c2 t2 (Items [r2; r3]) false;
               mkConversation c1 t1 (Items [r1]) false]).
Proof.
  assert (Hgeneral : ∀ cd hd,
    (∀ item, item ∈ hd → Js.inherited (conversation_id item) = false) →
    (∀ conv, conv ∈ cd → Js.inherited (data_conversation_id conv) = false) →
    ∃ out,
      reconstruct getTime cd hd = Some out
      ∧ out ≡ₚ map (grouped hd) cd
      ∧ length out = length cd
      ∧ (∀ c, c ∈ out →
           messages c = Items (filter (λ i, conversation_id i = c_conversation_id c) hd))
      ∧ ((∀ conv, conv ∈ cd → is_Some (getTime (data_started_at conv))) →
         StronglySorted (λ a b, started getTime b ≤ started getTime a) out
         ∧ ∀ t, filter (λ c, started getTime c = t) out
                = filter (λ c, started getTime c = t) (map (grouped hd) cd))).
  { intros cd hd Hrecords Hheaders.
    assert (Hmap : map (with_messages (foldl add_item ∅ hd)) cd = map (grouped hd) cd).
    { apply map_ext_in. intros conv Hconv. apply with_messages_grouped.
      by apply Hheaders, list_elem_of_In. }
    eexists. split; [by apply reconstruct_returns|]. rewrite Hmap.
    assert (Hperm := Js.Array_sort_perm _ (by_most_recent getTime) (map (grouped hd) cd)).
    split; [exact Hperm|].
    split; [by rewrite Hperm, length_map|].
    split.
    { intros c Hc. rewrite Hperm in Hc.
      apply list_elem_of_fmap in Hc as (conv & -> & _). done. }
    intros Hdates.
    assert (Hdesc : Js.descending (by_most_recent getTime) (started getTime)
                      (map (grouped hd) cd)).
    { apply by_most_recent_descending. intros c Hc.
      apply list_elem_of_fmap in Hc as (conv & -> & Hconv). by apply Hdates. }
    split; [by apply Js.Array_sort_sorted|].
    intros t. by apply Js.Array_sort_stable. }
  intros Hrecords Hheaders.
  split; [by apply Hgeneral|].
  intros c1 t1 x1 c2 t2 x2 r1 r2 r3 Hne Hk1 Hk2 Ht1 Ht2 Hlt H1 H2 H3.
  destruct (Hgeneral [mkConversationData c1 t1; mkConversationData c2 t2] [r1; r2; r3])
    as (out & Hout & Hperm & _ & _ & Hordered).
  - intros item Hin. apply list_elem_of_In in Hin. simpl in Hin.
    destruct Hin as [<- | [<- | [<- | []]]]; congruence.
  - intros conv Hin. apply list_elem_of_In in Hin. simpl in Hin.
    by destruct Hin as [<- | [<- | []]].
  - destruct Hordered as (Hsorted & _).
    { intros conv Hin. apply list_elem_of_In in Hin. simpl in Hin.
      destruct Hin as [<- | [<- | []]]; simpl; eauto. }
    rewrite Hout. f_equal.
    assert (Hg : map (grouped [r1; r2; r3])
                   [mkConversationData c1 t1; mkConversationData c2 t2]
                 = [mkConversation c1 t1 (Items [r1]) false;
                    mkConversation c2 t2 (Items [r2; r3]) false]).
    { unfold grouped. simpl. rewrite !filter_cons, !filter_nil.
      repeat case_decide; congruence. }
    rewrite Hg in Hperm.
    apply (sorted_pair (started getTime) _ _ out Hperm); [|exact Hsorted].
    unfold started. simpl. by rewrite Ht1, Ht2.
Qed.

(** X26.  When no conversation id of a record is the name of an
    inherited member, a record whose conversation id is the id of no
    header is in the messages of no conversation of the result, and
    [fetchConversations] completes on its success path: the result is
    stored, the loading flag is lowered and no error is reported. *)
Theorem orphan_record_is_dropped
    (conversationsData : list ConversationData) (historyData : list HistoryItem)
    (s : State) (item : HistoryItem) :
  (∀ record, record ∈ historyData → Js.inherited (conversation_id record) = false) →
  item ∈ historyData →
  conversation_id item ∉ map data_conversation_id conversationsData →
  let s' := fetchConversations_settled getTime (Both conversationsData historyData) s in
  reconstruct getTime conversationsData historyData = Some (conversations s')
  ∧ length (conversations s') = length conversationsData
  ∧ toasts s' = toasts s
  ∧ isLoading s' = false
  ∧ ∀ c, c ∈ conversations s' → ¬ holds c item.
Proof.
  intros Hrecords Hin Horphan s'. subst s'. unfold fetchConversations_settled.
  rewrite (reconstruct_returns getTime conversationsData historyData Hrecords).
  destruct (reconstruct_returned getTime _ _ _
              (reconstruct_returns getTime conversationsData historyData Hrecords))
    as (_ & _ & Hperm & Hlen).
  cbn [conversations toasts isLoading].
  repeat split; try done.
  intros c Hc Hitem. apply Horphan.
  rewrite Hperm in Hc.
  apply list_elem_of_fmap in Hc as (conv & -> & Hconv).
  unfold holds in Hitem. rewrite with_messages_spec in Hitem. simpl in Hitem.
  assert (Hid : conversation_id item = data_conversation_id conv).
  { destruct (filter (λ i, conversation_id i = data_conversation_id conv) historyData)
      as [|first rest] eqn:Hf.
    - destruct (Js.inherited (data_conversation_id conv)); [done|].
      by apply elem_of_nil in Hitem.
    - rewrite <- Hf in Hitem. by apply list_elem_of_filter in Hitem as [Hid _]. }
  rewrite Hid. apply list_elem_of_fmap. by exists conv.
Qed.

End HistoryFacts.

Section HistoryViewFacts.
Import History.
Context {engine : Js.Engine} {conforms : Js.Conforms engine}.

Lemma toggled_involutive conversationId conv :
  toggled conversationId (toggled conversationId conv) = conv.
Proof.
  unfold toggled. destruct conv as [i st ms e].
  repeat (case_decide; simpl in *); try done. by rewrite negb_involutive.
Qed.

Lemma toggled_messages conversationId conv :
  messages (toggled conversationId conv) = messages conv
  ∧ c_conversation_id (toggled conversationId conv) = c_conversation_id conv
  ∧ c_started_at (toggled conversationId conv) = c_started_at conv.
Proof. unfold toggled. by case_decide. Qed.

(** X3.  Toggling a conversation twice restores the page state; a
    toggle changes neither the ids, the start times, the messages nor the
    order of the conversations, nor the loading flag, the search text or
    the toasts; toggling an id that no conversation has changes nothing. *)
Theorem toggleConversation_twice_restores (conversationId : string) (s : State) :
  toggleConversation conversationId (toggleConversation conversationId s) = s
  ∧ map c_conversation_id (conversations (toggleConversation conversationId s))
    = map c_conversation_id (conversations s)
  ∧ map c_started_at (conversations (toggleConversation conversationId s))
    = map c_started_at (conversations s)
  ∧ map messages (conversations (toggleConversation conversationId s))
    = map messages (conversations s)
  ∧ isLoading (toggleConversation conversationId s) = isLoading s
  ∧ searchQuery (toggleConversation conversationId s) = searchQuery s
  ∧ toasts (toggleConversation conversationId s) = toasts s
  ∧ (conversationId ∉ map c_conversation_id (conversations s) →
     toggleConversation conversationId s = s).
Proof.
  destruct s as [cs l q t]. unfold toggleConversation, setConversations. simpl.
  split.
  { f_equal. rewrite map_map. rewrite <- (map_id cs) at 2.
    apply map_ext. apply toggled_involutive. }
  rewrite !map_map.
  split; [apply map_ext; intros c; apply toggled_messages|].
  split; [apply map_ext; intros c; apply toggled_messages|].
  split; [apply map_ext; intros c; apply toggled_messages|].
  do 3 (split; [done|]).
  intros Hno. f_equal. rewrite <- (map_id cs) at 2.
  apply map_ext_in. intros c Hc. unfold toggled.
  case_decide as Hid; [|done]. exfalso. apply Hno.
  apply list_elem_of_fmap. exists c. split; [done|]. by apply list_elem_of_In.
Qed.

Lemma message_matches_spec searchQuery msg :
  message_matches searchQuery msg = true
  ↔ contains_ignoring_case (question msg) searchQuery
    ∨ contains_ignoring_case (response msg) searchQuery.
Proof.
  unfold message_matches, contains_ignoring_case.
  by rewrite orb_true_iff, !includes_spec.
Qed.

Lemma List_filter_sublist {A} (f : A → bool) (l : list A) :
  List.filter f l `sublist_of` l.
Proof.
  induction l as [|x l IH]; simpl; [constructor|].
  destruct (f x); by constructor.
Qed.

(** A filter whose predicate can throw: it throws when the predicate
    throws on an element, and otherwise keeps the elements on which the
    predicate returns [true]. *)
Lemma Array_filter_thrown {A} (predicate : A → option bool) (l : list A) :
  Js.Array_filter predicate l = None ↔ ∃ x, x ∈ l ∧ predicate x = None.
Proof.
  induction l as [|x l IH]; simpl.
  - split; [done|]. intros (x & Hx & _). by apply elem_of_nil in Hx.
  - destruct (predicate x) as [keep|] eqn:Hp.
    + destruct (Js.Array_filter predicate l) as [kept|] eqn:Hl.
      * split; [done|]. intros (y & Hy & Hnone).
        apply elem_of_cons in Hy as [-> | Hy]; [congruence|].
        assert (Hcontra : Some kept = None) by (apply (proj2 IH); eauto).
        done.
      * split; [intros _|done].
        destruct (proj1 IH eq_refl) as (y & Hy & Hnone). exists y. split; [by right|done].
    + split; [intros _|done]. exists x. split; [left | done].
Qed.

Lemma Array_filter_returned {A} (predicate : A → option bool) (l out : list A) :
  Js.Array_filter predicate l = Some out →
  out = List.filter (λ x, default false (predicate x)) l.
Proof.
  revert out. induction l as [|x l IH]; intros out; simpl; [by intros [= <-]|].
  destruct (predicate x) as [keep|]; [|done].
  destruct (Js.Array_filter predicate l) as [kept|]; [|done].
  intros [= <-]. simpl. rewrite <- (IH kept eq_refl). by destruct keep.
Qed.


(** X4.  The list shown under a search text.  With an empty text it is
    every conversation.  With a text, the render throws exactly when the
    messages of some conversation are an inherited member; otherwise the
    list shown holds exactly the conversations one of whose messages
    contains the text in its question or its response, both taken in
    lower case.  The shown list is a sub-list of the conversations, in
    their order, and under a search text a conversation without messages
    is never shown. *)
Theorem filteredConversations_exact (s : State) (c : Conversation) :
  (filteredConversations s = None
   ↔ searchQuery s ≠ ""
     ∧ ∃ conv name, conv ∈ conversations s ∧ messages conv = Member name)
  ∧ ∀ shown, filteredConversations s = Some shown →
      (c ∈ shown
       ↔ c ∈ conversations s
         ∧ (searchQuery s = ""
            ∨ ∃ items msg, messages c = Items items ∧ msg ∈ items
                ∧ (contains_ignoring_case (question msg) (searchQuery s)
                   ∨ contains_ignoring_case (response msg) (searchQuery s))))
      ∧ shown `sublist_of` conversations s
      ∧ (searchQuery s ≠ "" → c ∈ shown →
         ∃ items, messages c = Items items ∧ items ≠ []).
Proof.
  unfold filteredConversations.
  destruct (searchQuery s) as [|ch q] eqn:Hq; simpl.
  { split; [split; [done | by intros [? _]]|].
    intros shown [= <-]. split; [|split; [done|done]].
    split; [intros Hc; split; [done | by left] | by intros [Hc _]]. }
  set (query := String ch q).
  split.
  { rewrite Array_filter_thrown. unfold some_matches. split.
    - intros (conv & Hin & Hnone). split; [done|].
      destruct (messages conv) as [items|name] eqn:Hm; [done|]. eauto.
    - intros (_ & conv & name & Hin & Hm). exists conv. split; [done|].
      by rewrite Hm. }
  intros shown Hshown.
  assert (Hall : ∀ conv, conv ∈ conversations s →
                   ∃ items, messages conv = Items items).
  { intros conv Hin. destruct (messages conv) as [items|name] eqn:Hm; [eauto|].
    assert (Hnone : Js.Array_filter (some_matches query) (conversations s) = None).
    { apply Array_filter_thrown. exists conv. split; [done|].
      unfold some_matches. by rewrite Hm. }
    congruence. }
  apply Array_filter_returned in Hshown. subst shown.
  assert (Hiff : c ∈ List.filter (λ x, default false (some_matches query x))
                       (conversations s)
     ↔ c ∈ conversations s
       ∧ ∃ items msg, messages c = Items items ∧ msg ∈ items
           ∧ (contains_ignoring_case (question msg) query
              ∨ contains_ignoring_case (response msg) query)).
  { rewrite list_elem_of_In, filter_In, <- list_elem_of_In. unfold some_matches.
    split.
    - intros (Hc & Hmatch). split; [done|].
      destruct (Hall c Hc) as (items & Hm). rewrite Hm in Hmatch. simpl in Hmatch.
      apply existsb_exists in Hmatch as (msg & Hin & Hmatch).
      exists items, msg. split; [done|]. split; [by apply list_elem_of_In|].
      by apply message_matches_spec.
    - intros (Hc & items & msg & Hm & Hin & Hmatch). split; [done|].
      rewrite Hm. simpl. apply existsb_exists. exists msg.
      split; [by apply list_elem_of_In|]. by apply message_matches_spec. }
  split; [|split].
  - rewrite Hiff. split.
    + intros (Hc & Hex). split; [done | by right].
    + intros (Hc & [Hemp | Hex]); [done|]. by split.
  - apply List_filter_sublist.
  - intros _ Hc. apply Hiff in Hc as (_ & items & msg & Hm & Hin & _).
    exists items. split; [done|]. intros Hnil. rewrite Hnil in Hin.
    by apply elem_of_nil in Hin.
Qed.


(** X6.  The link of a reconstructed conversation leads to the file of
    the first record of that conversation in the order the backend
    returned the records, whatever files its later records name; for a
    conversation without records the file part of the link is the word
    [undefined]. *)
Theorem continue_link_of_reconstructed
    (getTime : string → Js.Number) (conversationsData : list ConversationData)
    (historyData : list HistoryItem) (out : list Conversation) (c : Conversation) :
  reconstruct getTime conversationsData historyData = Some out →
  c ∈ out →
  continue_link c
  = String.append "/chat/"
      (String.append
         (match filter (λ i, conversation_id i = c_conversation_id c) historyData with
          | first :: _ => file_id first
          | [] => "undefined"
          end)
         (String.append "?conversationId=" (c_conversation_id c)))
  ∧ ((∀ item, item ∈ historyData → conversation_id item ≠ c_conversation_id c) →
     continue_link c
     = String.append "/chat/undefined?conversationId=" (c_conversation_id c)).
Proof.
  intros Hout Hc.
  destruct (reconstruct_returned getTime _ _ _ Hout) as (_ & _ & Hperm & _).
  rewrite Hperm in Hc. apply list_elem_of_fmap in Hc as (conv & -> & _).
  rewrite with_messages_spec. unfold continue_link. cbn [messages c_conversation_id].
  assert (Hlink : match
                    match filter (λ i, conversation_id i = data_conversation_id conv)
                            historyData with
                    | [] => if Js.inherited (data_conversation_id conv)
                            then Member (data_conversation_id conv) else Items []
                    | group => Items group
                    end
                  with
                  | Items (first :: _) => file_id first
                  | Items [] | Member _ => "undefined"
                  end
                  = match filter (λ i, conversation_id i = data_conversation_id conv)
                            historyData with
                    | first :: _ => file_id first
                    | [] => "undefined"
                    end).
  { destruct (filter _ historyData); [|done]. by destruct (Js.inherited _). }
  rewrite Hlink. split; [done|].
  intros Hnone. by rewrite (filter_none _ historyData Hnone).
Qed.

End HistoryViewFacts.

(** ** The processing queue *)

Section QueueFacts.
Import ProcessingQueue.
Context {engine : Js.Engine} {conforms : Js.Conforms engine}.

Lemma queued_spec job :
  queued job = true ↔ status job = "uploaded" ∨ status job = "processing".
Proof. unfold queued. by rewrite orb_true_iff, !String.eqb_eq. Qed.

Lemma run_snoc events e s : run (events ++ [e]) s = step e (run events s).
Proof. unfold run. by rewrite foldl_app. Qed.

Lemma step_keeps_queued e s :
  Forall (λ job, queued job = true) (jobs s) →
  Forall (λ job, queued job = true) (jobs (step e s)).
Proof.
  intros Hs. destruct e as [[allJobs|]| |]; simpl; try done.
  apply Forall_forall. intros job Hjob.
  by apply list_elem_of_In, filter_In in Hjob as [_ Hq].
Qed.

Lemma run_keeps_queued events s :
  Forall (λ job, queued job = true) (jobs s) →
  Forall (λ job, queued job = true) (jobs (run events s)).
Proof.
  revert s. induction events as [|e events IH]; intros s Hs; [done|].
  apply (IH (step e s)). by apply step_keeps_queued.
Qed.

(** X7.  Whatever the fetches answer and whatever the user does, the
    page only ever holds, and therefore only ever shows, jobs whose
    status is [uploaded] or [processing]; the icon of a shown row is
    never the default one. *)
Theorem queue_holds_only_queued_jobs (events : list Event) (job : Job) :
  (job ∈ jobs (run events initial) →
   status job = "uploaded" ∨ status job = "processing")
  ∧ (job ∈ filteredJobs (run events initial) →
     (status job = "uploaded" ∨ status job = "processing")
     ∧ statusIcon (status job) ≠ FileSpreadsheet).
Proof.
  assert (Hall : Forall (λ job, queued job = true) (jobs (run events initial)))
    by (apply run_keeps_queued; constructor).
  rewrite Forall_forall in Hall.
  assert (Hjobs : job ∈ jobs (run events initial) →
                  status job = "uploaded" ∨ status job = "processing").
  { intros Hin. by apply queued_spec, Hall. }
  split; [exact Hjobs|].
  intros Hin. apply list_elem_of_In, filter_In in Hin as [Hin _].
  apply list_elem_of_In in Hin. specialize (Hjobs Hin).
  split; [done|]. unfold statusIcon. by destruct Hjobs as [-> | ->].
Qed.

Lemma loading_after_run events s :
  loading (run events s) = true
  ↔ loading s = true ∧ Forall (λ e, ¬ is_settlement e) events.
Proof.
  revert s. induction events as [|e events IH]; intros s.
  - split; [intros H; split; [done | constructor] | by intros [H _]].
  - change (run (e :: events) s) with (run events (step e s)).
    rewrite IH, Forall_cons.
    destruct e as [[allJobs|]| |]; simpl; intuition discriminate.
Qed.

(** X8.  The spinner is shown from the first render until the first
    request of [fetchJobs] settles, fulfilled or rejected, and never
    again: a refresh does not bring it back.  Once it is gone the card
    shows either a table, which then has at least one row and holds the
    rows of [filteredJobs], or the empty notice, whose second line tells
    of the search exactly when the search box is not empty. *)
Theorem queue_view_cases (events : list Event) :
  (view (run events initial) = Spinner ↔ Forall (λ e, ¬ is_settlement e) events)
  ∧ (∀ rows, view (run events initial) = Table rows →
       rows ≠ [] ∧ rows = filteredJobs (run events initial))
  ∧ (∀ notice, view (run events initial) = Empty notice →
       filteredJobs (run events initial) = []
       ∧ (notice = "No results match your search"
          ↔ searchTerm (run events initial) ≠ "")).
Proof.
  set (s := run events initial).
  assert (Hload := loading_after_run events initial). fold s in Hload.
  split; [|split].
  - assert (Hview : view s = Spinner ↔ loading s = true).
    { unfold view. destruct (loading s); [done|]. by destruct (filteredJobs s). }
    rewrite Hview, Hload. simpl. tauto.
  - intros rows. unfold view. destruct (loading s); [done|].
    destruct (filteredJobs s); [done|]. by intros [= <-].
  - intros notice. unfold view. destruct (loading s); [done|].
    destruct (filteredJobs s); [|done]. intros [= <-]. split; [done|].
    by destruct (searchTerm s).
Qed.

(** X9.  The rows after a fulfilled fetch are exactly the fetched jobs
    that are uploaded or processing and whose file name contains the
    search text, both taken in lower case, in the order of the answer; a
    rejected fetch leaves the rows as they were. *)
Theorem queue_rows_after_fetch (allJobs : list Job) (s : State) (job : Job) :
  (job ∈ filteredJobs (fetchJobs_settled (Some allJobs) s)
   ↔ job ∈ allJobs
     ∧ (status job = "uploaded" ∨ status job = "processing")
     ∧ History.contains_ignoring_case (original_filename job) (searchTerm s))
  ∧ filteredJobs (fetchJobs_settled (Some allJobs) s) `sublist_of` allJobs
  ∧ filteredJobs (fetchJobs_settled None s) = filteredJobs s.
Proof.
  split; [|split; [|done]].
  - unfold filteredJobs, fetchJobs_settled. simpl.
    rewrite list_elem_of_In, !filter_In, <- list_elem_of_In.
    rewrite queued_spec, includes_spec. unfold History.contains_ignoring_case.
    tauto.
  - unfold filteredJobs, fetchJobs_settled. simpl.
    etransitivity; apply List_filter_sublist.
Qed.

End QueueFacts.

(** ** The route handlers *)

Section RouteFacts.
Import ApiRoute.
Context {Body : Type} (error_of : Body → option string).

Lemma error_or_truthy data fallback :
  Js.truthy fallback = true → Js.truthy (error_or Body error_of data fallback) = true.
Proof.
  intros Hf. unfold error_or. destruct (error_of data) as [e|]; [|done].
  by destruct (Js.truthy e) eqn:He.
Qed.

Lemma relay_ok fallback upstream :
  ok (status Body (relay Body error_of fallback upstream)) = true
  ↔ ∃ st data, upstream = Replied Body st data ∧ ok st = true.
Proof.
  destruct upstream as [st data|]; simpl.
  - destruct (ok st) eqn:Hok; simpl.
    + split; [intros _; by exists st, data | done].
    + rewrite Hok. split; [done|]. intros (st' & data' & [= <- <-] & H). congruence.
  - split; [done | by intros (st & data & H & _)].
Qed.

(** X10.  A token route (start-conversation, conversations, chat with a
    readable body) answers 401 and does not contact the backend when the
    Authorization header is missing or empty; otherwise it makes exactly
    one backend request, carrying the header unchanged.  Its answer has a
    success status only when the backend answered with one, and is then
    the backend's data with status 200; a backend error keeps the
    backend's status; and the error text of an answer is never empty. *)
Theorem token_route_relays {B : Type} (fallback path : string)
    (token : option string) (body : option B) (upstream : Upstream Body) :
  Js.truthy fallback = true →
  let answer := (with_token Body error_of fallback path token body upstream).1 in
  let calls := (with_token Body error_of fallback path token body upstream).2 in
  (truthy token = false → answer = unauthorized Body ∧ calls = [])
  ∧ (truthy token = true → calls = [mkForwarded path token body])
  ∧ (ok (status Body answer) = true
     ↔ truthy token = true ∧ ∃ st data, upstream = Replied Body st data ∧ ok st = true)
  ∧ (∀ st data, truthy token = true → upstream = Replied Body st data →
       if ok st then answer = mkResponse Body 200 (Data Body data)
       else status Body answer = st)
  ∧ (∀ message, payload Body answer = Error Body message → Js.truthy message = true).
Proof.
  intros Hf answer calls. subst answer calls. unfold with_token, truthy.
  destruct token as [t|]; [destruct (Js.truthy t) eqn:Ht|]; simpl.
  - split; [done|]. split; [done|]. split; [|split].
    + rewrite relay_ok. tauto.
    + intros st data _ ->. simpl. by destruct (ok st).
    + intros message. destruct upstream as [st data|]; simpl.
      * destruct (ok st); simpl; [done|]. intros [= <-]. by apply error_or_truthy.
      * by intros [= <-].
  - split; [done|]. split; [done|]. split; [|split]; try done.
    + split; [done | by intros [? _]].
    + by intros message [= <-].
  - split; [done|]. split; [done|]. split; [|split]; try done.
    + split; [done | by intros [? _]].
    + by intros message [= <-].
Qed.

(** X11.  The chat route reads the request body before it looks at the
    token: an unreadable body is answered 500 without a backend request,
    token or not; with a readable body the route is the token route on
    path [/chat] and passes on the question and the conversation id.
    The login route answers 400 without a backend request when the email
    or the password is missing or empty, and otherwise makes one request
    to [/login] without an Authorization header. *)
Theorem chat_and_login_routes
    (token : option string) (upstream : Upstream Body)
    (json : ChatJson) (credentials : Credentials) :
  chat_POST Body error_of None token upstream = (internal_error Body, [])
  ∧ (truthy token = false →
     chat_POST Body error_of (Some json) token upstream = (unauthorized Body, []))
  ∧ (truthy token = true →
     (chat_POST Body error_of (Some json) token upstream).2
     = [mkForwarded "/chat" token (Some json)])
  ∧ (truthy (email credentials) = false ∨ truthy (password credentials) = false →
     login_POST Body error_of (Some credentials) upstream
     = (mkResponse Body 400 (Error Body "Email and password required"), []))
  ∧ (truthy (email credentials) = true → truthy (password credentials) = true →
     (login_POST Body error_of (Some credentials) upstream).2
     = [mkForwarded "/login" None (Some credentials)]
     ∧ (ok (status Body (login_POST Body error_of (Some credentials) upstream).1) = true
        ↔ ∃ st data, upstream = Replied Body st data ∧ ok st = true)).
Proof.
  split; [done|]. unfold chat_POST, with_token, login_POST, truthy.
  split.
  { intros Ht. destruct token as [t|]; [by rewrite Ht | done]. }
  split.
  { intros Ht. destruct token as [t|]; [by rewrite Ht | done]. }
  split.
  - intros [-> | ->]; simpl; [done|]. by rewrite orb_true_r.
  - intros -> ->. simpl. split; [done|].
    apply (relay_ok "Invalid credentials" upstream).
Qed.

End RouteFacts.

(** ** The file-bound chat page: starting and resuming *)

Section StartFacts.
Import RagChat.
Context {engine : Js.Engine} {conforms : Js.Conforms engine}.

Lemma commit_changed files_changed before after :
  selectedFile before ≠ selectedFile after
  ∨ conversationId before ≠ conversationId after →
  commit files_changed before after = selection_effect after.
Proof.
  intros H. unfold commit, same.
  destruct H as [H | H]; rewrite (bool_decide_eq_false_2 _ H); simpl;
    by rewrite ?orb_true_r.
Qed.

Lemma selection_effect_found s sel file :
  selectedFile s = Some sel → Js.truthy sel = true →
  List.find (λ f, String.eqb (file_id f) sel) (files s) = Some file →
  selection_effect s
  = (setSelectedFileName (filename file) s,
     if truthy (conversationId s) then [] else [StartConversation (selectedFileName s)]).
Proof.
  intros Hs Ht Hf. unfold selection_effect, initializeConversation, truthy.
  by rewrite Hs, Ht, Hf.
Qed.

Lemma lookup_snoc_length {A} (l : list A) (x : A) : (l ++ [x]) !! length l = Some x.
Proof. by rewrite lookup_app_r, Nat.sub_diag by done. Qed.

(** X12.  Selecting another file that is in the list issues exactly one
    start request.  When it is answered the conversation id is the
    answered one and the transcript is the single welcome message; the
    file name in that message is the name the page held when the file
    was selected, that of the file shown before, while the page's file
    name is by then the new file's. *)
Theorem file_change_starts_conversation
    (env1 env2 : Env) (w : World) (newFileId conversation_id : string) (file : FileItem) :
  selectedFile (state w) ≠ Some newFileId →
  Js.truthy newFileId = true →
  Js.truthy conversation_id = true →
  List.find (λ f, String.eqb (file_id f) newFileId) (files (state w)) = Some file →
  let k := length (pending w) in
  let w1 := step env1 (FileChange newFileId) w in
  let w2 := step env2 (Settle k (StartReply conversation_id)) w1 in
  pending w1 = pending w ++ [StartConversation (selectedFileName (state w))]
  ∧ selectedFileName (state w1) = filename file
  ∧ conversationId (state w2) = Some conversation_id
  ∧ messages (state w2) = [welcomeMessage env2 (selectedFileName (state w))]
  ∧ content (welcomeMessage env2 (selectedFileName (state w)))
    = welcome_text (selectedFileName (state w))
  ∧ selectedFileName (state w2) = filename file
  ∧ selectedFile (state w2) = Some newFileId
  ∧ pending w2 = pending w.
Proof.
  intros Hnew Ht Hid Hfind k w1 w2.
  set (s1 := handleFileChange newFileId (state w)).
  assert (He1 : commit false (state w) s1
                = (setSelectedFileName (filename file) s1,
                   [StartConversation (selectedFileName (state w))])).
  { rewrite commit_changed by (left; simpl; congruence).
    by rewrite (selection_effect_found s1 newFileId file). }
  assert (Hw1 : w1 = mkWorld (setSelectedFileName (filename file) s1)
                       (pending w ++ [StartConversation (selectedFileName (state w))])).
  { subst w1. rewrite step_FileChange. fold s1. by rewrite He1. }
  assert (Hp1 : pending w1 !! k = Some (StartConversation (selectedFileName (state w)))).
  { rewrite Hw1. apply lookup_snoc_length. }
  set (s2 := start_fulfilled env2 (selectedFileName (state w)) conversation_id (state w1)).
  assert (Hw2 := step_Settle env2 k (StartReply conversation_id) w1 _ _ _ _ Hp1 eq_refl).
  fold w2 s2 in Hw2.
  assert (He2 : commit false (state w1) s2
                = (setSelectedFileName (filename file) s2, [])).
  { rewrite commit_changed by (right; rewrite Hw1; simpl; congruence).
    rewrite (selection_effect_found s2 newFileId file).
    - unfold s2. simpl. by rewrite Hid.
    - unfold s2. by rewrite Hw1.
    - exact Ht.
    - unfold s2. rewrite Hw1. exact Hfind. }
  rewrite He2 in Hw2. rewrite Hw2, Hw1. cbn [state pending fst snd].
  unfold k. rewrite delete_middle, !app_nil_r.
  unfold s2. rewrite Hw1. simpl. repeat split; done.
Qed.

(** A send is rejected while there is no conversation id, through both
    controls. *)
Lemma step_send_unbound env w e :
  e = ClickSend ∨ e = PressEnter →
  truthy (conversationId (state w)) = false → step env e w = w.
Proof.
  intros He Hc.
  assert (Hs : handleSendMessage env (state w) = (state w, [])).
  { apply handleSendMessage_rejected.
    unfold send_guard. rewrite Hc. apply orb_true_r. }
  destruct w as [s ps]. simpl in *.
  destruct He as [-> | ->]; unfold step; simpl; rewrite Hs;
    case_match; try done;
    rewrite commit_unchanged by done; simpl; by rewrite app_nil_r.
Qed.

(** X13.  A start request that fails is not retried: the failure adds
    one toast and changes nothing else, no further request is issued,
    and, the session having no conversation id, every send through
    either control is then rejected. *)
Theorem failed_start_is_not_retried
    (env env' : Env) (w : World) (k : nat) (fileName : string) (e : Event) :
  pending w !! k = Some (StartConversation fileName) →
  truthy (conversationId (state w)) = false →
  e = ClickSend ∨ e = PressEnter →
  let w' := step env (Settle k Failure) w in
  state w' = showToast "Failed to start conversation" "error" (state w)
  ∧ pending w' = delete k (pending w)
  ∧ step env' e w' = w'.
Proof.
  intros Hp Hc He w'.
  assert (Hw := step_Settle env k Failure w _ _ _ _ Hp eq_refl). fold w' in Hw.
  rewrite commit_unchanged in Hw by done. cbn [fst snd] in Hw.
  rewrite !app_nil_r in Hw.
  split; [by rewrite Hw|]. split; [by rewrite Hw|].
  apply step_send_unbound; [done|]. by rewrite Hw.
Qed.

Lemma step_Location env convId w :
  truthy (selectedFile (state w)) = true →
  Js.truthy convId = true →
  step env (Location convId) w
  = mkWorld
      (commit false (state w)
         (setConversationId (Some convId) (setIsLoading true (state w)))).1
      (pending w ++ [GetConversationMessages convId (selectedFileName (state w))]).
Proof.
  intros Hf Hc. unfold step, location_effect, loadExistingConversation.
  rewrite Hc, Hf. cbv beta iota zeta. f_equal.
  rewrite commit_started by (simpl; exact Hc). by rewrite app_nil_r.
Qed.

(** X14.  When the history of a deep-linked conversation cannot be
    loaded, the page shows one toast, lowers the loading flag, keeps
    the transcript and, for the time being, the id it could not load, and
    issues a start request; when that is answered the session is bound to
    the new conversation and the transcript is its welcome message. *)
Theorem failed_load_falls_back_to_start
    (env1 env2 env3 : Env) (w : World) (convId conversation_id : string) :
  truthy (selectedFile (state w)) = true →
  Js.truthy convId = true →
  Js.truthy conversation_id = true →
  let k := length (pending w) in
  let w1 := step env1 (Location convId) w in
  let w2 := step env2 (Settle k Failure) w1 in
  let w3 := step env3 (Settle k (StartReply conversation_id)) w2 in
  pending w2 = pending w ++ [StartConversation (selectedFileName (state w))]
  ∧ conversationId (state w2) = Some convId
  ∧ isLoading (state w2) = false
  ∧ toasts (state w2)
    = toasts (state w) ++ [("Failed to load conversation history", "error")]
  ∧ messages (state w2) = messages (state w)
  ∧ conversationId (state w3) = Some conversation_id
  ∧ messages (state w3) = [welcomeMessage env3 (selectedFileName (state w))]
  ∧ pending w3 = pending w.
Proof.
  intros Hf Hc Hid k w1 w2 w3.
  set (name := selectedFileName (state w)).
  assert (Hw1 := step_Location env1 convId w Hf Hc). fold w1 name in Hw1.
  destruct (commit_frame false (state w)
              (setConversationId (Some convId) (setIsLoading true (state w))))
    as (Hm1 & Hc1 & Hf1 & _ & _ & _ & _ & Ht1).
  assert (Hp1 : pending w1 !! k = Some (GetConversationMessages convId name)).
  { rewrite Hw1. apply lookup_snoc_length. }
  assert (Hw2 := step_Settle env2 k Failure w1 _ _ _ _ Hp1 eq_refl). fold w2 in Hw2.
  rewrite commit_unchanged in Hw2 by done. cbn [fst snd] in Hw2.
  assert (Hpw2 : pending w2 = pending w ++ [StartConversation name]).
  { rewrite Hw2, Hw1. cbn [pending]. unfold k.
    by rewrite delete_middle, !app_nil_r. }
  assert (Hs2 : state w2
                = setIsLoading false
                    (showToast "Failed to load conversation history" "error" (state w1)))
    by (by rewrite Hw2).
  assert (Hp2 : pending w2 !! k = Some (StartConversation name)).
  { rewrite Hpw2. apply lookup_snoc_length. }
  assert (Hw3 := step_Settle env3 k (StartReply conversation_id) w2 _ _ _ _ Hp2 eq_refl).
  fold w3 in Hw3.
  destruct (commit_frame false (state w2)
              (start_fulfilled env3 name conversation_id (state w2)))
    as (Hm3 & Hc3 & _).
  split; [done|].
  split; [rewrite Hs2, Hw1; simpl; by rewrite Hc1|].
  split; [by rewrite Hs2|].
  split; [rewrite Hs2, Hw1; simpl; by rewrite Ht1|].
  split; [rewrite Hs2, Hw1; simpl; by rewrite Hm1|].
  rewrite Hw3. cbn [state pending].
  split; [by rewrite Hc3|]. split; [by rewrite Hm3|].
  rewrite commit_started by (simpl; exact Hid).
  rewrite Hpw2. unfold k. by rewrite delete_middle, !app_nil_r.
Qed.

End StartFacts.

(** ** The file-bound chat page: files, provider, text *)

Section PageFacts.
Import RagChat.
Context {engine : Js.Engine} {conforms : Js.Conforms engine}.

(** X15.  When the list of files arrives, the page shows it; if no file
    was selected when the page was first rendered it selects the first
    file of the list, takes its name and, unless a conversation id is
    set, issues one start request; if a file was selected the selection
    is kept.  An empty list selects nothing and issues nothing. *)
Theorem files_load_selects_first_file
    (env : Env) (w : World) (k : nat) (selected : option string)
    (first : FileItem) (rest : list FileItem) :
  pending w !! k = Some (GetUserFiles selected) →
  let w' := step env (Settle k (FilesReply (first :: rest))) w in
  let w0 := step env (Settle k (FilesReply [])) w in
  files (state w') = first :: rest
  ∧ (truthy selected = true → selectedFile (state w') = selectedFile (state w))
  ∧ (truthy selected = false → selectedFile (state w') = Some (file_id first))
  ∧ (truthy selected = false → Js.truthy (file_id first) = true →
     selectedFileName (state w') = filename first
     ∧ pending w'
       = delete k (pending w)
         ++ (if truthy (conversationId (state w)) then []
             else [StartConversation (selectedFileName (state w))]))
  ∧ files (state w0) = []
  ∧ selectedFile (state w0) = selectedFile (state w)
  ∧ pending w0 = delete k (pending w).
Proof.
  intros Hp w' w0.
  assert (Hw' := step_Settle env k (FilesReply (first :: rest)) w _ _ _ _ Hp eq_refl).
  assert (Hw0 := step_Settle env k (FilesReply []) w _ _ _ _ Hp eq_refl).
  fold w' in Hw'. fold w0 in Hw0.
  set (s' := files_fulfilled selected (first :: rest) (state w)) in *.
  destruct (commit_frame true (state w) s') as (_ & _ & Hf & _ & _ & _ & Hfs & _).
  split; [rewrite Hw'; cbn [state]; rewrite Hfs; unfold s'; simpl; by case_match|].
  split; [intros Ht; rewrite Hw'; cbn [state]; rewrite Hf; unfold s'; simpl;
          by rewrite Ht|].
  split; [intros Ht; rewrite Hw'; cbn [state]; rewrite Hf; unfold s'; simpl;
          by rewrite Ht|].
  split.
  { intros Ht Hid.
    assert (Hs' : s' = setSelectedFile (Some (file_id first))
                         (setFiles (first :: rest) (state w)))
      by (unfold s'; simpl; by rewrite Ht).
    assert (He : commit true (state w) s'
                 = (setSelectedFileName (filename first) s',
                    if truthy (conversationId (state w)) then []
                    else [StartConversation (selectedFileName (state w))])).
    { unfold commit. simpl.
      rewrite (selection_effect_found s' (file_id first) first); rewrite ?Hs'; try done.
      simpl. by rewrite String.eqb_refl. }
    rewrite Hw', He. cbn [state pending fst snd]. by rewrite app_nil_l. }
  assert (He0 : commit true (state w) (files_fulfilled selected [] (state w))
                = (files_fulfilled selected [] (state w), [])).
  { unfold commit, selection_effect. simpl. by repeat case_match. }
  rewrite Hw0, He0. cbn [state pending fst snd]. by rewrite !app_nil_r.
Qed.

(** X16.  The provider chosen in the settings menu is the one the next
    send carries; after an answer that names a provider the send after
    it carries the named one, the server's choice replacing the user's,
    and after an answer that names none it carries the user's. *)
Theorem embedding_provider_follows_server
    (env1 env2 env3 : Env) (s : State) (provider text : string)
    (response : ChatResponse) :
  send_guard s = false →
  Js.blank text = false →
  let s1 := handleEmbeddingProviderChange provider s in
  let sent1 := handleSendMessage env1 s1 in
  let s2 := send_fulfilled env2 response sent1.1 in
  let sent2 := handleSendMessage env3 (setInput text s2) in
  (∃ data, sent1.2 = [SendChatMessage data] ∧ req_embedding_provider data = provider)
  ∧ (∃ data, sent2.2 = [SendChatMessage data]
       ∧ req_question data = text
       ∧ req_embedding_provider data
         = (if truthy (res_embedding_provider response)
            then default "" (res_embedding_provider response)
            else provider))
  ∧ toasts s1
    = toasts s ++ [(String.append "Embedding provider changed to " provider, "info")].
Proof.
  intros Hg Hb s1 sent1 s2 sent2.
  assert (Hg1 : send_guard s1 = false) by exact Hg.
  destruct (handleSendMessage_accepted env1 s1 Hg1) as (d1 & Hs1 & _ & _ & _ & Hp1).
  destruct (send_guard_false s Hg) as (_ & (file & Hfile & Hft) & (conv & Hconv & Hct)).
  destruct (send_fulfilled_frame env2 response sent1.1)
    as (_ & Hf2 & Hc2 & _ & He2 & _).
  fold s2 in Hf2, Hc2, He2.
  assert (Hsel : selectedFile sent1.1 = selectedFile s) by (subst sent1; by rewrite Hs1).
  assert (Hcon : conversationId sent1.1 = conversationId s)
    by (subst sent1; by rewrite Hs1).
  assert (Hemb : embeddingProvider sent1.1 = provider) by (subst sent1; by rewrite Hs1).
  assert (Hg2 : send_guard (setInput text s2) = false).
  { unfold send_guard, setInput. cbn [input selectedFile conversationId].
    rewrite truthy_trim, Hb, Hf2, Hc2, Hsel, Hcon, Hfile, Hconv.
    unfold truthy. by rewrite Hft, Hct. }
  destruct (handleSendMessage_accepted env3 (setInput text s2) Hg2)
    as (d2 & Hs2 & Hq2 & _ & _ & Hp2).
  split; [exists d1; subst sent1; rewrite Hs1; by split|].
  split; [|done].
  exists d2. subst sent2. rewrite Hs2. split; [done|]. split; [done|].
  rewrite Hp2. unfold setInput. cbn [embeddingProvider]. by rewrite He2, Hemb.
Qed.

(** X17.  A send is accepted by [handleSendMessage] exactly when the
    text is not empty once trimmed, a file is selected and a conversation
    id is set, whatever the loading flag is; by [handleSubmit] exactly
    when the text is not empty once trimmed and the loading flag is
    lowered.  A text that trims to the empty string, the empty text for
    one, is rejected by both pages without a message or a request.  The
    message shown and the question sent are the text as typed, not
    trimmed. *)
Theorem send_needs_text (env : Env) (clock : NextChat.Clock)
    (ls : NextChat.LocalStorage) (s : State) (t : NextChat.State) :
  (send_guard s = false
   ↔ Js.blank (input s) = false ∧ truthy (selectedFile s) = true
     ∧ truthy (conversationId s) = true)
  ∧ (Js.blank (input s) = true → handleSendMessage env s = (s, []))
  ∧ (send_guard s = false →
     ∃ data, (handleSendMessage env s).2 = [SendChatMessage data]
       ∧ req_question data = input s
       ∧ content (userMessage env s) = input s)
  ∧ (NextChat.submit_guard t = false
     ↔ Js.blank (NextChat.message t) = false ∧ NextChat.isLoading t = false)
  ∧ (Js.blank (NextChat.message t) = true → NextChat.handleSubmit clock ls t = (t, []))
  ∧ Js.blank "" = true.
Proof.
  assert (Hiff : send_guard s = false
     ↔ Js.blank (input s) = false ∧ truthy (selectedFile s) = true
       ∧ truthy (conversationId s) = true).
  { unfold send_guard. rewrite truthy_trim, negb_involutive, !orb_false_iff,
      !negb_false_iff. tauto. }
  assert (Hiff' : NextChat.submit_guard t = false
     ↔ Js.blank (NextChat.message t) = false ∧ NextChat.isLoading t = false).
  { unfold NextChat.submit_guard.
    by rewrite truthy_trim, negb_involutive, orb_false_iff. }
  split; [exact Hiff|]. split.
  { intros Hb. apply handleSendMessage_rejected.
    destruct (send_guard s) eqn:Hg; [done|].
    destruct (proj1 Hiff eq_refl) as [Hb' _]. congruence. }
  split.
  { intros Hg. destruct (handleSendMessage_accepted env s Hg) as (data & Hs & Hq & _).
    exists data. rewrite Hs. by split. }
  split; [exact Hiff'|].
  split; [|unfold Js.blank; by rewrite Js.trim_empty].
  intros Hb. apply handleSubmit_rejected.
  destruct (NextChat.submit_guard t) eqn:Hg; [done|].
  destruct (proj1 Hiff' eq_refl) as [Hb' _]. congruence.
Qed.

End PageFacts.

(** ** The file-bound chat page: requests in flight *)

Section FlightFacts.
Import RagChat.
Context {engine : Js.Engine} {conforms : Js.Conforms engine}.

Lemma count_app {A} (f : A → bool) (l1 l2 : list A) :
  length (List.filter f (l1 ++ l2))
  = (length (List.filter f l1) + length (List.filter f l2))%nat.
Proof. by rewrite List.filter_app, length_app. Qed.

Lemma count_delete {A} (f : A → bool) (l : list A) k p :
  l !! k = Some p →
  length (List.filter f l)
  = (length (List.filter f (delete k l)) + (if f p then 1 else 0))%nat.
Proof.
  intros Hp. rewrite <- (take_drop_middle l k p Hp) at 1.
  rewrite delete_take_drop, !count_app. simpl.
  destruct (f p); simpl; lia.
Qed.

Lemma count_none {A} (f : A → bool) (l : list A) :
  Forall (λ x, f x = false) l → length (List.filter f l) = 0%nat.
Proof. induction 1 as [|x l Hx _ IH]; simpl; [done|]. by rewrite Hx. Qed.

(** The effect that follows a render only ever issues start requests. *)
Lemma commit_issues_starts files_changed before after :
  Forall (λ p, is_send p = false ∧ is_load p = false)
    (commit files_changed before after).2.
Proof.
  unfold commit, selection_effect, initializeConversation.
  repeat case_match; simpl; repeat constructor.
Qed.

Lemma commit_no_sends files_changed before after :
  length (List.filter is_send (commit files_changed before after).2) = 0%nat
  ∧ Forall (λ p, is_load p = false) (commit files_changed before after).2.
Proof.
  pose proof (commit_issues_starts files_changed before after) as H.
  split; [apply count_none|]; eapply Forall_impl; try exact H; by intros p [? ?].
Qed.

(** A step that keeps the pending requests and the loading flag, but
    for what the effect issues, keeps the invariant. *)
Lemma single_flight_quiet_step files_changed w s' :
  single_flight w →
  isLoading s' = isLoading (state w) →
  single_flight
    (mkWorld (commit files_changed (state w) s').1
       (pending w ++ [] ++ (commit files_changed (state w) s').2)).
Proof.
  intros (Hl & Hle & Hz) Hload.
  destruct (commit_no_sends files_changed (state w) s') as (Hc0 & Hcl).
  destruct (commit_frame files_changed (state w) s') as (_ & _ & _ & Hil & _).
  unfold single_flight, sends_in_flight in *. cbn [state pending].
  rewrite app_nil_l, count_app, Hc0, Nat.add_0_r, Hil, Hload.
  split; [by apply Forall_app|]. by split.
Qed.

Lemma single_flight_step env e w :
  no_deep_link e → single_flight w → single_flight (step env e w).
Proof.
  intros He Hw. pose proof Hw as (Hl & Hle & Hz).
  destruct e as [f|v| | |p|c|rf [rc|]|k reply]; simpl in He; try done; unfold step.
  - by apply single_flight_quiet_step.
  - case_match; [done|]. by apply single_flight_quiet_step.
  - destruct (button_disabled (state w)) eqn:Hb; [done|].
    apply orb_false_elim in Hb as [Hb _]. apply orb_false_elim in Hb as [Hb _].
    specialize (Hz Hb).
    destruct (send_guard (state w)) eqn:Hg.
    + rewrite (handleSendMessage_rejected _ _ Hg).
      by apply single_flight_quiet_step.
    + destruct (handleSendMessage_accepted env (state w) Hg) as (data & -> & _).
      rewrite commit_unchanged by done.
      unfold single_flight, sends_in_flight in *. cbn [state pending fst snd].
      rewrite app_nil_r, count_app, Hz. simpl.
      split; [apply Forall_app; split; [done | by repeat constructor]|].
      split; [lia | done].
  - destruct (textarea_disabled (state w)) eqn:Hb; [done|].
    apply orb_false_elim in Hb as [Hb _].
    specialize (Hz Hb).
    destruct (send_guard (state w)) eqn:Hg.
    + rewrite (handleSendMessage_rejected _ _ Hg).
      by apply single_flight_quiet_step.
    + destruct (handleSendMessage_accepted env (state w) Hg) as (data & -> & _).
      rewrite commit_unchanged by done.
      unfold single_flight, sends_in_flight in *. cbn [state pending fst snd].
      rewrite app_nil_r, count_app, Hz. simpl.
      split; [apply Forall_app; split; [done | by repeat constructor]|].
      split; [lia | done].
  - by apply single_flight_quiet_step.
  - apply (single_flight_quiet_step false w (route_effect rf (state w) (state w)));
      [done|]. unfold route_effect. by case_match.
  - destruct (pending w !! k) as [q|] eqn:Hq; [|done].
    destruct (settle env q reply (state w)) as [[[fc s'] issued]|] eqn:Hs; [|done].
    destruct (commit_no_sends fc (state w) s') as (Hc0 & Hcl).
    destruct (commit_frame fc (state w) s') as (_ & _ & _ & Hil & _).
    assert (Hq' : is_load q = false).
    { rewrite Forall_forall in Hl. apply Hl. by eapply list_elem_of_lookup_2. }
    assert (Hcount := count_delete is_send (pending w) k q Hq).
    assert (Hdl : Forall (λ p, is_load p = false) (delete k (pending w)))
      by (by apply Forall_delete).
    unfold single_flight, sends_in_flight in *. cbn [state pending].
    destruct q as [data|name|conv name|sel]; try done;
      destruct reply as [response|cid|history|filesData|];
      simpl in Hs; try done; injection Hs as <- <- <-;
      rewrite ?app_nil_l, !count_app, Hc0, Nat.add_0_r, Hil; simpl in Hcount;
      (split; [by repeat (apply Forall_app; split)|]);
      try (split; [lia|]; try (intros _; lia)).
    + simpl. intros Hi. specialize (Hz Hi). lia.
    + simpl. intros Hi. specialize (Hz Hi). lia.
    + unfold files_fulfilled. intros Hi.
      assert (Hi' : isLoading (state w) = false) by (by repeat case_match).
      specialize (Hz Hi'). lia.
    + simpl. intros Hi. specialize (Hz Hi). lia.
Qed.

Lemma single_flight_run events w :
  Forall (λ ee, no_deep_link ee.2) events → single_flight w →
  single_flight (run events w).
Proof.
  revert w. induction events as [|[env e] rest IH]; intros w Hq Hw; simpl; [done|].
  inversion Hq; subst. apply IH; [done|]. by apply single_flight_step.
Qed.

(** X18.  In a session that starts with nothing pending and follows no
    deep link, at most one chat request is in flight at any time, the
    loading flag is raised whenever one is, and a send through either
    control is then rejected. *)
Theorem at_most_one_send_in_flight
    (events : list (Env * Event)) (env : Env) (w : World) (e : Event) :
  pending w = [] →
  Forall (λ ee, no_deep_link ee.2) events →
  e = ClickSend ∨ e = PressEnter →
  (sends_in_flight (run events w) ≤ 1)%nat
  ∧ (sends_in_flight (run events w) = 1%nat →
     isLoading (state (run events w)) = true
     ∧ step env e (run events w) = run events w).
Proof.
  intros Hp Hq He.
  assert (Hw : single_flight w).
  { unfold single_flight, sends_in_flight. rewrite Hp. simpl.
    split; [constructor|]. split; [lia | done]. }
  destruct (single_flight_run events w Hq Hw) as (_ & Hle & Hz).
  split; [exact Hle|]. intros H1.
  assert (Hl : isLoading (state (run events w)) = true).
  { destruct (isLoading (state (run events w))); [done|]. specialize (Hz eq_refl). lia. }
  split; [exact Hl|]. by apply step_send_disabled.
Qed.

End FlightFacts.

Section SharedFlagFacts.
Import RagChat.
Context {engine : Js.Engine} {conforms : Js.Conforms engine}.

Lemma count_elem {A} (f : A → bool) (l : list A) x :
  x ∈ l → f x = true → (1 ≤ length (List.filter f l))%nat.
Proof.
  intros Hin Hf. induction l as [|y l IH]; [by apply elem_of_nil in Hin|].
  simpl. apply elem_of_cons in Hin as [<- | Hin].
  - rewrite Hf. simpl. lia.
  - specialize (IH Hin). destruct (f y); simpl; lia.
Qed.

Lemma elem_of_delete_other {A} (l : list A) j x y :
  l !! j = Some y → x ∈ l → x ≠ y → x ∈ delete j l.
Proof.
  intros Hj Hin Hne. rewrite <- (take_drop_middle l j y Hj) in Hin.
  rewrite delete_take_drop.
  apply elem_of_app in Hin as [Hin | Hin]; [apply elem_of_app; by left|].
  apply elem_of_cons in Hin as [-> | Hin]; [done|]. apply elem_of_app. by right.
Qed.

(** X19.  The loading flag is shared: when the history of a deep link
    arrives while a chat request is pending, the flag is lowered and the
    send controls are enabled again although that request has not
    settled; a text typed then is sent, and two chat requests are in
    flight. *)
Theorem load_completion_reenables_send
    (env1 env2 env3 : Env) (w : World) (j k : nat) (data : ChatRequest)
    (convId fileName text : string) (history : list HistoryRecord) :
  pending w !! k = Some (SendChatMessage data) →
  pending w !! j = Some (GetConversationMessages convId fileName) →
  truthy (selectedFile (state w)) = true →
  truthy (conversationId (state w)) = true →
  Js.blank text = false →
  let w1 := step env1 (Settle j (MessagesReply history)) w in
  let w2 := step env2 (InputChange text) w1 in
  let w3 := step env3 ClickSend w2 in
  isLoading (state w1) = false
  ∧ SendChatMessage data ∈ pending w1
  ∧ button_disabled (state w2) = false
  ∧ (∃ data', pending w3 = pending w1 ++ [SendChatMessage data']
       ∧ req_question data' = text)
  ∧ (2 ≤ sends_in_flight w3)%nat.
Proof.
  intros Hk Hj Hf Hc Hb w1 w2 w3.
  set (s1 := load_fulfilled env1 fileName history (state w)).
  destruct (load_fulfilled_frame env1 fileName history (state w))
    as (Hl1 & Hc1 & Hf1 & _).
  fold s1 in Hl1, Hc1, Hf1.
  assert (Hw1 := step_Settle env1 j (MessagesReply history) w _ _ _ _ Hj eq_refl).
  fold w1 s1 in Hw1. rewrite commit_unchanged in Hw1 by done.
  cbn [fst snd] in Hw1. rewrite !app_nil_r in Hw1.
  assert (Hin1 : SendChatMessage data ∈ pending w1).
  { rewrite Hw1. cbn [pending].
    eapply elem_of_delete_other; [exact Hj | by eapply list_elem_of_lookup_2 | done]. }
  assert (Hs1 : state w1 = s1) by (by rewrite Hw1).
  assert (Ht1 : textarea_disabled (state w1) = false).
  { unfold textarea_disabled. by rewrite Hs1, Hl1, Hf1, Hf. }
  assert (Hw2 : w2 = mkWorld (setInput text s1) (pending w1)).
  { subst w2. unfold step. rewrite Ht1, Hs1.
    rewrite commit_unchanged by done. cbn [fst snd]. by rewrite !app_nil_r. }
  assert (Hg2 : send_guard (state w2) = false).
  { rewrite Hw2. unfold send_guard, setInput. cbn [state input selectedFile conversationId].
    by rewrite truthy_trim, Hb, Hf1, Hc1, Hf, Hc. }
  assert (Hl2 : isLoading (state w2) = false) by (by rewrite Hw2).
  destruct (step_send_accepted env3 w2 ClickSend (or_introl eq_refl) Hl2 Hg2)
    as (data' & Hw3 & Hq & _).
  fold w3 in Hw3.
  split; [by rewrite Hs1|]. split; [done|].
  split.
  { unfold button_disabled. rewrite Hl2. rewrite Hw2. unfold setInput.
    cbn [state input selectedFile]. by rewrite truthy_trim, Hb, Hf1, Hf. }
  split.
  { exists data'. rewrite Hw3, Hw2. cbn [pending]. split; [done|].
    by rewrite Hq, Hw2. }
  unfold sends_in_flight. rewrite Hw3, Hw2. cbn [pending].
  rewrite count_app. simpl.
  pose proof (count_elem is_send (pending w1) _ Hin1 eq_refl). lia.
Qed.

End SharedFlagFacts.

(** ** The conversation-list chat page: conversations *)

Section ConversationFacts.
Import NextChat.
Context {engine : Js.Engine} {conforms : Js.Conforms engine}.

Lemma submit_guard_typed text s :
  Js.blank text = false → isLoading s = false →
  submit_guard (setMessage text s) = false.
Proof.
  intros Hb Hl. unfold submit_guard, setMessage. simpl.
  by rewrite truthy_trim, Hb, Hl.
Qed.

(** X20.  Picking a conversation from the list empties the transcript
    and issues no request: the history of the picked conversation is not
    loaded.  A text submitted next is sent to the picked conversation,
    and the transcript then holds that one message. *)
Theorem conversation_change_then_submit
    (clock : Clock) (ls : LocalStorage) (s : State) (value text : string) :
  isLoading s = false →
  Js.truthy value = true →
  Js.blank text = false →
  truthy (token ls) = true →
  let s1 := handleConversationChange value s in
  let sent := handleSubmit clock ls (setMessage text s1) in
  messages s1 = []
  ∧ currentConversationId s1 = Some value
  ∧ conversations s1 = conversations s
  ∧ sent.2 = [SubmitChat {| body_question := text; body_conversation_id := value |}
                (Some value)]
  ∧ messages sent.1 = [userMessage clock (setMessage text s1)].
Proof.
  intros Hl Hv Hb Ht s1 sent.
  assert (Hg : submit_guard (setMessage text s1) = false)
    by (by apply submit_guard_typed).
  destruct (handleSubmit_bound clock ls (setMessage text s1) Hg Ht) as (conv & Hc & Hs).
  { simpl. exact Hv. }
  simpl in Hc. injection Hc as <-.
  subst sent. rewrite Hs. by repeat split.
Qed.

(** X21.  The New Conversation button: without a token nothing is
    requested; with one a start request is issued.  If it fails the
    transcript and the current conversation are kept; if it succeeds the
    transcript is emptied, the new id becomes current, the list of
    conversations is fetched again, and a text submitted next is sent to
    the new conversation.  Either way the loading flag is lowered when
    the start request has settled. *)
Theorem new_conversation_outcomes
    (clock1 clock2 : Clock) (ls : LocalStorage) (s s' : State)
    (id text : string) (reply : Http string) :
  (truthy (token ls) = false → startNewConversation ls s = (setIsLoading false s, []))
  ∧ (truthy (token ls) = true →
     startNewConversation ls s
     = (setIsLoading true s, [NewConversation (currentConversationId s)]))
  ∧ (failed reply = true →
     settle clock1 ls (NewConversation (currentConversationId s)) (Answer reply) s'
     = Some (setIsLoading false s', []))
  ∧ (truthy (token ls) = true → Js.truthy id = true → Js.blank text = false →
     ∃ s2 issued,
       settle clock1 ls (NewConversation (currentConversationId s))
         (Answer (Ok id)) s' = Some (s2, issued)
       ∧ messages s2 = []
       ∧ currentConversationId s2 = Some id
       ∧ isLoading s2 = false
       ∧ issued = (if truthy (user_id ls)
                   then [FetchConversations (currentConversationId s)] else [])
       ∧ (handleSubmit clock2 ls (setMessage text s2)).2
         = [SubmitChat {| body_question := text; body_conversation_id := id |}
              (Some id)]).
Proof.
  split; [|split; [|split]].
  - intros Ht. unfold startNewConversation. by rewrite Ht.
  - intros Ht. unfold startNewConversation. by rewrite Ht.
  - intros Hf. by destruct reply.
  - intros Ht Hid Hb. simpl. unfold fetchConversations. rewrite Ht. simpl.
    destruct (truthy (user_id ls)) eqn:Hu; simpl;
      (do 2 eexists; split; [reflexivity|]; simpl;
       do 4 (split; [done|]);
       unfold handleSubmit, submit_guard; simpl;
       by rewrite truthy_trim, Hb, Ht, Hid).
Qed.

(** X22.  The first message of a new conversation, when a token and a
    user id are stored: the conversation is started, the message is sent
    to it and answered, and the list of conversations is fetched again
    on behalf of the render that had no current conversation.  When that
    list arrives and is not empty, its first conversation becomes the
    current one, whatever the id of the conversation just started; the
    transcript is kept. *)
Theorem listed_conversation_replaces_started_one
    (clock1 clock2 clock3 clock4 : Clock) (ls : LocalStorage) (s : State)
    (id response : string) (first : ConversationData) (rest : list ConversationData) :
  submit_guard s = false →
  truthy (token ls) = true →
  truthy (user_id ls) = true →
  truthy (currentConversationId s) = false →
  let current := currentConversationId s in
  ∃ s2 body s3 s4,
    handleSubmit clock1 ls s = (submitted clock1 s, [SubmitStart (message s) current])
    ∧ settle clock2 ls (SubmitStart (message s) current) (Answer (Ok id))
        (submitted clock1 s) = Some (s2, [SubmitChat body current])
    ∧ body_conversation_id body = id
    ∧ settle clock3 ls (SubmitChat body current) (Answer (Ok response)) s2
      = Some (s3, [FetchConversations current])
    ∧ currentConversationId s3 = Some id
    ∧ isLoading s3 = false
    ∧ settle clock4 ls (FetchConversations current) (Listing (Ok (first :: rest))) s3
      = Some (s4, [])
    ∧ currentConversationId s4 = Some (conversation_id first)
    ∧ conversations s4 = first :: rest
    ∧ messages s4
      = messages s ++ [userMessage clock1 s; botMessage clock3 response].
Proof.
  intros Hg Ht Hu Hc current.
  rewrite (handleSubmit_unbound clock1 ls s Hg Ht Hc).
  set (s2 := setCurrentConversationId (Some id) (submitted clock1 s)).
  set (s3 := setIsLoading false
               (setIsLoading true
                  (setMessages (λ prev, prev ++ [botMessage clock3 response]) s2))).
  set (s4 := setIsLoading false
               (setCurrentConversationId (Some (conversation_id first))
                  (setConversations (first :: rest) s3))).
  exists s2, {| body_question := message s; body_conversation_id := id |}, s3, s4.
  split; [done|]. split; [done|]. split; [done|].
  split.
  { cbn [settle]. unfold submit_chat_settled, fetchConversations.
    fold current in Hc. by rewrite Hc, Ht, Hu. }
  split; [done|]. split; [done|].
  split.
  { cbn [settle]. unfold conversations_settled. fold current in Hc. by rewrite Hc. }
  split; [done|]. split; [done|].
  simpl. by rewrite <- app_assoc.
Qed.

(** X23.  The loading flag is shared with the fetch of the conversation
    list: a submit made while that fetch is pending raises the flag, the
    arrival of the list (or its failure) lowers it although the chat
    request has not settled, and a further submit is then accepted: the
    transcript gets two user messages in a row and a second chat request
    is issued before the first is answered. *)
Theorem conversations_fetch_reenables_submit
    (clock1 clock2 : Clock) (ls : LocalStorage) (s : State)
    (current : option string) (reply : Http (list ConversationData))
    (text2 text3 : string) :
  isLoading s = false →
  truthy (token ls) = true →
  Js.blank text2 = false →
  Js.blank text3 = false →
  let sent2 := handleSubmit clock1 ls (setMessage text2 s) in
  let s' := conversations_settled current reply sent2.1 in
  let sent3 := handleSubmit clock2 ls (setMessage text3 s') in
  ∃ p2 p3,
    sent2.2 = [p2]
    ∧ isLoading sent2.1 = true
    ∧ handleSubmit clock2 ls (setMessage text3 sent2.1) = (setMessage text3 sent2.1, [])
    ∧ isLoading s' = false
    ∧ sent3.2 = [p3]
    ∧ messages sent3.1
      = messages s ++ [userMessage clock1 (setMessage text2 s);
                       userMessage clock2 (setMessage text3 s')].
Proof.
  intros Hl Ht Hb2 Hb3 sent2 s' sent3.
  assert (Hg2 : submit_guard (setMessage text2 s) = false)
    by (by apply submit_guard_typed).
  destruct (handleSubmit_accepted clock1 ls _ Hg2 Ht) as (p2 & Hs2).
  assert (Hl' : isLoading s' = false).
  { subst s'. unfold conversations_settled. by repeat case_match. }
  assert (Hm' : messages s' = messages sent2.1).
  { subst s'. unfold conversations_settled. by repeat case_match. }
  assert (Hg3 : submit_guard (setMessage text3 s') = false)
    by (by apply submit_guard_typed).
  destruct (handleSubmit_accepted clock2 ls _ Hg3 Ht) as (p3 & Hs3).
  exists p2, p3. subst sent3. rewrite Hs3. subst sent2. rewrite Hs2 in *.
  split; [done|]. split; [done|].
  split; [by apply handleSubmit_rejected, submit_guard_loading|].
  split; [done|]. split; [done|].
  simpl. simpl in Hm'. by rewrite Hm', <- app_assoc.
Qed.

End ConversationFacts.

(** ** The further properties on concrete inputs *)

Section HistoryExamples.
Import History.
#[local] Existing Instance Js.ascii_engine.

(** Case analysis on the membership in a list that is given in full. *)
Ltac each_element :=
  let Hin := fresh "Hin" in
  intros ? Hin; apply list_elem_of_In in Hin; simpl in Hin;
  repeat (destruct Hin as [<- | Hin]; [simpl; eauto|]); destruct Hin.

(** X2 on the header [constructor], of which the orphan record alone
    was fetched: its conversation holds the inherited member. *)
Lemma reconstruct_keeps_header_witness :
  reconstruct example_getTime constructor_headers [orphan]
  = Some [mkConversation "constructor" "2024-01-02T00:00:00Z" (Member "constructor") false;
          mkConversation "c1" "2024-01-01T00:00:00Z" (Items []) false]
  ∧ mkConversation "constructor" "2024-01-02T00:00:00Z" (Member "constructor") false
      ∈ [mkConversation "constructor" "2024-01-02T00:00:00Z" (Member "constructor") false;
         mkConversation "c1" "2024-01-01T00:00:00Z" (Items []) false].
Proof.
  split; [reflexivity|].
  refine (proj1 (reconstruct_keeps_header_without_records (engine := Js.ascii_engine)
                   example_getTime constructor_headers [orphan]
                   (mkConversationData "constructor" "2024-01-02T00:00:00Z") _
                   _ _ eq_refl)).
  - right; left.
  - intros item Hin. apply list_elem_of_singleton in Hin. subst item. discriminate.
Defined.

(** X25 on the example of the specification: two headers, the second
    one day later, and three records. *)
Lemma reconstruct_groups_witness :
  reconstruct example_getTime example_headers three_records
  = Some [mkConversation "c2" "2024-01-02T00:00:00Z"
            (Items [mkHistoryItem "q2" "a2" "2024-01-02T00:00:05Z" "c2" "f";
                    mkHistoryItem "q3" "a3" "2024-01-02T00:00:09Z" "c2" "f"]) false;
          mkConversation "c1" "2024-01-01T00:00:00Z"
            (Items [mkHistoryItem "q1" "a1" "2024-01-01T00:00:05Z" "c1" "f"]) false].
Proof.
  refine (proj2 (reconstruct_groups_and_orders (engine := Js.ascii_engine)
                   example_getTime example_headers three_records _ _)
            "c1" "2024-01-01T00:00:00Z" 1704067200000
            "c2" "2024-01-02T00:00:00Z" 1704153600000
            (mkHistoryItem "q1" "a1" "2024-01-01T00:00:05Z" "c1" "f")
            (mkHistoryItem "q2" "a2" "2024-01-02T00:00:05Z" "c2" "f")
            (mkHistoryItem "q3" "a3" "2024-01-02T00:00:09Z" "c2" "f")
            _ eq_refl eq_refl eq_refl eq_refl _ eq_refl eq_refl eq_refl);
    [each_element | each_element | discriminate | reflexivity].
Defined.

(** X26 on a concrete history with one orphan record. *)
Lemma orphan_record_witness :
  orphan ∈ example_records
  ∧ (conversation_id orphan ∉ map data_conversation_id example_headers)
  ∧ toasts (fetchConversations_settled example_getTime
              (Both example_headers example_records) (mkState [] true "" []))
    = []
  ∧ (∀ c, c ∈ conversations
                (fetchConversations_settled example_getTime
                   (Both example_headers example_records) (mkState [] true "" []))
          → ¬ holds c orphan).
Proof.
  assert (Hin : orphan ∈ example_records) by (right; left).
  assert (Hno : conversation_id orphan ∉ map data_conversation_id example_headers).
  { intros H. apply list_elem_of_In in H. simpl in H.
    destruct H as [H | [H | []]]; discriminate H. }
  assert (Hrecords : ∀ record, record ∈ example_records →
                       Js.inherited (conversation_id record) = false)
    by each_element.
  split; [exact Hin|]. split; [exact Hno|].
  destruct (orphan_record_is_dropped (engine := Js.ascii_engine) example_getTime
              example_headers example_records (mkState [] true "" []) orphan
              Hrecords Hin Hno)
    as (_ & _ & Ht & _ & Hc).
  split; [exact Ht | exact Hc].
Defined.

(** X3: toggling an id that no conversation has. *)
Lemma toggleConversation_witness :
  toggleConversation "c9"
    (mkState [mkConversation "c1" "2024-01-01T00:00:00Z" (Items []) false] false "" [])
  = mkState [mkConversation "c1" "2024-01-01T00:00:00Z" (Items []) false] false "" [].
Proof.
  destruct (toggleConversation_twice_restores "c9"
              (mkState [mkConversation "c1" "2024-01-01T00:00:00Z" (Items []) false]
                 false "" []))
    as (_ & _ & _ & _ & _ & _ & _ & Habsent).
  apply Habsent. intros Hin. apply list_elem_of_singleton in Hin. discriminate.
Defined.

(** X4: a search for [LOST] finds the conversation of the orphan's
    question [lost?]. *)
Lemma filteredConversations_witness :
  filteredConversations
    (mkState [mkConversation "c9" "2024-01-03T00:00:00Z" (Items [orphan]) false]
       false "LOST" [])
  = Some [mkConversation "c9" "2024-01-03T00:00:00Z" (Items [orphan]) false]
  ∧ ∃ items, Items [orphan] = Items items ∧ items ≠ [].
Proof.
  split; [reflexivity|].
  refine (proj2 (proj2 (proj2 (filteredConversations_exact (engine := Js.ascii_engine)
            (mkState [mkConversation "c9" "2024-01-03T00:00:00Z" (Items [orphan]) false]
               false "LOST" [])
            (mkConversation "c9" "2024-01-03T00:00:00Z" (Items [orphan]) false))
            _ eq_refl)) _ _).
  - discriminate.
  - left.
Defined.


Lemma example_reconstructed :
  reconstruct example_getTime example_headers [orphan]
  = Some [mkConversation "c2" "2024-01-02T00:00:00Z" (Items []) false;
          mkConversation "c1" "2024-01-01T00:00:00Z" (Items []) false].
Proof. reflexivity. Qed.

(** X6: the link of the conversation [c1] when only the orphan record
    was fetched. *)
Lemma continue_link_witness :
  continue_link (mkConversation "c1" "2024-01-01T00:00:00Z" (Items []) false)
  = "/chat/undefined?conversationId=c1".
Proof.
  refine (proj2 (continue_link_of_reconstructed (engine := Js.ascii_engine)
                   example_getTime example_headers [orphan] _
                   (mkConversation "c1" "2024-01-01T00:00:00Z" (Items []) false)
                   example_reconstructed _) _).
  - right; left.
  - intros item Hin. apply list_elem_of_singleton in Hin. subst item. discriminate.
Defined.

End HistoryExamples.

Section QueueExamples.
Import ProcessingQueue.
#[local] Existing Instance Js.ascii_engine.

(** X9 on one fetch of three jobs under the search [REP]. *)
Lemma queue_rows_witness :
  mkJob "j1" "Report.csv" "processing" 1700000000 "" 
    ∈ filteredJobs
        (fetchJobs_settled
           (Some [mkJob "j1" "Report.csv" "processing" 1700000000 "";
                  mkJob "j2" "report-old.csv" "completed" 1700000001 "";
                  mkJob "j3" "other.csv" "uploaded" 1700000002 ""])
           (mkState [] true "REP" false)).
Proof.
  apply (queue_rows_after_fetch
           [mkJob "j1" "Report.csv" "processing" 1700000000 "";
            mkJob "j2" "report-old.csv" "completed" 1700000001 "";
            mkJob "j3" "other.csv" "uploaded" 1700000002 ""]
           (mkState [] true "REP" false)
           (mkJob "j1" "Report.csv" "processing" 1700000000 "")).
  split; [left|]. split; [by right|]. exists "", "ort.csv". reflexivity.
Defined.

(** X7 on a fetch, a refresh and a failed fetch: the job held is a queued one. *)
Lemma queue_holds_witness :
  status (mkJob "j3" "other.csv" "uploaded" 1700000002 "") = "uploaded"
  ∨ status (mkJob "j3" "other.csv" "uploaded" 1700000002 "") = "processing".
Proof.
  apply (queue_holds_only_queued_jobs
           [Settled (Some [mkJob "j2" "report-old.csv" "completed" 1700000001 "";
                           mkJob "j3" "other.csv" "uploaded" 1700000002 ""]);
            Refresh; Settled None]
           (mkJob "j3" "other.csv" "uploaded" 1700000002 "")).
  left.
Defined.

(** X8: a search and a refresh before any settlement leave the spinner. *)
Lemma queue_view_witness :
  view (run [Search "rep"; Refresh] initial) = Spinner.
Proof.
  apply (queue_view_cases [Search "rep"; Refresh]).
  repeat constructor; by intros [].
Defined.

End QueueExamples.

Section RouteExamples.
Import ApiRoute.

(** X10 on a backend that answers 502 with an empty error text: the
    body of a backend response is here its [error] member. *)
Lemma token_route_witness :
  status (option string)
    (with_token (option string) id "Failed to process request" "/chat"
       (Some "Bearer t") (Some (mkChatJson (Some "hi") (Some "conv-1")))
       (Replied (option string) 502 (Some ""))).1
  = 502.
Proof.
  destruct (token_route_relays (Body := option string) id
              "Failed to process request" "/chat" (Some "Bearer t")
              (Some (mkChatJson (Some "hi") (Some "conv-1")))
              (Replied (option string) 502 (Some "")) eq_refl)
    as (_ & _ & _ & Hstatus & _).
  exact (Hstatus 502 (Some "") eq_refl eq_refl).
Defined.

(** X11: a login without a password. *)
Lemma login_route_witness :
  login_POST (option string) id (Some (mkCredentials (Some "a@b.dz") None))
    (Threw (option string))
  = (mkResponse (option string) 400 (Error (option string) "Email and password required"),
     []).
Proof.
  destruct (chat_and_login_routes (Body := option string) id None
              (Threw (option string)) (mkChatJson None None)
              (mkCredentials (Some "a@b.dz") None))
    as (_ & _ & _ & Hmissing & _).
  apply Hmissing. by right.
Defined.

End RouteExamples.

Section PageExamples.
Import RagChat Examples.
#[local] Existing Instance Js.ascii_engine.

(** X12: from file A to file B; the welcome names [a.csv]. *)
Lemma file_change_witness :
  messages
    (state (step env0 (Settle 0 (StartReply "conv-2"))
              (step env0 (FileChange "fileB") (mkWorld ready []))))
  = [welcomeMessage env0 "a.csv"]
  ∧ selectedFileName
      (state (step env0 (Settle 0 (StartReply "conv-2"))
                (step env0 (FileChange "fileB") (mkWorld ready []))))
    = "b.csv".
Proof.
  destruct ((file_change_starts_conversation (engine := Js.ascii_engine)) env0 env0 (mkWorld ready []) "fileB"
              "conv-2" (mkFileItem "fileB" "b.csv"))
    as (_ & _ & _ & Hm & _ & Hn & _); try reflexivity; [discriminate|].
  split; [exact Hm | exact Hn].
Defined.

(** X13: the start request of a change to file B fails. *)
Lemma failed_start_witness :
  pending (step env0 (Settle 0 Failure)
             (step env0 (FileChange "fileB") (mkWorld ready [])))
  = []
  ∧ toasts (state (step env0 (Settle 0 Failure)
                     (step env0 (FileChange "fileB") (mkWorld ready []))))
    = [("Failed to start conversation", "error")].
Proof.
  destruct ((failed_start_is_not_retried (engine := Js.ascii_engine)) env0 env0
              (step env0 (FileChange "fileB") (mkWorld ready [])) 0 "a.csv" ClickSend
              eq_refl eq_refl (or_introl eq_refl))
    as (Hs & Hp & _).
  split; [exact Hp | by rewrite Hs].
Defined.

(** X14: the deep link to [conv-1] fails to load; [conv-2] is started. *)
Lemma failed_load_witness :
  conversationId
    (state (run [(env0, Location "conv-1"); (env0, Settle 0 Failure);
                 (env0, Settle 0 (StartReply "conv-2"))] (mkWorld unbound [])))
  = Some "conv-2".
Proof.
  destruct ((failed_load_falls_back_to_start (engine := Js.ascii_engine)) env0 env0 env0 (mkWorld unbound [])
              "conv-1" "conv-2" eq_refl eq_refl eq_refl)
    as (_ & _ & _ & _ & _ & Hc & _).
  exact Hc.
Defined.

(** X15: the first render had no file selected; the list arrives. *)
Lemma files_load_witness :
  selectedFile
    (state (step env0 (Settle 0 (FilesReply files0))
              (mkWorld (mkState [] None "" [] "" false None "local" false [])
                 [GetUserFiles None])))
  = Some "fileA".
Proof.
  destruct ((files_load_selects_first_file (engine := Js.ascii_engine)) env0
              (mkWorld (mkState [] None "" [] "" false None "local" false [])
                 [GetUserFiles None])
              0 None (mkFileItem "fileA" "a.csv") [mkFileItem "fileB" "b.csv"] eq_refl)
    as (_ & _ & Hsel & _).
  exact (Hsel eq_refl).
Defined.

(** X16: the user picks [openai]; the answer names no provider. *)
Lemma embedding_provider_witness :
  ∃ data,
    (handleSendMessage env0 (handleEmbeddingProviderChange "openai" ready)).2
    = [SendChatMessage data]
    ∧ req_embedding_provider data = "openai".
Proof.
  destruct ((embedding_provider_follows_server (engine := Js.ascii_engine)) env0 env0 env0 ready "openai" "next"
              answer eq_refl eq_refl) as (H & _).
  exact H.
Defined.

(** X17: a text of three spaces. *)
Lemma send_needs_text_witness :
  handleSendMessage env0 (setInput "   " ready) = (setInput "   " ready, []).
Proof.
  destruct ((send_needs_text (engine := Js.ascii_engine)) env0 clock0 storage (setInput "   " ready) fresh)
    as (_ & Hblank & _).
  exact (Hblank eq_refl).
Defined.

(** X18: two clicks and an Enter key in a row. *)
Lemma at_most_one_send_witness :
  (sends_in_flight
     (run [(env0, ClickSend); (env0, ClickSend); (env0, PressEnter)]
        (mkWorld ready [])) ≤ 1)%nat.
Proof.
  assert (Hq : Forall (λ ee : Env * Event, no_deep_link ee.2)
                 [(env0, ClickSend); (env0, ClickSend); (env0, PressEnter)])
    by (repeat constructor).
  destruct ((at_most_one_send_in_flight (engine := Js.ascii_engine))
              [(env0, ClickSend); (env0, ClickSend); (env0, PressEnter)]
              env0 (mkWorld ready []) ClickSend eq_refl Hq (or_introl eq_refl))
    as (Hle & _).
  exact Hle.
Defined.

(** X19: a send, a deep link to [conv-2], its history, a second send. *)
Lemma load_completion_witness :
  (2 ≤ sends_in_flight
         (run [(env0, Settle 1 (MessagesReply [record1]));
               (env0, InputChange "again"); (env0, ClickSend)]
            (run [(env0, ClickSend); (env0, Location "conv-2")]
               (mkWorld ready []))))%nat.
Proof.
  destruct ((load_completion_reenables_send (engine := Js.ascii_engine)) env0 env0 env0
              (run (engine := Js.ascii_engine)
                 [(env0, ClickSend); (env0, Location "conv-2")] (mkWorld ready []))
              1 0 (mkChatRequest "total revenue?" "fileA" "conv-1" "local")
              "conv-2" "a.csv" "again" [record1]
              eq_refl eq_refl eq_refl eq_refl eq_refl)
    as (_ & _ & _ & _ & H2).
  exact H2.
Defined.

End PageExamples.

Section ConversationExamples.
Import NextChat Examples.
#[local] Existing Instance Js.ascii_engine.

(** X20: conversation [conv-7] is picked, then a text is submitted. *)
Lemma conversation_change_witness :
  (handleSubmit clock0 storage (setMessage "hello" (handleConversationChange "conv-7" fresh))).2
  = [SubmitChat {| body_question := "hello"; body_conversation_id := "conv-7" |}
       (Some "conv-7")].
Proof.
  destruct ((conversation_change_then_submit (engine := Js.ascii_engine)) clock0 storage fresh "conv-7" "hello"
              eq_refl eq_refl eq_refl eq_refl) as (_ & _ & _ & H & _).
  exact H.
Defined.

(** X21: the New Conversation button with a stored token. *)
Lemma new_conversation_witness :
  startNewConversation storage fresh
  = (setIsLoading true fresh, [NewConversation None]).
Proof.
  destruct ((new_conversation_outcomes (engine := Js.ascii_engine)) clock0 clock0 storage fresh fresh "conv-8"
              "hello" (Ok "conv-8")) as (_ & H & _).
  exact (H eq_refl).
Defined.

(** X22: conversation [conv-8] is started, the list names [conv-1]
    first. *)
Lemma listed_conversation_witness :
  ∃ s2 body s3 s4,
    handleSubmit clock0 storage fresh
    = (submitted clock0 fresh, [SubmitStart (message fresh) None])
    ∧ settle clock0 storage (SubmitStart (message fresh) None) (Answer (Ok "conv-8"))
        (submitted clock0 fresh) = Some (s2, [SubmitChat body None])
    ∧ body_conversation_id body = "conv-8"
    ∧ settle clock0 storage (SubmitChat body None) (Answer (Ok "soon")) s2
      = Some (s3, [FetchConversations None])
    ∧ currentConversationId s3 = Some "conv-8"
    ∧ isLoading s3 = false
    ∧ settle clock0 storage (FetchConversations None)
        (Listing (Ok [mkConversationData "conv-1" "2024-01-01T00:00:00Z"])) s3
      = Some (s4, [])
    ∧ currentConversationId s4 = Some "conv-1"
    ∧ conversations s4 = [mkConversationData "conv-1" "2024-01-01T00:00:00Z"]
    ∧ messages s4
      = messages fresh ++ [userMessage clock0 fresh; botMessage clock0 "soon"].
Proof.
  exact ((listed_conversation_replaces_started_one (engine := Js.ascii_engine)) clock0 clock0 clock0 clock0 storage
           fresh "conv-8" "soon" (mkConversationData "conv-1" "2024-01-01T00:00:00Z") []
           eq_refl eq_refl eq_refl eq_refl).
Defined.

(** X23: two texts submitted around the arrival of an empty list. *)
Lemma conversations_fetch_witness :
  ∃ p2 p3,
    (handleSubmit clock0 storage (setMessage "one" fresh)).2 = [p2]
    ∧ isLoading (handleSubmit clock0 storage (setMessage "one" fresh)).1 = true
    ∧ handleSubmit clock0 storage
        (setMessage "two" (handleSubmit clock0 storage (setMessage "one" fresh)).1)
      = (setMessage "two" (handleSubmit clock0 storage (setMessage "one" fresh)).1, [])
    ∧ isLoading
        (conversations_settled None (Ok [])
           (handleSubmit clock0 storage (setMessage "one" fresh)).1) = false
    ∧ (handleSubmit clock0 storage
         (setMessage "two"
            (conversations_settled None (Ok [])
               (handleSubmit clock0 storage (setMessage "one" fresh)).1))).2 = [p3]
    ∧ messages
        (handleSubmit clock0 storage
           (setMessage "two"
              (conversations_settled None (Ok [])
                 (handleSubmit clock0 storage (setMessage "one" fresh)).1))).1
      = messages fresh
        ++ [userMessage clock0 (setMessage "one" fresh);
            userMessage clock0
              (setMessage "two"
                 (conversations_settled None (Ok [])
                    (handleSubmit clock0 storage (setMessage "one" fresh)).1))].
Proof.
  exact ((conversations_fetch_reenables_submit (engine := Js.ascii_engine)) clock0 clock0 storage fresh None (Ok [])
           "one" "two" eq_refl eq_refl eq_refl eq_refl).
Defined.

End ConversationExamples.

Section DeepLinkFacts.
Import RagChat.
Context {engine : Js.Engine} {conforms : Js.Conforms engine}.

(** X24.  A deep link that names a conversation but no file: the
    conversation id is taken, but no history is requested.  When the
    list of files then arrives the first file is selected and, the
    conversation id being set, no conversation is started: the
    transcript stays as it was and neither step issues a request, so
    the history of the linked conversation is not asked for. *)
Theorem deep_link_without_file_loads_nothing
    (env1 env2 : Env) (w : World) (k : nat) (convId : string)
    (selected : option string) (first : FileItem) (rest : list FileItem) :
  truthy (selectedFile (state w)) = false →
  Js.truthy convId = true →
  pending w !! k = Some (GetUserFiles selected) →
  truthy selected = false →
  Js.truthy (file_id first) = true →
  let w1 := step env1 (Location convId) w in
  let w2 := step env2 (Settle k (FilesReply (first :: rest))) w1 in
  pending w1 = pending w
  ∧ conversationId (state w1) = Some convId
  ∧ selectedFile (state w2) = Some (file_id first)
  ∧ conversationId (state w2) = Some convId
  ∧ messages (state w2) = messages (state w)
  ∧ isLoading (state w2) = isLoading (state w)
  ∧ pending w2 = delete k (pending w).
Proof.
  intros Hf Hc Hk Hs Hid w1 w2.
  set (s1 := setConversationId (Some convId) (state w)).
  assert (Hw1 : w1 = mkWorld (commit false (state w) s1).1 (pending w)).
  { subst w1. unfold step, location_effect, loadExistingConversation.
    rewrite Hc, Hf. cbv beta iota zeta. fold s1. f_equal.
    rewrite commit_started by (simpl; exact Hc). by rewrite !app_nil_r. }
  destruct (commit_frame false (state w) s1) as (Hm1 & Hc1 & Hf1 & Hl1 & _).
  assert (Hk1 : pending w1 !! k = Some (GetUserFiles selected)) by (by rewrite Hw1).
  assert (Hw2 := step_Settle env2 k (FilesReply (first :: rest)) w1 _ _ _ _ Hk1 eq_refl).
  fold w2 in Hw2.
  set (s2 := files_fulfilled selected (first :: rest) (state w1)) in *.
  destruct (commit_frame true (state w1) s2) as (Hm2 & Hc2 & Hf2 & Hl2 & _).
  assert (Hs2 : s2 = setSelectedFile (Some (file_id first))
                       (setFiles (first :: rest) (state w1)))
    by (unfold s2; simpl; by rewrite Hs).
  assert (Hconv1 : conversationId (state w1) = Some convId)
    by (rewrite Hw1; cbn [state]; by rewrite Hc1).
  split; [by rewrite Hw1|]. split; [done|].
  rewrite Hw2. cbn [state pending].
  rewrite Hm2, Hc2, Hf2, Hl2, Hs2. cbn [messages conversationId selectedFile isLoading
    setSelectedFile setFiles].
  rewrite Hconv1.
  split; [done|]. split; [done|].
  split; [rewrite Hw1; cbn [state]; by rewrite Hm1|].
  split; [rewrite Hw1; cbn [state]; by rewrite Hl1|].
  rewrite <- Hs2. rewrite commit_started.
  - rewrite Hw1. cbn [pending]. by rewrite !app_nil_r.
  - rewrite Hs2. cbn [conversationId setSelectedFile setFiles]. rewrite Hconv1. exact Hc.
Qed.

End DeepLinkFacts.

Section DeepLinkExamples.
Import RagChat Examples.
#[local] Existing Instance Js.ascii_engine.

(** X24: the page is opened on [/chat?conversationId=conv-1]. *)
Lemma deep_link_without_file_witness :
  messages
    (state (run [(env0, Location "conv-1"); (env0, Settle 0 (FilesReply files0))]
              (mkWorld (mkState [] None "" [] "" false None "local" false [])
                 [GetUserFiles None])))
  = []
  ∧ pending
      (run [(env0, Location "conv-1"); (env0, Settle 0 (FilesReply files0))]
         (mkWorld (mkState [] None "" [] "" false None "local" false [])
            [GetUserFiles None]))
    = [].
Proof.
  destruct ((deep_link_without_file_loads_nothing (engine := Js.ascii_engine)) env0 env0
              (mkWorld (mkState [] None "" [] "" false None "local" false [])
                 [GetUserFiles None])
              0 "conv-1" None (mkFileItem "fileA" "a.csv") [mkFileItem "fileB" "b.csv"]
              eq_refl eq_refl eq_refl eq_refl eq_refl)
    as (_ & _ & _ & _ & Hm & _ & Hp).
  split; [exact Hm | exact Hp].
Defined.

End DeepLinkExamples.

(** ** A route change that names another file *)

Section RouteChangeFacts.
Import RagChat.
Context {engine : Js.Engine} {conforms : Js.Conforms engine}.

(** X27.  A route change to the page of another file of the list, with
    no [conversationId] in the query, selects that file and takes its
    name, but, unlike the file select, clears nothing: when a
    conversation is bound, the transcript and the conversation id stay
    those of the file shown before and no request is issued; a text sent
    next goes to the backend with the new file and the old conversation
    id. *)
Theorem route_change_keeps_conversation
    (env1 env2 env3 : Env) (w : World) (fileId conv text : string) (file : FileItem) :
  Js.truthy fileId = true →
  selectedFile (state w) ≠ Some fileId →
  List.find (λ f, String.eqb (file_id f) fileId) (files (state w)) = Some file →
  conversationId (state w) = Some conv →
  Js.truthy conv = true →
  isLoading (state w) = false →
  Js.blank text = false →
  let w1 := step env1 (Route fileId None) w in
  let w2 := step env3 ClickSend (step env2 (InputChange text) w1) in
  selectedFile (state w1) = Some fileId
  ∧ selectedFileName (state w1) = filename file
  ∧ messages (state w1) = messages (state w)
  ∧ conversationId (state w1) = Some conv
  ∧ pending w1 = pending w
  ∧ ∃ data, pending w2 = pending w ++ [SendChatMessage data]
      ∧ req_question data = text
      ∧ req_file_id data = fileId
      ∧ req_conversation_id data = conv.
Proof.
  intros Ht Hnew Hfind Hconv Hct Hl Hb w1 w2.
  set (s1 := setSelectedFile (Some fileId) (state w)).
  assert (Hroute : route_effect fileId (state w) (state w) = s1).
  { unfold route_effect, same. rewrite Ht.
    rewrite bool_decide_eq_false_2 by congruence. done. }
  assert (He1 : commit false (state w) s1
                = (setSelectedFileName (filename file) s1, [])).
  { rewrite commit_changed by (left; simpl; congruence).
    rewrite (selection_effect_found s1 fileId file) by done.
    unfold s1, truthy. simpl. by rewrite Hconv, Hct. }
  assert (Hw1 : w1 = mkWorld (setSelectedFileName (filename file) s1) (pending w)).
  { subst w1. unfold step. cbv beta iota zeta. rewrite Hroute, He1.
    cbn [fst snd]. by rewrite !app_nil_r. }
  set (s2 := setInput text (setSelectedFileName (filename file) s1)).
  assert (Hw1' : step env2 (InputChange text) w1 = mkWorld s2 (pending w)).
  { rewrite Hw1. unfold step, textarea_disabled, truthy. cbn [state pending].
    simpl. rewrite Hl, Ht. simpl. fold s2.
    rewrite commit_unchanged by done. cbn [fst snd]. by rewrite !app_nil_r. }
  assert (Hg : send_guard (state (mkWorld s2 (pending w))) = false).
  { unfold send_guard, truthy. simpl.
    by rewrite truthy_trim, Hb, Hconv, Hct, Ht. }
  destruct (step_send_accepted env3 (mkWorld s2 (pending w)) ClickSend
              (or_introl eq_refl) Hl Hg)
    as (data & Hw2 & Hq & Hf & Hc & _).
  rewrite Hw1. cbn [state pending].
  split; [done|]. split; [done|]. split; [done|]. split; [by simpl|]. split; [done|].
  exists data. subst w2. rewrite Hw1', Hw2. cbn [pending].
  split; [done|]. split; [exact Hq|].
  simpl in Hf, Hc. rewrite Hconv in Hc. split; congruence.
Qed.

End RouteChangeFacts.

Section RouteChangeExamples.
Import RagChat Examples.
#[local] Existing Instance Js.ascii_engine.

(** X27: from the conversation [conv-1] of file A, a route change to the
    page of file B, then a question. *)
Lemma route_change_witness :
  messages (state (step env0 (Route "fileB" None) (mkWorld ready [])))
  = [welcome0]
  ∧ ∃ data,
      pending (step env0 ClickSend
                 (step env0 (InputChange "and costs?")
                    (step env0 (Route "fileB" None) (mkWorld ready []))))
      = [SendChatMessage data]
      ∧ req_file_id data = "fileB"
      ∧ req_conversation_id data = "conv-1".
Proof.
  destruct (route_change_keeps_conversation (engine := Js.ascii_engine) env0 env0 env0
              (mkWorld ready []) "fileB" "conv-1" "and costs?"
              (mkFileItem "fileB" "b.csv")
              eq_refl ltac:(discriminate) eq_refl eq_refl eq_refl eq_refl eq_refl)
    as (_ & _ & Hm & _ & _ & data & Hp & _ & Hf & Hc).
  split; [exact Hm|]. exists data. split; [exact Hp|]. split; [exact Hf | exact Hc].
Defined.

End RouteChangeExamples.
